(** * SmartPhasorToolBox: persistor pipeline, registry and lag monitor

    A shallow embedding of the Python sources
      - modules/persistor/main.py      (module [Persistor])
      - modules/persistor/database.py  (module [Database])
      - status_manager.py              (modules [StatusManager], [Monitor])
      - main.py                        (module [Api])
    together with the properties of the consumption-and-persistence
    pipeline and of the status reports proved about them.

    Python values, exceptions and the built-ins the sources call live in
    module [Py].  Calls to Redis and PostgreSQL are external: what they
    answer is given by an environment record, what the program asks of them
    is recorded as a trace of events. *)

From Stdlib Require Import ZArith NArith List Ascii String Bool Lia.
From stdpp Require Import base option list gmap strings pretty.
Import ListNotations.

Local Open Scope string_scope.
Local Open Scope list_scope.

(* ===================================================================== *)
(** * Python values, exceptions and built-ins                             *)
(* ===================================================================== *)

Module Py.

(** Exceptions raised in the modelled code.  All of them derive from
    Python's [Exception]; [ResponseError] and [ConnectionError] are the
    [redis.exceptions.RedisError] subclasses, [OperationalError],
    [InterfaceError] and [DatabaseError] the psycopg2 ones; [OSError] is
    what a failing [localtime] gives. *)
Inductive exc : Type :=
| TypeError
| ValueError
| KeyError (key : string)
| IndexError
| OverflowError
| OSError
| NameError (name : string)
| OperationalError
| InterfaceError
| DatabaseError
| ResponseError (msg : string)
| ConnectionError
| GenericException (msg : string).

(** [isinstance(e, redis.exceptions.RedisError)] *)
Definition is_redis_error (e : exc) : bool :=
  match e with
  | ResponseError _ | ConnectionError => true
  | _ => false
  end.

(** [str(e)] for the exceptions whose text the code inspects or logs. *)
Definition str_of_exc (e : exc) : string :=
  match e with
  | TypeError => "TypeError"
  | ValueError => "ValueError"
  | KeyError k => k
  | IndexError => "IndexError"
  | OverflowError => "OverflowError"
  | OSError => "OSError"
  | NameError n => "name '" +:+ n +:+ "' is not defined"
  | OperationalError => "OperationalError"
  | InterfaceError => "InterfaceError"
  | DatabaseError => "DatabaseError"
  | ResponseError m => m
  | ConnectionError => "ConnectionError"
  | GenericException m => m
  end.

(** A call either returns a value or raises. *)
Inductive result (A : Type) : Type :=
| Ok (a : A)
| Raise (e : exc).
Arguments Ok {A} a.
Arguments Raise {A} e.

(** A Python float is written as the exact value
    [(-1)^neg * mant * 10^e10] - every binary64 number is such a decimal -
    or is one of the two infinities or NaN.  [float] of a string rounds
    to the nearest binary64 number and writes it without trailing zeros,
    so that 1700000000.5 is [FFinite false 17000000005 (-1)]. *)
Inductive pyfloat : Type :=
| FFinite (neg : bool) (mant : N) (e10 : Z)
| FInf (neg : bool)
| FNan.

(** A [datetime.datetime] object is identified with the POSIX timestamp
    [fromtimestamp] accepted to build it. *)
Inductive datetime : Type :=
| Datetime (posix : pyfloat).

(** Scalar values found in entries and rows. *)
Inductive value : Type :=
| VNone
| VStr (s : string)
| VFloat (f : pyfloat)
| VDatetime (d : datetime).

Definition is_none (v : value) : bool :=
  match v with VNone => true | _ => false end.

(** ** Text helpers *)

Definition is_digit (c : ascii) : bool :=
  let n := N_of_ascii c in ((48 <=? n) && (n <=? 57))%N.

Definition digit_val (c : ascii) : N := (N_of_ascii c - 48)%N.

(** Characters removed by [str.strip()] (ASCII range). *)
Definition is_space (c : ascii) : bool :=
  let n := N_of_ascii c in
  (((9 <=? n) && (n <=? 13)) || ((28 <=? n) && (n <=? 32)))%N.

Fixpoint lstrip (l : list ascii) : list ascii :=
  match l with
  | c :: l' => if is_space c then lstrip l' else l
  | [] => []
  end.

Definition strip (l : list ascii) : list ascii :=
  rev (lstrip (rev (lstrip l))).

Definition lower (c : ascii) : ascii :=
  let n := N_of_ascii c in
  if ((65 <=? n) && (n <=? 90))%N then ascii_of_N (n + 32) else c.

Definition parse_sign (l : list ascii) : bool * list ascii :=
  match l with
  | "+"%char :: r => (false, r)
  | "-"%char :: r => (true, r)
  | _ => (false, l)
  end.

(** The continuation of a [digitpart ::= digit (["_"] digit)*] after its
    first digit: digits read and unread rest. *)
Fixpoint digits_tail (l : list ascii) : list N * list ascii :=
  match l with
  | c :: l' =>
      if is_digit c then
        let '(ds, r) := digits_tail l' in (digit_val c :: ds, r)
      else if Ascii.eqb c "_" then
        match l' with
        | d :: l'' =>
            if is_digit d then
              let '(ds, r) := digits_tail l'' in (digit_val d :: ds, r)
            else ([], l)
        | [] => ([], l)
        end
      else ([], l)
  | [] => ([], [])
  end.

Definition digitpart (l : list ascii) : option (list N * list ascii) :=
  match l with
  | c :: l' =>
      if is_digit c then
        let '(ds, r) := digits_tail l' in Some (digit_val c :: ds, r)
      else None
  | [] => None
  end.

Definition N_of_digits (ds : list N) : N :=
  fold_left (fun acc d => (acc * 10 + d)%N) ds 0%N.

(** [number ::= [digitpart] "." digitpart | digitpart ["."]]:
    integer digits, fraction digits, rest. *)
Definition parse_number (l : list ascii)
  : option (list N * list N * list ascii) :=
  match digitpart l with
  | Some (ip, r) =>
      match r with
      | "."%char :: r' =>
          match digitpart r' with
          | Some (fp, r'') => Some (ip, fp, r'')
          | None => Some (ip, [], r')
          end
      | _ => Some (ip, [], r)
      end
  | None =>
      match l with
      | "."%char :: r' =>
          match digitpart r' with
          | Some (fp, r'') => Some ([], fp, r'')
          | None => None
          end
      | _ => None
      end
  end.

(** [exponent ::= ("e" | "E") [sign] digitpart], absent when the rest is
    empty; anything else left over makes the literal invalid. *)
Definition parse_exponent (l : list ascii) : option Z :=
  match l with
  | [] => Some 0%Z
  | c :: r =>
      if Ascii.eqb (lower c) "e" then
        let '(neg, r1) := parse_sign r in
        match digitpart r1 with
        | Some (ds, []) =>
            let e := Z.of_N (N_of_digits ds) in
            Some (if neg then (- e)%Z else e)
        | _ => None
        end
      else None
  end.

Definition lower_string (l : list ascii) : string :=
  string_of_list_ascii (map lower l).

(** [2^k] and [10^k] for [k >= 0], and 1 below. *)
Definition pow2 (k : Z) : Z := (2 ^ Z.max 0 k)%Z.
Definition pow10 (k : Z) : Z := (10 ^ Z.max 0 k)%Z.

(** The integer nearest to [num / den], for [den > 0]; a tie goes to the
    even one. *)
Definition round_half_even (num den : Z) : Z :=
  let q := (num / den)%Z in
  match (2 * (num mod den) ?= den)%Z with
  | Lt => q
  | Gt => (q + 1)%Z
  | Eq => if Z.even q then q else (q + 1)%Z
  end.

(** The binary64 number nearest to [num / den], for [num >= 0] and
    [den > 0], ties to even (IEEE 754 round-to-nearest): [Some (m, e)]
    stands for [m * 2^e], with [m < 2^53] and [e >= -1074]; [None] is the
    overflow to infinity. *)
Definition nearest_double (num den : Z) : option (Z * Z) :=
  if (num =? 0)%Z then Some (0, 0)%Z
  else
    let k0 := (Z.log2 num - Z.log2 den)%Z in
    (* [k]: the integer with [2^k <= num / den < 2^(k+1)] *)
    let k := if (den * pow2 k0 <=? num * pow2 (- k0))%Z then k0 else (k0 - 1)%Z in
    let e := Z.max (k - 52) (-1074) in
    let m := round_half_even (num * pow2 (- e)) (den * pow2 e) in
    if (2 ^ 1024 <=? m * pow2 e)%Z then None else Some (m, e).

(** Trailing zeros of the mantissa moved into the exponent. *)
Fixpoint strip_zeros (fuel : nat) (m e10 : Z) : Z * Z :=
  match fuel with
  | O => (m, e10)
  | S fuel' =>
      if ((m mod 10 =? 0) && negb (m =? 0))%Z%bool
      then strip_zeros fuel' (m / 10)%Z (e10 + 1)%Z
      else (m, e10)
  end.

(** The float [(-1)^neg * m * 2^e]. *)
Definition float_of_dyadic (neg : bool) (m e : Z) : pyfloat :=
  if (m =? 0)%Z then FFinite neg 0 0
  else
    let '(mant, e10) :=
      if (0 <=? e)%Z then (m * 2 ^ e, 0)%Z else (m * 5 ^ (- e), e)%Z in
    let '(mant, e10) := strip_zeros (Z.to_nat (Z.log2 mant)) mant e10 in
    FFinite neg (Z.to_N mant) e10.

(** The float nearest to the decimal [(-1)^neg * m * 10^e10]. *)
Definition float_of_decimal (neg : bool) (m : N) (e10 : Z) : pyfloat :=
  match nearest_double (Z.of_N m * pow10 e10) (pow10 (- e10)) with
  | Some (m2, e2) => float_of_dyadic neg m2 e2
  | None => FInf neg
  end.

(** [float(s)] for a string [s]: the [floatvalue] grammar of the language
    reference, after stripping surrounding whitespace; the decimal read is
    rounded to the nearest binary64 number, and to an infinity when it is
    too large. *)
Definition float_of_string (s : string) : result pyfloat :=
  let '(neg, body) := parse_sign (strip (list_ascii_of_string s)) in
  let word := lower_string body in
  if (String.eqb word "inf" || String.eqb word "infinity")%bool
  then Ok (FInf neg)
  else if String.eqb word "nan" then Ok FNan
  else
    match parse_number body with
    | Some (ip, fp, r) =>
        match parse_exponent r with
        | Some e =>
            Ok (float_of_decimal neg (N_of_digits (ip ++ fp))
                  (e - Z.of_nat (length fp)))
        | None => Raise ValueError
        end
    | None => Raise ValueError
    end.

(** The built-in [float(v)]. *)
Definition float (v : value) : result pyfloat :=
  match v with
  | VStr s => float_of_string s
  | VFloat f => Ok f
  | VNone | VDatetime _ => Raise TypeError
  end.

(** The limits [datetime.fromtimestamp] runs into, in seconds since the
    epoch, as CPython has them on 64-bit Linux with glibc and the local
    zone UTC (the zone of the service's container): the range of
    [time_t]; the instants whose year [localtime] can still store; and
    the years 1 to 9999 of [datetime], less the first day, because the
    conversion also looks one day back to detect a repeated hour. *)
Definition TIME_T_LIMIT : Z := (2 ^ 63)%Z.
Definition LOCALTIME_MIN : Z := (-67768040609740800)%Z.
Definition LOCALTIME_MAX : Z := 67768036191676799%Z.
Definition DATETIME_MIN : Z := (-62135510400)%Z.   (* 0001-01-02 00:00:00 *)
Definition DATETIME_MAX : Z := 253402300799%Z.      (* 9999-12-31 23:59:59 *)

(** The seconds and microseconds of a finite float, as
    [fromtimestamp] splits it: [modf], the fraction times 10^6 rounded to
    binary64 and then to an integer with ties to even, and the carry into
    the seconds. *)
Definition timeval (neg : bool) (mant : N) (e10 : Z) : Z * Z :=
  let num := (Z.of_N mant * pow10 e10)%Z in
  let den := pow10 (- e10) in
  let intpart := (num / den)%Z in
  let us :=
    match nearest_double ((num mod den) * 1000000) den with
    | Some (m, e) => round_half_even (m * pow2 e) (pow2 (- e))
    | None => 0%Z
    end in
  let sec := if neg then (- intpart)%Z else intpart in
  let us := if neg then (- us)%Z else us in
  if (1000000 <=? us)%Z then ((sec + 1)%Z, (us - 1000000)%Z)
  else if (us <? 0)%Z then ((sec - 1)%Z, (us + 1000000)%Z)
  else (sec, us).

(** [datetime.fromtimestamp(t)]: NaN is a [ValueError]; an infinity or
    seconds outside [time_t] an [OverflowError]; seconds whose year
    [localtime] cannot store an [OSError]; a year outside 1..9999 a
    [ValueError]. *)
Definition fromtimestamp (t : pyfloat) : result datetime :=
  match t with
  | FNan => Raise ValueError
  | FInf _ => Raise OverflowError
  | FFinite neg mant e10 =>
      let sec := fst (timeval neg mant e10) in
      if ((sec <? - TIME_T_LIMIT) || (TIME_T_LIMIT <? sec))%Z%bool
      then Raise OverflowError
      else if ((sec <? LOCALTIME_MIN) || (LOCALTIME_MAX <? sec))%Z%bool
      then Raise OSError
      else if ((sec <? DATETIME_MIN) || (DATETIME_MAX <? sec))%Z%bool
      then Raise ValueError
      else Ok (Datetime t)
  end.

(** The built-in [int(s)] on a string: optional sign, then a digitpart. *)
Definition int_of_string (s : string) : result Z :=
  let '(neg, body) := parse_sign (strip (list_ascii_of_string s)) in
  match digitpart body with
  | Some (ds, []) =>
      let n := Z.of_N (N_of_digits ds) in
      Ok (if neg then (- n)%Z else n)
  | _ => Raise ValueError
  end.

(** [needle in hay] on strings. *)
Fixpoint contains (needle hay : string) : bool :=
  match hay with
  | EmptyString => String.prefix needle EmptyString
  | String _ hay' => String.prefix needle hay || contains needle hay'
  end.

(** [s.split(sep)[-1]]: the text after the last separator (all of [s]
    when there is none); the list is never empty, so no [IndexError]. *)
Fixpoint last_segment_from (sep : ascii) (acc : list ascii) (l : list ascii)
  : list ascii :=
  match l with
  | [] => rev acc
  | c :: l' =>
      if Ascii.eqb c sep then last_segment_from sep [] l'
      else last_segment_from sep (c :: acc) l'
  end.

Definition split_last (sep : ascii) (s : string) : string :=
  string_of_list_ascii (last_segment_from sep [] (list_ascii_of_string s)).

(** [sep.join(items)] *)
Fixpoint join (sep : string) (items : list string) : string :=
  match items with
  | [] => ""
  | [x] => x
  | x :: rest => x +:+ sep +:+ join sep rest
  end.

(** Sequencing of calls that may raise. *)
Definition rbind {A B : Type} (r : result A) (k : A -> result B) : result B :=
  match r with
  | Ok a => k a
  | Raise e => Raise e
  end.

(** A [dict] whose iteration order (insertion order) the code relies on,
    as an association list. *)
Abbreviation odict V := (list (string * V)).

Fixpoint odict_get {V : Type} (k : string) (d : odict V) : option V :=
  match d with
  | [] => None
  | (k', v) :: d' => if String.eqb k k' then Some v else odict_get k d'
  end.

(** [d[k] = v]: replaces in place, or adds at the end. *)
Fixpoint odict_set {V : Type} (k : string) (v : V) (d : odict V) : odict V :=
  match d with
  | [] => [(k, v)]
  | (k', v') :: d' =>
      if String.eqb k k' then (k', v) :: d' else (k', v') :: odict_set k v d'
  end.

End Py.

(* ===================================================================== *)
(** * External calls: events and the program monad                        *)
(* ===================================================================== *)

Module Eff.
Import Py.

(** A row of [phasor_data]: one value per column. *)
Abbreviation row := (list value).

(** Messages handed to [logger]. *)
Inductive log_msg : Type :=
| LogConnectRetry (e : exc)
| LogConnectGiveUp
| LogPmuRegistered (pmu_id : Z)
| LogRegisterError (pmu_id : Z) (e : exc)
| LogReconnecting
| LogFlushOk (n : nat)
| LogFlushError (e : exc)
| LogDiscovering
| LogNoStreamsFound
| LogGroupCreated (stream : string)
| LogGroupExists (stream : string)
| LogInvalidStreamName (stream : string)
| LogListening (n : nat)
| LogDiscoverError (e : exc)
| LogStarting
| LogIdle
| LogTimeoutFlush
| LogAckWithheld
| LogRedisError (e : exc)
| LogUnexpectedError (e : exc)
| LogShuttingDown
| LogStopped
| LogStatusError (e : exc).

(** What the program asks of the outside world, in program order. *)
Inductive event : Type :=
| EvLog (m : log_msg)
| EvSleep (secs : nat)
| EvSetupDatabase
| EvDbConnect
| EvDbExecute (sql : string) (args : list string)
| EvDbExecuteValues (sql : string) (rows : list row) (page_size : nat)
| EvDbCommit
| EvDbRollback
| EvDbClose
| EvKeys (pattern : string)
| EvXGroupCreate (stream group : string)
| EvXReadGroup (group consumer : string) (streams : list (string * string))
    (count block_ms : nat)
| EvXAck (stream group : string) (ids : list string)
| EvXInfoGroups (stream : string).

(** A statement sequence over mutable state [S]: it yields the state it
    leaves behind (mutations survive an exception), the events it caused
    and either a value or the exception that ended it. *)
Definition prog (S A : Type) : Type := S -> S * list event * result A.

Definition ret {S A : Type} (a : A) : prog S A :=
  fun s => (s, [], Ok a).

Definition bind {S A B : Type} (m : prog S A) (k : A -> prog S B) : prog S B :=
  fun s =>
    match m s with
    | (s1, t1, Ok a) =>
        match k a s1 with
        | (s2, t2, r) => (s2, t1 ++ t2, r)
        end
    | (s1, t1, Raise e) => (s1, t1, Raise e)
    end.

Definition raise {S A : Type} (e : exc) : prog S A :=
  fun s => (s, [], Raise e).

Definition emit {S : Type} (ev : event) : prog S unit :=
  fun s => (s, [ev], Ok tt).

Definition lift {S A : Type} (r : result A) : prog S A :=
  fun s => (s, [], r).

Definition get {S : Type} : prog S S :=
  fun s => (s, [], Ok s).

Definition modify {S : Type} (f : S -> S) : prog S unit :=
  fun s => (f s, [], Ok tt).

(** [try: m  except <filter> as e: h e]; an exception the filter rejects
    goes on to the caller. *)
Definition try_except {S A : Type} (m : prog S A) (filter : exc -> bool)
    (h : exc -> prog S A) : prog S A :=
  fun s =>
    match m s with
    | (s1, t1, Ok a) => (s1, t1, Ok a)
    | (s1, t1, Raise e) =>
        if filter e then
          match h e s1 with
          | (s2, t2, r) => (s2, t1 ++ t2, r)
          end
        else (s1, t1, Raise e)
    end.

(** [try: m  finally: f]; an exception raised by [f] replaces the
    outcome of [m]. *)
Definition finally {S A : Type} (m : prog S A) (f : prog S unit) : prog S A :=
  fun s =>
    match m s with
    | (s1, t1, r) =>
        match f s1 with
        | (s2, t2, Ok _) => (s2, t1 ++ t2, r)
        | (s2, t2, Raise e) => (s2, t1 ++ t2, Raise e)
        end
    end.

(** Run [m] and hand its outcome to the continuation as a value. *)
Definition attempt {S A : Type} (m : prog S A) : prog S (result A) :=
  fun s =>
    match m s with
    | (s1, t1, r) => (s1, t1, Ok r)
    end.

(** [except Exception]: every modelled exception is an [Exception]. *)
Definition any_exception (e : exc) : bool := true.

End Eff.

Notation "x <- m ;; k" := (Eff.bind m (fun x => k))
  (at level 100, m at next level, right associativity, only parsing).
Notation "m ;;; k" := (Eff.bind m (fun _ => k))
  (at level 100, right associativity, only parsing).

(* ===================================================================== *)
(** * modules/persistor/database.py                                       *)
(* ===================================================================== *)

Module Database.
Import Py Eff.

(** A psycopg2 connection object, as far as the code looks at it.  A new
    connection is open; [closed] becomes true when a call on the
    connection finds the link to the server broken (see [mark_closed] in
    the persistor). *)
Record connection : Type := Connection {
  closed : bool;
  autocommit : bool
}.

Definition fresh_connection : connection :=
  {| closed := false; autocommit := false |}.

Definition set_autocommit (b : bool) (c : connection) : connection :=
  {| closed := closed c; autocommit := b |}.

(** The retry loop of [get_db_connection]: [answers k] is what the
    [k]-th call of [psycopg2.connect] does. *)
Fixpoint connect_loop {S : Type} (answers : nat -> result unit)
    (retries attempt_no : nat) : prog S (option connection) :=
  match retries with
  | O => ret None
  | Datatypes.S retries' =>
      emit EvDbConnect ;;;
      match answers attempt_no with
      | Ok _ => ret (Some fresh_connection)
      | Raise OperationalError =>
          emit (EvLog (LogConnectRetry OperationalError)) ;;;
          emit (EvSleep 5) ;;;
          connect_loop answers retries' (Datatypes.S attempt_no)
      | Raise e => raise e
      end
  end.

Definition get_db_connection {S : Type} (answers : nat -> result unit)
  : prog S connection :=
  conn <- connect_loop answers 10 0 ;;
  match conn with
  | None =>
      emit (EvLog LogConnectGiveUp) ;;;
      raise (GenericException "Falha na conexão com o banco de dados")
  | Some c => ret c
  end.

(** The [CREATE TABLE] statement of [setup_database] for the hypertable. *)
Definition phasor_data_ddl : string :=
"
                CREATE TABLE IF NOT EXISTS phasor_data (
                    time TIMESTAMPTZ NOT NULL,
                    pmu_id INTEGER NOT NULL REFERENCES pmu_devices(pmu_id),
                    stat_word BIGINT,
                    freq DOUBLE PRECISION,
                    rocof DOUBLE PRECISION,
                    phasor_0_mag DOUBLE PRECISION, phasor_0_ang_deg DOUBLE PRECISION,
                    phasor_1_mag DOUBLE PRECISION, phasor_1_ang_deg DOUBLE PRECISION,
                    phasor_2_mag DOUBLE PRECISION, phasor_2_ang_deg DOUBLE PRECISION,
                    phasor_3_mag DOUBLE PRECISION, phasor_3_ang_deg DOUBLE PRECISION,
                    phasor_4_mag DOUBLE PRECISION, phasor_4_ang_deg DOUBLE PRECISION,
                    phasor_5_mag DOUBLE PRECISION, phasor_5_ang_deg DOUBLE PRECISION,
                    phasor_6_mag DOUBLE PRECISION, phasor_6_ang_deg DOUBLE PRECISION,
                    phasor_7_mag DOUBLE PRECISION, phasor_7_ang_deg DOUBLE PRECISION,
                    phasor_8_mag DOUBLE PRECISION, phasor_8_ang_deg DOUBLE PRECISION,
                    phasor_9_mag DOUBLE PRECISION, phasor_9_ang_deg DOUBLE PRECISION,
                    phasor_10_mag DOUBLE PRECISION, phasor_10_ang_deg DOUBLE PRECISION,
                    phasor_11_mag DOUBLE PRECISION, phasor_11_ang_deg DOUBLE PRECISION,
                    analog_0 DOUBLE PRECISION, analog_1 DOUBLE PRECISION,
                    analog_2 DOUBLE PRECISION, analog_3 DOUBLE PRECISION,
                    analog_4 DOUBLE PRECISION, analog_5 DOUBLE PRECISION,
                    analog_6 DOUBLE PRECISION, analog_7 DOUBLE PRECISION,
                    digital_0 BIGINT, digital_1 BIGINT
                );
            ".

(** The column definitions of a [CREATE TABLE name ( ... )] statement:
    the text between the outer parentheses, cut at the commas that are not
    nested in inner parentheses. *)
Fixpoint column_definitions (depth : nat) (cur : list ascii) (l : list ascii)
  : list (list ascii) :=
  match l with
  | [] => []
  | c :: l' =>
      if Ascii.eqb c "(" then
        match depth with
        | O => column_definitions 1 [] l'
        | _ => column_definitions (Datatypes.S depth) (c :: cur) l'
        end
      else if Ascii.eqb c ")" then
        match depth with
        | O => column_definitions 0 [] l'
        | 1 => [rev cur]
        | Datatypes.S d => column_definitions d (c :: cur) l'
        end
      else if Ascii.eqb c "," then
        match depth with
        | O => column_definitions 0 [] l'
        | 1 => rev cur :: column_definitions 1 [] l'
        | _ => column_definitions depth (c :: cur) l'
        end
      else
        match depth with
        | O => column_definitions 0 [] l'
        | _ => column_definitions depth (c :: cur) l'
        end
  end.

Fixpoint first_word (l : list ascii) : list ascii :=
  match l with
  | [] => []
  | c :: l' => if is_space c then [] else c :: first_word l'
  end.

(** The column names a [CREATE TABLE] statement declares, in order. *)
Definition declared_columns (ddl : string) : list string :=
  map (fun d => string_of_list_ascii (first_word (lstrip d)))
      (column_definitions 0 [] (list_ascii_of_string ddl)).

(** Names bound at module level in database.py: its four imports,
    [logger] and its three functions. *)
Definition module_globals : list string :=
  ["psycopg2"; "os"; "logging"; "time";
   "logger"; "get_db_connection"; "setup_database"; "register_pmu"].

(** Built-in names the sources refer to. *)
Definition builtins : list string :=
  ["Exception"; "IndexError"; "TypeError"; "ValueError";
   "float"; "int"; "len"; "str"; "tuple"].

(** Evaluating a global name: module globals, then built-ins, else
    [NameError]. *)
Definition lookup_name (globals : list string) (name : string) : result unit :=
  if (existsb (String.eqb name) globals || existsb (String.eqb name) builtins)%bool
  then Ok tt
  else Raise (NameError name).

Definition registry_insert_sql : string :=
"
                INSERT INTO pmu_devices (pmu_id, station_name, description)
                VALUES (%s, %s, %s)
                ON CONFLICT (pmu_id) DO NOTHING;
            ".

(** What the database server does during one call of [register_pmu]. *)
Record register_env : Type := RegisterEnv {
  re_connect : nat -> result unit;   (* psycopg2.connect, per attempt *)
  re_cursor : result unit;           (* conn.cursor() *)
  re_now : string;                   (* str(datetime.now()) *)
  re_execute : result Z              (* cursor.execute: the row count *)
}.

(** [register_pmu], with the global names of the defining module as a
    parameter. *)
Definition register_pmu_in {S : Type} (globals : list string)
    (env : register_env) (pmu_id : Z) : prog S unit :=
  rc <- attempt (get_db_connection (re_connect env)) ;;
  match rc with
  | Raise e =>
      (* except Exception; conn is still None in the finally clause *)
      emit (EvLog (LogRegisterError pmu_id e))
  | Ok conn =>
      let conn := set_autocommit true conn in
      finally
        (try_except
           (lift (re_cursor env) ;;;
            lift (lookup_name globals "datetime") ;;;
            emit (EvDbExecute registry_insert_sql
                    [pretty pmu_id;
                     "PMU " +:+ pretty pmu_id;
                     "Auto-registrado em " +:+ re_now env]) ;;;
            rowcount <- lift (re_execute env) ;;
            if (0 <? rowcount)%Z
            then emit (EvLog (LogPmuRegistered pmu_id))
            else ret tt)
           any_exception
           (fun e => emit (EvLog (LogRegisterError pmu_id e))))
        (emit EvDbClose)
  end.

Definition register_pmu {S : Type} (env : register_env) (pmu_id : Z)
  : prog S unit :=
  register_pmu_in module_globals env pmu_id.

End Database.

(* ===================================================================== *)
(** * modules/persistor/main.py                                           *)
(* ===================================================================== *)

Module Persistor.
Import Py Eff Database.

Definition STREAM_KEY_PATTERN : string := "pmu_data_stream:*".
Definition GROUP_NAME : string := "persistor_group".
Definition CONSUMER_NAME : string := "persistor_consumer_1".
Definition BATCH_SIZE : nat := 500.
Definition BLOCK_TIMEOUT_MS : nat := 2000.

Definition TABLE_COLUMNS : list string :=
  ["time"; "pmu_id"; "stat_word"; "freq"; "rocof";
   "phasor_0_mag"; "phasor_0_ang_deg"; "phasor_1_mag"; "phasor_1_ang_deg";
   "phasor_2_mag"; "phasor_2_ang_deg"; "phasor_3_mag"; "phasor_3_ang_deg";
   "phasor_4_mag"; "phasor_4_ang_deg"; "phasor_5_mag"; "phasor_5_ang_deg";
   "phasor_6_mag"; "phasor_6_ang_deg"; "phasor_7_mag"; "phasor_7_ang_deg";
   "phasor_8_mag"; "phasor_8_ang_deg"; "phasor_9_mag"; "phasor_9_ang_deg";
   "phasor_10_mag"; "phasor_10_ang_deg"; "phasor_11_mag"; "phasor_11_ang_deg";
   "analog_0"; "analog_1"; "analog_2"; "analog_3";
   "analog_4"; "analog_5"; "analog_6"; "analog_7";
   "digital_0"; "digital_1"].

Definition SQL_INSERT_QUERY : string :=
  "INSERT INTO phasor_data (" +:+ join ", " TABLE_COLUMNS +:+ ") VALUES %s".

(** The process state of the persistor: the module globals [data_buffer],
    [acks_to_send] and [db_conn], and [streams_to_listen], the local of
    [run_persistor] that outlives a cycle. *)
Record state : Type := State {
  data_buffer : list row;
  acks_to_send : odict (list string);
  db_conn : option connection;
  streams_to_listen : odict string
}.

Definition initial_state : state :=
  {| data_buffer := []; acks_to_send := []; db_conn := None;
     streams_to_listen := [] |}.

Definition set_data_buffer (b : list row) (s : state) : state :=
  {| data_buffer := b; acks_to_send := acks_to_send s;
     db_conn := db_conn s; streams_to_listen := streams_to_listen s |}.

Definition set_acks_to_send (a : odict (list string)) (s : state) : state :=
  {| data_buffer := data_buffer s; acks_to_send := a;
     db_conn := db_conn s; streams_to_listen := streams_to_listen s |}.

Definition set_db_conn (c : option connection) (s : state) : state :=
  {| data_buffer := data_buffer s; acks_to_send := acks_to_send s;
     db_conn := c; streams_to_listen := streams_to_listen s |}.

Definition set_streams_to_listen (l : odict string) (s : state) : state :=
  {| data_buffer := data_buffer s; acks_to_send := acks_to_send s;
     db_conn := db_conn s; streams_to_listen := l |}.

(** [datetime.fromtimestamp(float(v))] *)
Definition to_datetime (v : value) : result datetime :=
  rbind (float v) fromtimestamp.

(** Step 1 of [format_row_from_redis]: the value stored under ['time'].
    [msg_data['ts']] raises [KeyError] when the field is missing; only
    [TypeError] and [ValueError] are handled. *)
Definition time_of_entry (msg_data : gmap string value) : result value :=
  match
    rbind (match msg_data !! "ts" with
           | Some v => Ok v
           | None => Raise (KeyError "ts")
           end)
      (fun v => rbind (to_datetime v)
      (fun d => Ok (VDatetime d)))
  with
  | Ok t => Ok t
  | Raise TypeError | Raise ValueError => Ok VNone
  | Raise e => Raise e
  end.

(** [msg_data.get(col)] *)
Definition dict_get (msg_data : gmap string value) (col : string) : value :=
  match msg_data !! col with
  | Some v => v
  | None => VNone
  end.

(** [format_row_from_redis]: the entry as it is left (with ['time'] set)
    and the row. *)
Definition format_row_from_redis (msg_data : gmap string value)
  : result (gmap string value * row) :=
  rbind (time_of_entry msg_data) (fun t =>
  let msg_data := <["time" := t]> msg_data in
  Ok (msg_data, map (dict_get msg_data) TABLE_COLUMNS)).

(** What the database server does during one call of
    [flush_buffer_to_db]. *)
Record flush_env : Type := FlushEnv {
  fe_connect : nat -> result unit;     (* psycopg2.connect, per attempt *)
  fe_cursor : result unit;             (* db_conn.cursor() *)
  fe_execute_values : result unit;     (* execute_values(...) *)
  fe_commit : result unit;             (* db_conn.commit() *)
  fe_rollback : result unit;           (* db_conn.rollback() *)
  fe_breaks : bool                     (* a call that fails finds the link broken *)
}.

Definition connection_lost (c : option connection) : bool :=
  match c with
  | None => true
  | Some c => closed c
  end.

(** psycopg2 marks a connection closed when a call on it finds the link
    to the server broken; [db_conn.closed] is true from then on. *)
Definition mark_closed (broken : bool) (st : state) : state :=
  match db_conn st with
  | Some c =>
      set_db_conn (Some {| closed := closed c || broken;
                           autocommit := autocommit c |}) st
  | None => st
  end.

(** A call on [db_conn] or on its cursor: when it raises, the connection
    is left closed if the link is broken. *)
Definition db_call (env : flush_env) (r : result unit) : prog state unit :=
  match r with
  | Ok _ => ret tt
  | Raise e => modify (mark_closed (fe_breaks env)) ;;; raise e
  end.

(** The first block of the [try] in [flush_buffer_to_db]: reconnect when
    [db_conn] is None or closed. *)
Definition ensure_connection (env : flush_env) : prog state unit :=
  st <- get ;;
  if connection_lost (db_conn st) then
    emit (EvLog LogReconnecting) ;;;
    c <- get_db_connection (fe_connect env) ;;
    modify (set_db_conn (Some (set_autocommit false c)))
  else ret tt.

Definition flush_buffer_to_db (env : flush_env) : prog state bool :=
  st <- get ;;
  match data_buffer st with
  | [] => ret true
  | _ :: _ =>
      try_except
        (ensure_connection env ;;;
         db_call env (fe_cursor env) ;;;
         emit (EvDbExecuteValues SQL_INSERT_QUERY (data_buffer st) BATCH_SIZE) ;;;
         db_call env (fe_execute_values env) ;;;
         emit EvDbCommit ;;;
         db_call env (fe_commit env) ;;;
         emit (EvLog (LogFlushOk (length (data_buffer st)))) ;;;
         modify (set_data_buffer []) ;;;
         ret true)
        any_exception
        (fun e =>
           emit (EvLog (LogFlushError e)) ;;;
           st' <- get ;;
           match db_conn st' with
           | Some _ => emit EvDbRollback ;;; db_call env (fe_rollback env)
           | None => ret tt
           end ;;;
           ret false)
  end.

(** What Redis and the database do during one run of
    [discover_and_setup_groups]. *)
Record discover_env : Type := DiscoverEnv {
  de_keys : result (list string);               (* r.keys(pattern) *)
  de_xgroup_create : string -> result unit;     (* r.xgroup_create(stream, ...) *)
  de_register : string -> register_env          (* during register_pmu *)
}.

Definition is_response_error (e : exc) : bool :=
  match e with ResponseError _ => true | _ => false end.

Definition is_index_or_value_error (e : exc) : bool :=
  match e with IndexError | ValueError => true | _ => false end.

(** The body of the [for stream_name in stream_names] loop. *)
Definition setup_stream {S : Type} (env : discover_env) (stream_name : string)
    (streams_dict : odict string) : prog S (odict string) :=
  try_except
    (emit (EvXGroupCreate stream_name GROUP_NAME) ;;;
     lift (de_xgroup_create env stream_name) ;;;
     emit (EvLog (LogGroupCreated stream_name)))
    is_response_error
    (fun e =>
       if contains "name already exists" (str_of_exc e)
       then emit (EvLog (LogGroupExists stream_name))
       else raise e) ;;;
  try_except
    (pmu_id <- lift (int_of_string (split_last ":" stream_name)) ;;
     register_pmu (de_register env stream_name) pmu_id)
    is_index_or_value_error
    (fun _ => emit (EvLog (LogInvalidStreamName stream_name))) ;;;
  ret (odict_set stream_name ">" streams_dict).

Fixpoint setup_streams {S : Type} (env : discover_env)
    (stream_names : list string) (streams_dict : odict string)
  : prog S (odict string) :=
  match stream_names with
  | [] => ret streams_dict
  | stream_name :: rest =>
      d <- setup_stream env stream_name streams_dict ;;
      setup_streams env rest d
  end.

Definition discover_and_setup_groups {S : Type} (env : discover_env)
  : prog S (odict string) :=
  emit (EvLog LogDiscovering) ;;;
  try_except
    (emit (EvKeys STREAM_KEY_PATTERN) ;;;
     stream_names <- lift (de_keys env) ;;
     match stream_names with
     | [] => emit (EvLog LogNoStreamsFound) ;;; ret []
     | _ :: _ =>
         d <- setup_streams env stream_names [] ;;
         emit (EvLog (LogListening (length d))) ;;;
         ret d
     end)
    any_exception
    (fun e => emit (EvLog (LogDiscoverError e)) ;;; ret []).

(** One log entry as [xreadgroup] delivers it: its id and its fields. *)
Abbreviation entry := (string * gmap string value)%type.

(** The answer of [xreadgroup]: per stream, the entries delivered. *)
Abbreviation response := (list (string * list entry)).

(** [acks_to_send[stream_name].append(msg_id)], creating the list first
    when the stream has none. *)
Definition queue_ack (stream_name msg_id : string) (acks : odict (list string))
  : odict (list string) :=
  match odict_get stream_name acks with
  | Some ids => odict_set stream_name (ids ++ [msg_id]) acks
  | None => odict_set stream_name [msg_id] acks
  end.

(** [row[0]] *)
Definition row_time (r : row) : result value :=
  match r with
  | t :: _ => Ok t
  | [] => Raise IndexError
  end.

(** The body of the inner loop of step 6. *)
Definition process_message (stream_name : string) (e : entry)
  : prog state unit :=
  let '(msg_id, msg_data) := e in
  formatted <- lift (format_row_from_redis msg_data) ;;
  let r := snd formatted in
  t <- lift (row_time r) ;;
  (if is_none t then ret tt
   else modify (fun st => set_data_buffer (data_buffer st ++ [r]) st)) ;;;
  modify (fun st => set_acks_to_send (queue_ack stream_name msg_id (acks_to_send st)) st).

Fixpoint process_messages (stream_name : string) (messages : list entry)
  : prog state unit :=
  match messages with
  | [] => ret tt
  | e :: rest =>
      process_message stream_name e ;;; process_messages stream_name rest
  end.

Fixpoint process_response (resp : response) : prog state unit :=
  match resp with
  | [] => ret tt
  | (stream_name, messages) :: rest =>
      process_messages stream_name messages ;;; process_response rest
  end.

(** What the outside world does during one turn of the main loop. *)
Record cycle_env : Type := CycleEnv {
  ce_discovery_due : bool;           (* time.time() - last_discovery_time > 30 *)
  ce_discover : discover_env;
  ce_read : result response;         (* r.xreadgroup(...) *)
  ce_flush : flush_env;
  ce_xack : string -> result unit    (* r.xack(stream, ...) *)
}.

(** [for stream, ids in acks_to_send.items(): r.xack(stream, GROUP_NAME, *ids)] *)
Fixpoint send_acks (env : cycle_env) (acks : odict (list string))
  : prog state unit :=
  match acks with
  | [] => ret tt
  | (stream, ids) :: rest =>
      emit (EvXAck stream GROUP_NAME ids) ;;;
      lift (ce_xack env stream) ;;;
      send_acks env rest
  end.

(** Step 4: every 30 s the streams are discovered anew. *)
Definition rediscover (env : cycle_env) : prog state unit :=
  if ce_discovery_due env then
    d <- discover_and_setup_groups (ce_discover env) ;;
    modify (set_streams_to_listen d)
  else ret tt.

(** The [if not response] block: flush what is left in the buffer. *)
Definition on_timeout (env : cycle_env) : prog state unit :=
  emit (EvLog LogTimeoutFlush) ;;;
  flush_buffer_to_db (ce_flush env) ;;;
  ret tt.

(** Steps 6 and 7: map and buffer the entries read, queue their ids,
    and, once the buffer holds a batch, flush and acknowledge. *)
Definition on_entries (env : cycle_env) (resp : response) : prog state unit :=
  modify (set_acks_to_send []) ;;;
  process_response resp ;;;
  st1 <- get ;;
  if (BATCH_SIZE <=? length (data_buffer st1))%nat then
    ok <- flush_buffer_to_db (ce_flush env) ;;
    if ok : bool then
      st2 <- get ;;
      send_acks env (acks_to_send st2)
    else emit (EvLog LogAckWithheld)
  else ret tt.

(** The [try] block of the main loop. *)
Definition cycle_body (env : cycle_env) : prog state unit :=
  rediscover env ;;;
  st <- get ;;
  match streams_to_listen st with
  | [] => emit (EvLog LogIdle) ;;; emit (EvSleep 10)
  | _ :: _ =>
      emit (EvXReadGroup GROUP_NAME CONSUMER_NAME (streams_to_listen st)
              BATCH_SIZE BLOCK_TIMEOUT_MS) ;;;
      resp <- lift (ce_read env) ;;
      match resp with
      | [] => on_timeout env
      | _ :: _ => on_entries env resp
      end
  end.

(** One turn of [while running]: the body with its two handlers. *)
Definition cycle (env : cycle_env) : prog state unit :=
  try_except (cycle_body env) any_exception
    (fun e =>
       if is_redis_error e
       then emit (EvLog (LogRedisError e)) ;;; emit (EvSleep 5)
       else emit (EvLog (LogUnexpectedError e)) ;;; emit (EvSleep 1)).

Fixpoint cycles (envs : list cycle_env) : prog state unit :=
  match envs with
  | [] => ret tt
  | env :: rest => cycle env ;;; cycles rest
  end.

(** [setup_database] works on a connection of its own and handles every
    exception itself; the pipeline only sees that it was called. *)
Definition setup_database {S : Type} : prog S unit :=
  emit EvSetupDatabase.

(** A whole run: the start-up, one [cycle_env] per turn of the loop until
    the shutdown flag is seen, and the final flush. *)
Record run_env : Type := RunEnv {
  rn_connect : nat -> result unit;
  rn_discover : discover_env;
  rn_cycles : list cycle_env;
  rn_final_flush : flush_env
}.

Definition run_persistor (env : run_env) : prog state unit :=
  emit (EvLog LogStarting) ;;;
  setup_database ;;;
  c <- get_db_connection (rn_connect env) ;;
  modify (set_db_conn (Some (set_autocommit false c))) ;;;
  d <- discover_and_setup_groups (rn_discover env) ;;
  modify (set_streams_to_listen d) ;;;
  cycles (rn_cycles env) ;;;
  emit (EvLog LogShuttingDown) ;;;
  flush_buffer_to_db (rn_final_flush env) ;;;
  st <- get ;;
  match db_conn st with
  | Some _ => emit EvDbClose
  | None => ret tt
  end ;;;
  emit (EvLog LogStopped).

End Persistor.

(* ===================================================================== *)
(** * status_manager.py                                                   *)
(* ===================================================================== *)

Module StatusManager.
Import Py Eff.

Definition STREAM_KEY_PATTERN : string := "pmu_data_stream:*".
Definition PERSISTOR_GROUP_NAME : string := "persistor_group".

(** Values of the fields of an [XINFO GROUPS] reply. *)
Inductive rvalue : Type :=
| RInt (n : Z)
| RStr (s : string)
| RNil.

Definition rvalue_eqb (a b : rvalue) : bool :=
  match a, b with
  | RInt x, RInt y => (x =? y)%Z
  | RStr x, RStr y => String.eqb x y
  | RNil, RNil => true
  | _, _ => false
  end.

(** One consumer group as [xinfo_groups] describes it: a [dict]. *)
Abbreviation group_info := (gmap string rvalue).

(** What the Redis server answers to the monitor's queries. *)
Record redis_view : Type := RedisView {
  rv_keys : result (list string);                      (* r.keys(pattern) *)
  rv_xinfo_groups : string -> result (list group_info) (* r.xinfo_groups(stream) *)
}.

(** The per-stream entry of the status report. *)
Inductive stream_status : Type :=
| Monitored (lag pending_messages consumers : rvalue)  (* "MONITORADO" *)
| Awaiting                                             (* "AGUARDANDO" *)
| NoGroup                                              (* "SEM GRUPO" *)
| StreamError (details : string).                      (* "ERRO" *)

(** The report of [get_persistor_status]. *)
Inductive persistor_status : Type :=
| ReportEmpty                                  (* {} *)
| ReportNoStreams                              (* "Nenhum stream para monitorar." *)
| ReportStreams (status : gmap string stream_status)
| ReportError (details : string).

(** [group[key]] *)
Definition getitem (group : group_info) (key : string) : result rvalue :=
  match group !! key with
  | Some v => Ok v
  | None => Raise (KeyError key)
  end.

(** The [for group in groups_info] loop with its [found] flag. *)
Fixpoint scan_groups (groups_info : list group_info) : result stream_status :=
  match groups_info with
  | [] => Ok Awaiting
  | group :: rest =>
      rbind (getitem group "name") (fun name =>
      if rvalue_eqb name (RStr PERSISTOR_GROUP_NAME) then
        rbind (getitem group "lag") (fun lag =>
        rbind (getitem group "pending") (fun pending =>
        rbind (getitem group "consumers") (fun consumers =>
        Ok (Monitored lag pending consumers))))
      else scan_groups rest)
  end.

(** The body of [for stream in stream_names], with its two handlers. *)
Definition stream_report {S : Type} (view : redis_view) (stream : string)
  : prog S stream_status :=
  try_except
    (emit (EvXInfoGroups stream) ;;;
     groups_info <- lift (rv_xinfo_groups view stream) ;;
     lift (scan_groups groups_info))
    any_exception
    (fun e =>
       match e with
       | ResponseError _ => ret NoGroup
       | _ => ret (StreamError (str_of_exc e))
       end).

Fixpoint stream_reports {S : Type} (view : redis_view)
    (stream_names : list string) (status : gmap string stream_status)
  : prog S (gmap string stream_status) :=
  match stream_names with
  | [] => ret status
  | stream :: rest =>
      st <- stream_report view stream ;;
      stream_reports view rest (<[stream := st]> status)
  end.

(** [StatusManager.get_persistor_status]; [r] is [self.r], [None] when
    the constructor could not reach Redis. *)
Definition get_persistor_status {S : Type} (r : option redis_view)
  : prog S persistor_status :=
  match r with
  | None => ret ReportEmpty
  | Some view =>
      try_except
        (emit (EvKeys STREAM_KEY_PATTERN) ;;;
         stream_names <- lift (rv_keys view) ;;
         match stream_names with
         | [] => ret ReportNoStreams
         | _ :: _ =>
             status <- stream_reports view stream_names ∅ ;;
             ret (ReportStreams status)
         end)
        any_exception
        (fun e =>
           emit (EvLog (LogStatusError e)) ;;;
           ret (ReportError (str_of_exc e)))
  end.

(** Redis commands that change a stream, a consumer group or its pending
    list; [KEYS] and [XINFO GROUPS] only read. *)
Definition writes_redis (ev : event) : bool :=
  match ev with
  | EvXGroupCreate _ _ | EvXReadGroup _ _ _ _ _ | EvXAck _ _ _ => true
  | _ => false
  end.

(** Events that touch the database. *)
Definition touches_database (ev : event) : bool :=
  match ev with
  | EvSetupDatabase | EvDbConnect | EvDbExecute _ _
  | EvDbExecuteValues _ _ _ | EvDbCommit | EvDbRollback | EvDbClose => true
  | _ => false
  end.

End StatusManager.

(* ===================================================================== *)
(** * Notions used in the statements                                      *)
(* ===================================================================== *)

Module Schema.
Import Py Eff Database Persistor.

(** The wide layout of [phasor_data]: five leading columns, [phasors]
    magnitude/angle pairs, [analogs] analog and [digitals] digital
    channels, all numbered from 0. *)
Definition phasor_pair (i : nat) : list string :=
  ["phasor_" +:+ pretty i +:+ "_mag"; "phasor_" +:+ pretty i +:+ "_ang_deg"].

Definition channel (kind : string) (i : nat) : string :=
  kind +:+ "_" +:+ pretty i.

Definition wide_layout (phasors analogs digitals : nat) : list string :=
  ["time"; "pmu_id"; "stat_word"; "freq"; "rocof"]
  ++ flat_map phasor_pair (seq 0 phasors)
  ++ map (channel "analog") (seq 0 analogs)
  ++ map (channel "digital") (seq 0 digitals).

(** Events of [get_db_connection]. *)
Definition connect_event (ev : event) : bool :=
  match ev with
  | EvDbConnect | EvSleep _
  | EvLog (LogConnectRetry _) | EvLog LogConnectGiveUp => true
  | _ => false
  end.

(** Events of [register_pmu]. *)
Definition registration_event (ev : event) : bool :=
  match ev with
  | EvDbClose | EvLog (LogRegisterError _ _) => true
  | _ => connect_event ev
  end.

(** Events of [discover_and_setup_groups]. *)
Definition discovery_event (ev : event) : bool :=
  match ev with
  | EvKeys _ | EvXGroupCreate _ _
  | EvLog LogDiscovering | EvLog LogNoStreamsFound
  | EvLog (LogGroupCreated _) | EvLog (LogGroupExists _)
  | EvLog (LogInvalidStreamName _) | EvLog (LogListening _)
  | EvLog (LogDiscoverError _) => true
  | _ => registration_event ev
  end.

(** Creating the group on [stream] succeeds or answers that the group
    name already exists. *)
Definition create_group_ok (env : discover_env) (stream : string) : bool :=
  match de_xgroup_create env stream with
  | Ok _ => true
  | Raise e =>
      is_response_error e && contains "name already exists" (str_of_exc e)
  end.

(** The dictionary that listens to [names], each from ['>']. *)
Definition listening_to (names : list string) : odict string :=
  fold_left (fun d n => odict_set n ">" d) names [].

Definition is_xack (ev : event) : bool :=
  match ev with EvXAck _ _ _ => true | _ => false end.

Definition is_registry_insert (ev : event) : bool :=
  match ev with EvDbExecute _ _ => true | _ => false end.

(** Events of a flush: those of a reconnect, the bulk insert, the commit,
    the rollback and the flush's own log lines. *)
Definition flush_event (ev : event) : bool :=
  match ev with
  | EvDbExecuteValues _ _ _ | EvDbCommit | EvDbRollback
  | EvLog LogReconnecting | EvLog (LogFlushOk _) | EvLog (LogFlushError _) => true
  | _ => connect_event ev
  end.

(** Events that show a flush at work or failing. *)
Definition is_flush_failure (ev : event) : bool :=
  match ev with
  | EvDbRollback | EvLog (LogFlushError _) => true
  | _ => false
  end.

(** A successful flush of [rows], as the database sees it: possibly a
    reconnect, then the bulk insert of exactly [rows], the commit and the
    success line. *)
Definition flush_committed (rows : list row) (tr : list event) : Prop :=
  exists pre,
    tr = pre ++ [EvDbExecuteValues SQL_INSERT_QUERY rows BATCH_SIZE;
                 EvDbCommit;
                 EvLog (LogFlushOk (length rows))]
    /\ Forall (fun ev => connect_event ev = true \/ ev = EvLog LogReconnecting) pre.

(** The flush gets as far as the insert: the connection is alive, or the
    reconnect succeeds. *)
Definition reaches_insert (env : flush_env) (st : state) : Prop :=
  exists st1 tr, ensure_connection env st = (st1, tr, Ok tt).

(** The [except] clause of [flush_buffer_to_db], entered in state [st1]
    after the events [tr] with exception [e]. *)
Definition flush_handler (env : flush_env) (st1 : state) (tr : list event)
    (e : exc) : state * list event * result bool :=
  match db_conn st1 with
  | Some _ =>
      match fe_rollback env with
      | Ok _ => (st1, tr ++ [EvLog (LogFlushError e); EvDbRollback], Ok false)
      | Raise e' =>
          (mark_closed (fe_breaks env) st1,
           tr ++ [EvLog (LogFlushError e); EvDbRollback], Raise e')
      end
  | None => (st1, tr ++ [EvLog (LogFlushError e)], Ok false)
  end.

(** A failure during the insert (cursor, [execute_values]) or the commit. *)
Definition insert_or_commit_fails (env : flush_env) : Prop :=
  fe_cursor env <> Ok tt
  \/ fe_execute_values env <> Ok tt
  \/ fe_commit env <> Ok tt.

(** Insert and commit both go through. *)
Definition insert_and_commit_succeed (env : flush_env) : Prop :=
  fe_cursor env = Ok tt
  /\ fe_execute_values env = Ok tt
  /\ fe_commit env = Ok tt.

(** Every id of [acks] was already queued in [base] or was read, on the
    same stream, in [resp]. *)
Definition acks_from (resp : response) (base acks : odict (list string)) : Prop :=
  forall s ids, In (s, ids) acks -> forall i, In i ids ->
    (exists ids0, In (s, ids0) base /\ In i ids0)
    \/ (exists msgs fields, In (s, msgs) resp /\ In (i, fields) msgs).

(** An event that is neither an acknowledgment nor the sign of a failed
    flush. *)
Definition quiet (ev : event) : Prop :=
  is_xack ev = false /\ is_flush_failure ev = false.

(** An [xack] for ids that were all read from that stream in [resp]. *)
Definition acks_entries_of (resp : response) (ev : event) : Prop :=
  exists s ids,
    ev = EvXAck s GROUP_NAME ids
    /\ forall i, In i ids ->
         exists msgs fields, In (s, msgs) resp /\ In (i, fields) msgs.

(** The row an entry adds to the write buffer: its mapped row, or none
    when the row's time is None. *)
Definition valid_row (e : entry) : list row :=
  match format_row_from_redis (snd e) with
  | Ok (_, t :: r) => if is_none t then [] else [t :: r]
  | _ => []
  end.

(** The rows a whole answer of [xreadgroup] adds, in delivery order. *)
Definition valid_rows (resp : response) : list row :=
  flat_map (fun delivered => flat_map valid_row (snd delivered)) resp.

(** The two shapes of the trace of one cycle that starts with [buffer]
    waiting: no acknowledgment at all, or a committed flush of a full batch
    (the buffer and the rows of the entries just read) followed by the
    acknowledgments of entries read in this cycle. *)
Definition acknowledges_after_commit (env : cycle_env) (buffer : list row)
    (tr : list event) : Prop :=
  Forall (fun ev => is_xack ev = false) tr
  \/ exists before rows flushed acks after resp,
       tr = before ++ flushed ++ acks ++ after
       /\ Forall quiet before
       /\ flush_committed rows flushed
       /\ BATCH_SIZE <= length rows
       /\ insert_and_commit_succeed (ce_flush env)
       /\ ce_read env = Ok resp
       /\ Forall (acks_entries_of resp) acks
       /\ Forall quiet after
       /\ rows = buffer ++ valid_rows resp.

(** Two sources, the second of which holds a key of the wrong type: group
    creation on it fails with an error that is not "already exists". *)
Definition two_sources_second_fails : discover_env :=
  {| de_keys := Ok ["pmu_data_stream:1"; "pmu_data_stream:2"];
     de_xgroup_create := fun stream =>
       if String.eqb stream "pmu_data_stream:2"
       then Raise (ResponseError
                     "WRONGTYPE Operation against a key holding the wrong kind of value")
       else Ok tt;
     de_register := fun _ =>
       {| re_connect := fun _ => Ok tt; re_cursor := Ok tt;
          re_now := "2024-01-01 00:00:00"; re_execute := Ok 1%Z |} |}.

(** Two sources, the first of which already has its group. *)
Definition two_sources_first_known : discover_env :=
  {| de_keys := Ok ["pmu_data_stream:1"; "pmu_data_stream:2"];
     de_xgroup_create := fun stream =>
       if String.eqb stream "pmu_data_stream:1"
       then Raise (ResponseError "BUSYGROUP Consumer Group name already exists")
       else Ok tt;
     de_register := fun _ =>
       {| re_connect := fun _ => Ok tt; re_cursor := Ok tt;
          re_now := "2024-01-01 00:00:00"; re_execute := Ok 1%Z |} |}.

(** The monitor's handler for a failed stream query. *)
Definition status_of_error (e : exc) : StatusManager.stream_status :=
  match e with
  | ResponseError _ => StatusManager.NoGroup
  | _ => StatusManager.StreamError (str_of_exc e)
  end.

(** The status entry the monitor builds for [stream] from what Redis
    answers. *)
Definition status_of (view : StatusManager.redis_view) (stream : string)
  : StatusManager.stream_status :=
  match StatusManager.rv_xinfo_groups view stream with
  | Ok groups_info =>
      match StatusManager.scan_groups groups_info with
      | Ok st => st
      | Raise e => status_of_error e
      end
  | Raise e => status_of_error e
  end.

(** A consumer group with a name other than the persistor's. *)
Definition other_group (g : gmap string StatusManager.rvalue) : Prop :=
  exists v, g !! "name" = Some v
            /\ v <> StatusManager.RStr StatusManager.PERSISTOR_GROUP_NAME.

(** A read-only query: it writes neither to Redis nor to the database. *)
Definition read_only (ev : event) : Prop :=
  StatusManager.writes_redis ev = false
  /\ StatusManager.touches_database ev = false.

(** Redis with two streams: on the first the persistor group has lag 7,
    7 pending entries and one consumer, next to a group of another name; on
    the second only that other group exists. *)
Definition other_group_info : gmap string StatusManager.rvalue :=
  list_to_map [("name", StatusManager.RStr "audit_group");
               ("consumers", StatusManager.RInt 2);
               ("pending", StatusManager.RInt 0);
               ("lag", StatusManager.RInt 0)].

Definition persistor_group_info : gmap string StatusManager.rvalue :=
  list_to_map [("name", StatusManager.RStr "persistor_group");
               ("consumers", StatusManager.RInt 1);
               ("pending", StatusManager.RInt 7);
               ("lag", StatusManager.RInt 7)].

Definition two_streams_view : StatusManager.redis_view :=
  {| StatusManager.rv_keys := Ok ["pmu_data_stream:1"; "pmu_data_stream:2"];
     StatusManager.rv_xinfo_groups := fun stream =>
       if String.eqb stream "pmu_data_stream:1"
       then Ok [other_group_info; persistor_group_info]
       else Ok [other_group_info] |}.

(** A database that does all it is asked, and one whose bulk insert
    fails. *)
Definition db_ok : flush_env :=
  {| fe_connect := fun _ => Ok tt; fe_cursor := Ok tt;
     fe_execute_values := Ok tt; fe_commit := Ok tt; fe_rollback := Ok tt;
     fe_breaks := false |}.

Definition db_insert_fails : flush_env :=
  {| fe_connect := fun _ => Ok tt; fe_cursor := Ok tt;
     fe_execute_values := Raise OperationalError; fe_commit := Ok tt;
     fe_rollback := Ok tt; fe_breaks := false |}.


Definition stream7 : string := "pmu_data_stream:7".

(** The one source [stream7], whose group exists already. *)
Definition one_source : discover_env :=
  {| de_keys := Ok [stream7];
     de_xgroup_create := fun _ =>
       Raise (ResponseError "BUSYGROUP Consumer Group name already exists");
     de_register := fun _ =>
       {| re_connect := fun _ => Ok tt; re_cursor := Ok tt;
          re_now := "2024-01-01 00:00:00"; re_execute := Ok 1%Z |} |}.

(** The pipeline listening to [stream7] with [buffer] waiting to be
    written. *)
Definition listening (buffer : list row) : state :=
  {| data_buffer := buffer; acks_to_send := [];
     db_conn := Some fresh_connection;
     streams_to_listen := [(stream7, ">")] |}.

(** A turn of the loop in which no discovery is due, the read answers
    [resp] and the database behaves as [db]. *)
Definition turn (resp : response) (db : flush_env) : cycle_env :=
  {| ce_discovery_due := false; ce_discover := one_source;
     ce_read := Ok resp; ce_flush := db; ce_xack := fun _ => Ok tt |}.


(** The same entry with the id under the column's own name. *)
Definition round_trip_entry : gmap string value :=
  list_to_map
    [("ts", VFloat (FFinite false 17000000005 (-1)));
     ("pmu_id", VStr "7");
     ("freq", VFloat (FFinite false 6001 (-2)));
     ("phasor_0_mag", VFloat (FFinite false 102 (-2)));
     ("phasor_0_ang_deg", VFloat (FFinite false 125 (-1)))].

Definition round_trip_row : row :=
  [VDatetime (Datetime (FFinite false 17000000005 (-1)));
   VStr "7"; VNone;
   VFloat (FFinite false 6001 (-2)); VNone;
   VFloat (FFinite false 102 (-2)); VFloat (FFinite false 125 (-1))]
  ++ repeat VNone 32.


(** The row alone of [format_row_from_redis]. *)
Definition mapped_row (msg_data : gmap string value) : result row :=
  rbind (format_row_from_redis msg_data) (fun formatted => Ok (snd formatted)).

(** An entry with no [ts] field, and one whose [ts] is not a number. *)
Definition entry_without_ts : gmap string value :=
  list_to_map [("pmu_id", VStr "7"); ("freq", VStr "60.01")].

Definition entry_with_bad_ts : gmap string value :=
  list_to_map [("ts", VStr "not-a-number"); ("pmu_id", VStr "7")].

(** A run of two turns on [stream7]: one entry is read, then the read
    times out; the database works throughout; then the shutdown. *)
Definition read_then_timeout : run_env :=
  {| rn_connect := fun _ => Ok tt;
     rn_discover := one_source;
     rn_cycles := [turn [(stream7, [("1700000000500-0", round_trip_entry)])] db_ok;
                   turn [] db_ok];
     rn_final_flush := db_ok |}.

End Schema.

(* ===================================================================== *)
(** * status_manager.py: the constructor, presence and system health     *)
(* ===================================================================== *)

Module Monitor.
Import Py Eff StatusManager.

(** What the monitor does besides the events of [get_persistor_status]. *)
Inductive mon_event : Type :=
| MPing                                           (* self.r.ping() *)
| MPersistor (ev : event)                         (* inside get_persistor_status *)
| MKeys (pattern : string)                        (* self.r.keys(pattern) *)
| MXRevRange (stream : string) (count : nat)      (* self.r.xrevrange(stream, count=1) *)
| MLogConnected
| MLogConnectFailed (e : exc)
| MLogStreamWarning (stream : string) (e : exc)
| MLogListError (e : exc).

(** [s.split(sep)[0]]: the text before the first separator. *)
Fixpoint first_segment (sep : ascii) (l : list ascii) : list ascii :=
  match l with
  | [] => []
  | c :: l' => if Ascii.eqb c sep then [] else c :: first_segment sep l'
  end.

Definition split_first (sep : ascii) (s : string) : string :=
  string_of_list_ascii (first_segment sep (list_ascii_of_string s)).

(** What Redis and the clock answer during [get_all_ingestors_status].
    Instants are in microseconds since the epoch. *)
Record presence_view : Type := PresenceView {
  pv_keys : result (list string);                 (* r.keys(pattern) *)
  pv_xrevrange : string -> result (list (string * gmap string value));
                                                  (* r.xrevrange(stream, count=1) *)
  pv_time_error : Z -> option exc;                (* datetime.fromtimestamp(ms / 1000.0) raising *)
  pv_now : string -> Z                            (* datetime.now() while looking at a stream *)
}.

(** The per-ingestor entry of the presence report; [last_seen] stands
    for its ISO text. *)
Inductive presence : Type :=
| EmptyStream                          (* "Stream Vazio", last_seen None *)
| Online (last_seen : Z)               (* "ONLINE" *)
| Offline (last_seen : Z)              (* "OFFLINE" *)
| PresenceError (details : string).    (* "ERRO" *)

(** The report of [get_all_ingestors_status]. *)
Inductive ingestors_report : Type :=
| IngestorsEmpty                                  (* {} *)
| IngestorsNone                                   (* "Nenhum ingestor encontrado." *)
| IngestorsStreams (status : gmap string presence)
| IngestorsError (details : string).

(** The liveness threshold: 60 s. *)
Definition LIVENESS_US : Z := 60000000.

(** The body of [for stream in stream_names] in
    [get_all_ingestors_status]: the events, the key written and the entry.
    On success the key is the PMU id, the text after the last colon; in
    the handler it is the stream name. *)
Definition presence_entry (view : presence_view) (stream : string)
  : list mon_event * (string * presence) :=
  let pmu_id := split_last ":" stream in
  let failed (e : exc) :=
    ([MXRevRange stream 1; MLogStreamWarning stream e],
     (stream, PresenceError (str_of_exc e))) in
  match pv_xrevrange view stream with
  | Raise e => failed e
  | Ok [] => ([MXRevRange stream 1], (pmu_id, EmptyStream))
  | Ok ((msg_id, _) :: _) =>
      match int_of_string (split_first "-" msg_id) with
      | Raise e => failed e
      | Ok last_timestamp_ms =>
          match pv_time_error view last_timestamp_ms with
          | Some e => failed e
          | None =>
              let last_seen := (last_timestamp_ms * 1000)%Z in
              let age := (pv_now view stream - last_seen)%Z in
              ([MXRevRange stream 1],
               (pmu_id,
                if (age <? LIVENESS_US)%Z then Online last_seen
                else Offline last_seen))
          end
      end
  end.

Fixpoint presence_entries (view : presence_view) (stream_names : list string)
    (status : gmap string presence) : list mon_event * gmap string presence :=
  match stream_names with
  | [] => ([], status)
  | stream :: rest =>
      let '(tr1, (key, entry)) := presence_entry view stream in
      let '(tr2, status') := presence_entries view rest (<[key := entry]> status) in
      (tr1 ++ tr2, status')
  end.

(** [StatusManager.get_all_ingestors_status]; [r] is [self.r]. *)
Definition get_all_ingestors_status (r : option presence_view)
  : list mon_event * ingestors_report :=
  match r with
  | None => ([], IngestorsEmpty)
  | Some view =>
      match pv_keys view with
      | Raise e =>
          ([MKeys STREAM_KEY_PATTERN; MLogListError e],
           IngestorsError (str_of_exc e))
      | Ok [] => ([MKeys STREAM_KEY_PATTERN], IngestorsNone)
      | Ok stream_names =>
          let '(tr, status) := presence_entries view stream_names ∅ in
          (MKeys STREAM_KEY_PATTERN :: tr, IngestorsStreams status)
      end
  end.

(** What Redis answers to the two reports of one manager. *)
Record redis_answers : Type := RedisAnswers {
  ra_groups : redis_view;
  ra_presence : presence_view
}.

(** The object a [StatusManager] is: its [self.r]. *)
Record status_manager : Type := Manager {
  sm_r : option redis_answers
}.

(** [StatusManager.__init__]: [ping] is what [self.r.ping()] does. *)
Definition init (ping : result unit) (answers : redis_answers)
  : list mon_event * result status_manager :=
  match ping with
  | Ok _ => ([MPing; MLogConnected], Ok {| sm_r := Some answers |})
  | Raise e => ([MPing; MLogConnectFailed e], Ok {| sm_r := None |})
  end.

(** The report of [get_system_health]. *)
Inductive health : Type :=
| HealthDown                                      (* redis DOWN, persistor UNKNOWN *)
| HealthUp (persistor : persistor_status) (ingestors : ingestors_report).

(** [StatusManager.get_system_health] *)
Definition get_system_health (self : status_manager)
  : list mon_event * result health :=
  match sm_r self with
  | None => ([], Ok HealthDown)
  | Some answers =>
      match get_persistor_status (Some (ra_groups answers)) tt with
      | (_, tr1, Raise e) => (map MPersistor tr1, Raise e)
      | (_, tr1, Ok persistor_status) =>
          let '(tr2, ingestor_status) :=
            get_all_ingestors_status (Some (ra_presence answers)) in
          (map MPersistor tr1 ++ tr2,
           Ok (HealthUp persistor_status ingestor_status))
      end
  end.

(** A monitor event that changes nothing in Redis or the database. *)
Definition mon_read_only (ev : mon_event) : bool :=
  match ev with
  | MPersistor ev => negb (writes_redis ev) && negb (touches_database ev)
  | _ => true
  end.

End Monitor.

(* ===================================================================== *)
(** * main.py: the HTTP status surface                                    *)
(* ===================================================================== *)

Module Api.
Import Py Eff StatusManager Monitor.

(** Events of the API: those of the monitor and its own log lines. *)
Inductive api_event : Type :=
| AMonitor (ev : mon_event)
| ALogCritical (e : exc).

(** The answer of an endpoint. *)
Inductive http (A : Type) : Type :=
| Http200 (body : A)
| Http503 (detail : string)       (* HTTPException(status_code=503, ...) *)
| Http500 (e : exc).              (* an exception left to the framework *)
Arguments Http200 {A} body.
Arguments Http503 {A} detail.
Arguments Http500 {A} e.

(** The module-level [try: status_manager = StatusManager()
    except Exception: status_manager = None]. *)
Definition create_status_manager (ping : result unit) (answers : redis_answers)
  : list api_event * option status_manager :=
  match init ping answers with
  | (tr, Ok m) => (map AMonitor tr, Some m)
  | (tr, Raise e) => (map AMonitor tr ++ [ALogCritical e], None)
  end.

Definition NOT_CONNECTED : string :=
  "StatusManager não está conectado ao Redis.".

(** [GET /status/health] *)
Definition get_system_health (status_manager : option status_manager)
  : list api_event * http health :=
  match status_manager with
  | None => ([], Http503 NOT_CONNECTED)
  | Some m =>
      match Monitor.get_system_health m with
      | (tr, Ok report) => (map AMonitor tr, Http200 report)
      | (tr, Raise e) => (map AMonitor tr, Http500 e)
      end
  end.

(** [GET /status/ingestors] *)
Definition get_ingestor_status (status_manager : option status_manager)
  : list api_event * http ingestors_report :=
  match status_manager with
  | None => ([], Http503 NOT_CONNECTED)
  | Some m =>
      let '(tr, report) :=
        get_all_ingestors_status (option_map ra_presence (sm_r m)) in
      (map AMonitor tr, Http200 report)
  end.

(** [GET /status/persistor] *)
Definition get_persistor_status (status_manager : option status_manager)
  : list api_event * http persistor_status :=
  match status_manager with
  | None => ([], Http503 NOT_CONNECTED)
  | Some m =>
      match StatusManager.get_persistor_status
              (option_map ra_groups (sm_r m)) tt with
      | (_, tr, Ok report) => (map (fun ev => AMonitor (MPersistor ev)) tr, Http200 report)
      | (_, tr, Raise e) => (map (fun ev => AMonitor (MPersistor ev)) tr, Http500 e)
      end
  end.

End Api.

(* ===================================================================== *)
(** * Further notions used in the statements                              *)
(* ===================================================================== *)

Module Coverage.
Import Py Eff Database Persistor Schema.

(** The events of [k] failed connection attempts: the attempt, the
    warning and the 5 s pause, [k] times. *)
Fixpoint retry_events (k : nat) : list event :=
  match k with
  | O => []
  | Datatypes.S k' =>
      [EvDbConnect; EvLog (LogConnectRetry OperationalError); EvSleep 5]
      ++ retry_events k'
  end.

(** Seconds slept in a trace. *)
Fixpoint seconds_slept (tr : list event) : nat :=
  match tr with
  | [] => 0
  | EvSleep n :: tr' => n + seconds_slept tr'
  | _ :: tr' => seconds_slept tr'
  end.

(** Calls of [psycopg2.connect] in a trace. *)
Definition connect_attempts (tr : list event) : nat :=
  length (List.filter (fun ev => match ev with EvDbConnect => true | _ => false end) tr).

(** The ids delivered on [stream] in an answer, in delivery order. *)
Definition ids_read (stream : string) (resp : response) : list string :=
  flat_map (fun delivered =>
              if String.eqb stream (fst delivered)
              then map fst (snd delivered) else [])
           resp.

(** The ack list of a stream after [new] more ids were queued. *)
Definition queued (old : option (list string)) (new : list string)
  : option (list string) :=
  match new with
  | [] => old
  | _ :: _ => Some (match old with Some ids => ids | None => [] end ++ new)
  end.

(** The mapper returns on the entry: it has a [ts], and converting it
    returns or fails with one of the two handled errors. *)
Definition maps_entry (e : entry) : bool :=
  match time_of_entry (snd e) with
  | Ok _ => true
  | Raise _ => false
  end.

(** The mapper returns on every entry of the answer. *)
Definition maps_cleanly (resp : response) : bool :=
  forallb (fun delivered => forallb maps_entry (snd delivered)) resp.

(** Somewhere in the trace [rows] went out in one committed bulk
    insert. *)
Definition committed_in (rows : list row) (tr : list event) : Prop :=
  exists before flushed after,
    tr = before ++ flushed ++ after /\ flush_committed rows flushed.

(** The [xack] call for one item of the ack map. *)
Definition ack_event (item : string * list string) : event :=
  EvXAck (fst item) GROUP_NAME (snd item).

(** A bulk insert or a commit. *)
Definition is_db_write (ev : event) : bool :=
  match ev with
  | EvDbExecuteValues _ _ _ | EvDbCommit => true
  | _ => false
  end.

(** A call to Redis. *)
Definition is_redis_call (ev : event) : bool :=
  match ev with
  | EvKeys _ | EvXGroupCreate _ _ | EvXReadGroup _ _ _ _ _
  | EvXAck _ _ _ | EvXInfoGroups _ => true
  | _ => false
  end.

(** The fields of an entry the mapper reads: [ts] and every column but
    [time]. *)
Definition mapper_fields : list string :=
  "ts" :: tl TABLE_COLUMNS.

(** A database whose connection attempts all fail. *)
Definition db_unreachable : flush_env :=
  {| fe_connect := fun _ => Raise OperationalError; fe_cursor := Ok tt;
     fe_execute_values := Ok tt; fe_commit := Ok tt; fe_rollback := Ok tt;
     fe_breaks := false |}.

(** The pipeline before any connection, with [buffer] waiting. *)
Definition unconnected (buffer : list row) : state :=
  {| data_buffer := buffer; acks_to_send := [];
     db_conn := None; streams_to_listen := [(stream7, ">")] |}.

(** A connection answering on the third attempt. *)
Definition third_time_lucky (attempt : nat) : result unit :=
  if (attempt <? 2)%nat then Raise OperationalError else Ok tt.

(** The run [read_then_timeout], but with a database that answers the
    third connection attempt at start-up. *)
Definition slow_start : run_env :=
  {| rn_connect := third_time_lucky;
     rn_discover := rn_discover read_then_timeout;
     rn_cycles := rn_cycles read_then_timeout;
     rn_final_flush := rn_final_flush read_then_timeout |}.

(** A database that answers the third connection attempt and then fails
    the bulk insert on a link that breaks. *)
Definition db_reconnects_then_breaks : flush_env :=
  {| fe_connect := third_time_lucky; fe_cursor := Ok tt;
     fe_execute_values := Raise OperationalError; fe_commit := Ok tt;
     fe_rollback := Raise InterfaceError; fe_breaks := true |}.

(** Two streams read in one answer, the second with an unparseable
    [ts]. *)
Definition two_stream_answer : response :=
  [("pmu_data_stream:7", [("1-0", round_trip_entry); ("2-0", round_trip_entry)]);
   ("pmu_data_stream:8", [("1-1", entry_with_bad_ts)])].

(** Presence: stream 7's last entry is 10 s old, stream 8 is empty,
    stream 9's last entry is exactly 60 s old. *)
Definition presence_sample : Monitor.presence_view :=
  {| Monitor.pv_keys := Ok ["pmu_data_stream:7"; "pmu_data_stream:8"; "pmu_data_stream:9"];
     Monitor.pv_xrevrange := fun stream =>
       if String.eqb stream "pmu_data_stream:7"
       then Ok [("1700000000000-0", round_trip_entry)]
       else if String.eqb stream "pmu_data_stream:9"
       then Ok [("1699999950000-3", round_trip_entry)]
       else Ok [];
     Monitor.pv_time_error := fun _ => None;
     Monitor.pv_now := fun _ => 1700000010000000%Z |}.

(** The key under which a stream's entry goes into the presence
    report. *)
Definition presence_key (view : Monitor.presence_view) (stream : string) : string :=
  fst (snd (Monitor.presence_entry view stream)).

(** The same Redis, but the last entry of stream 7 cannot be fetched. *)
Definition presence_sample_failing : Monitor.presence_view :=
  {| Monitor.pv_keys := Monitor.pv_keys presence_sample;
     Monitor.pv_xrevrange := fun stream =>
       if String.eqb stream "pmu_data_stream:7"
       then Raise ConnectionError
       else Monitor.pv_xrevrange presence_sample stream;
     Monitor.pv_time_error := Monitor.pv_time_error presence_sample;
     Monitor.pv_now := Monitor.pv_now presence_sample |}.

End Coverage.

(* ===================================================================== *)
(** * Properties                                                          *)
(* ===================================================================== *)

Import Py Eff Database Persistor Schema.

(** Unfolding of the program monad. *)
Ltac prog_unfold :=
  unfold bind, ret, emit, lift, get, modify, raise, try_except, finally,
    attempt, any_exception in *.

(** Case analysis on an event, down to the log line. *)
Ltac event_cases ev :=
  destruct ev as [[]| | | | | | | | | | | | |]; simpl in *.

(** ** database.py *)

Lemma connect_loop_spec {S : Type} (answers : nat -> result unit) (s : S) :
  forall retries n, exists tr r,
    connect_loop answers retries n s = (s, tr, r)
    /\ Forall (fun ev => connect_event ev = true) tr.
Proof.
  induction retries as [|retries IH]; intros n; simpl.
  - exists [], (Ok None). split; [reflexivity | constructor].
  - prog_unfold. destruct (answers n) as [[]|e].
    + eexists _, _. split; [reflexivity|]. repeat constructor.
    + destruct (IH (Datatypes.S n)) as (tr & r & Heq & Hall).
      destruct e; simpl;
        try (eexists _, _; split; [reflexivity | repeat constructor]).
      rewrite Heq. destruct r; simpl;
        (eexists _, _; split; [reflexivity | repeat constructor; assumption]).
Qed.

Lemma get_db_connection_spec {S : Type} (answers : nat -> result unit) (s : S) :
  exists tr r,
    get_db_connection answers s = (s, tr, r)
    /\ Forall (fun ev => connect_event ev = true) tr.
Proof.
  unfold get_db_connection.
  destruct (connect_loop_spec answers s 10 0) as (tr & r & Heq & Hall).
  unfold bind at 1. rewrite Heq. destruct r as [[c|]|e]; simpl.
  - eexists _, _. split; [reflexivity|]. rewrite app_nil_r. assumption.
  - eexists _, _. split; [reflexivity|].
    apply Forall_app. split; [assumption | repeat constructor].
  - eexists _, _. split; [reflexivity | assumption].
Qed.

Lemma get_db_connection_first_try {S : Type} (answers : nat -> result unit) (s : S) :
  answers 0 = Ok tt ->
  get_db_connection answers s = (s, [EvDbConnect], Ok fresh_connection).
Proof.
  intros H. unfold get_db_connection. simpl. prog_unfold. rewrite H. reflexivity.
Qed.

(** [datetime] is not bound in database.py. *)
Lemma datetime_unbound_in_database :
  lookup_name Database.module_globals "datetime" = Raise (NameError "datetime").
Proof. reflexivity. Qed.

Lemma connect_is_registration (tr : list event) :
  Forall (fun ev => connect_event ev = true) tr ->
  Forall (fun ev => registration_event ev = true) tr.
Proof.
  intros H. eapply List.Forall_impl; [|exact H].
  intros ev Hev. event_cases ev; congruence.
Qed.

(** [register_pmu] in full: it returns, the state is the caller's, and
    its events are connection attempts, one error line and the close. *)
Lemma register_pmu_spec {S : Type} (env : register_env) (pmu_id : Z) (s : S) :
  exists tr,
    register_pmu env pmu_id s = (s, tr, Ok tt)
    /\ Forall (fun ev => registration_event ev = true) tr
    /\ exists e, In (EvLog (LogRegisterError pmu_id e)) tr.
Proof.
  unfold register_pmu, register_pmu_in.
  destruct (get_db_connection_spec (re_connect env) s) as (tr & r & Heq & Hall).
  apply connect_is_registration in Hall.
  unfold bind at 1, attempt. rewrite Heq. destruct r as [c|e].
  - rewrite datetime_unbound_in_database. prog_unfold.
    destruct (re_cursor env) as [[]|e]; simpl;
      (eexists; split; [reflexivity|]; split;
       [apply Forall_app; split; [assumption | repeat constructor]
       |eexists; apply in_or_app; right; left; reflexivity]).
  - prog_unfold. simpl. eexists. split; [reflexivity|]. split.
    + apply Forall_app. split; [assumption | repeat constructor].
    + eexists. apply in_or_app. right. left. reflexivity.
Qed.

(** C10. For every [pmu_id] and whatever the database does, [register_pmu]
    returns normally and leaves the caller's state alone: an error raised
    inside it is caught and logged.  As [datetime] is not imported in
    database.py, every call ends in the exception branch (a
    registration-error line is logged), no [INSERT INTO pmu_devices] is ever
    executed and no new device is ever reported. *)
Theorem C10_register_pmu_never_raises :
  forall (S : Type) (env : register_env) (pmu_id : Z) (s : S),
  exists tr,
    register_pmu env pmu_id s = (s, tr, Ok tt)
    /\ (exists e, In (EvLog (LogRegisterError pmu_id e)) tr)
    /\ Forall (fun ev => is_registry_insert ev = false) tr
    /\ (forall id, ~ In (EvLog (LogPmuRegistered id)) tr)
    /\ lookup_name Database.module_globals "datetime"
       = Raise (NameError "datetime").
Proof.
  intros S env pmu_id s.
  destruct (register_pmu_spec env pmu_id s) as (tr & Heq & Hall & Herr).
  exists tr. split; [exact Heq|]. split; [exact Herr|]. split; [|split].
  - eapply List.Forall_impl; [|exact Hall].
    intros ev Hev. event_cases ev; congruence.
  - intros id Hin. rewrite List.Forall_forall in Hall.
    apply Hall in Hin. discriminate.
  - reflexivity.
Qed.

(** With [datetime] bound, as it is in main.py, the same body does run
    its insert: the failure comes from the missing import alone. *)
Lemma register_pmu_with_datetime_bound :
  exists tr,
    register_pmu_in ("datetime" :: Database.module_globals)
      {| re_connect := fun _ => Ok tt; re_cursor := Ok tt;
         re_now := "2024-01-01 00:00:00"; re_execute := Ok 1%Z |} 7 tt
    = (tt, tr, Ok tt)
    /\ In (EvLog (LogPmuRegistered 7)) tr
    /\ existsb is_registry_insert tr = true.
Proof. eexists. split; [vm_compute; reflexivity|]. split; [|reflexivity]. simpl. tauto. Qed.

(** ** The record mapper *)

Lemma lookup_map {A B : Type} (f : A -> B) (l : list A) (i : nat) :
  map f l !! i = option_map f (l !! i).
Proof.
  revert i. induction l as [|a l IH]; intros [|i]; simpl; try reflexivity.
  apply IH.
Qed.

Lemma format_row_inv (msg msg' : gmap string value) (r : row) :
  format_row_from_redis msg = Ok (msg', r) ->
  exists t, time_of_entry msg = Ok t
            /\ msg' = <["time" := t]> msg
            /\ r = map (dict_get msg') TABLE_COLUMNS.
Proof.
  unfold format_row_from_redis. destruct (time_of_entry msg) as [t|e]; simpl.
  - intros [= <- <-]. exists t. auto.
  - discriminate.
Qed.


Lemma time_of_entry_unparseable (msg : gmap string value) (v : value) :
  msg !! "ts" = Some v ->
  to_datetime v = Raise ValueError \/ to_datetime v = Raise TypeError ->
  time_of_entry msg = Ok VNone.
Proof.
  intros Hts Hbad. unfold time_of_entry. rewrite Hts. simpl.
  destruct Hbad as [-> | ->]; reflexivity.
Qed.

(** Once the time is settled, the row is the column-wise lookup. *)
Lemma format_row_columns (msg : gmap string value) (t : value) :
  time_of_entry msg = Ok t ->
  exists (msg' : gmap string value) (r : row),
    format_row_from_redis msg = Ok (msg', r)
    /\ length r = length TABLE_COLUMNS
    /\ r !! 0 = Some t
    /\ forall (i : nat) (col : string),
         TABLE_COLUMNS !! i = Some col -> col <> "time" ->
         r !! i = Some (match msg !! col with
                        | Some x => x
                        | None => VNone
                        end).
Proof.
  intros Ht. unfold format_row_from_redis. rewrite Ht. simpl.
  eexists _, _. split; [reflexivity|]. split; [reflexivity|]. split.
  - unfold dict_get. rewrite lookup_insert_eq. reflexivity.
  - intros i col Hcol Hne.
    change (map (dict_get (<["time":=t]> msg)) TABLE_COLUMNS !! i
            = Some (dict_get msg col)).
    rewrite lookup_map, Hcol. simpl. unfold dict_get.
    rewrite lookup_insert_ne by congruence. reflexivity.
Qed.

(** C7. The columns that [CREATE TABLE phasor_data] declares in
    database.py are, name for name and position for position, the list
    [TABLE_COLUMNS] of main.py: time, pmu id, status word, freq, rocof,
    twelve magnitude/angle pairs, eight analog and two digital channels.
    The INSERT statement is built from that list and every mapped row
    holds, at each position, the entry's value for the column declared at
    that position. *)
Theorem C7_column_order_matches_table :
  declared_columns phasor_data_ddl = TABLE_COLUMNS
  /\ TABLE_COLUMNS = wide_layout 12 8 2
  /\ SQL_INSERT_QUERY =
       "INSERT INTO phasor_data ("
       +:+ join ", " (declared_columns phasor_data_ddl) +:+ ") VALUES %s"
  /\ forall (msg msg' : gmap string value) (r : row),
       format_row_from_redis msg = Ok (msg', r) ->
       length r = length (declared_columns phasor_data_ddl)
       /\ forall (i : nat) (col : string),
            declared_columns phasor_data_ddl !! i = Some col ->
            r !! i = Some (dict_get msg' col).
Proof.
  assert (Hcols : declared_columns phasor_data_ddl = TABLE_COLUMNS)
    by (vm_compute; reflexivity).
  split; [exact Hcols|]. split; [vm_compute; reflexivity|].
  split; [rewrite Hcols; reflexivity|].
  intros msg msg' r Hrow. rewrite Hcols.
  destruct (format_row_inv _ _ _ Hrow) as (t & _ & _ & ->).
  split; [apply length_map|].
  intros i col Hcol. rewrite lookup_map, Hcol. reflexivity.
Qed.

Lemma format_round_trip_entry :
  format_row_from_redis round_trip_entry
  = Ok (<["time" := VDatetime (Datetime (FFinite false 17000000005 (-1)))]>
          round_trip_entry,
        round_trip_row).
Proof. vm_compute. reflexivity. Qed.

Lemma C7_column_order_matches_table_witness :
  length round_trip_row = length (declared_columns phasor_data_ddl)
  /\ round_trip_row !! 3
     = Some (dict_get
               (<["time" := VDatetime (Datetime (FFinite false 17000000005 (-1)))]>
                  round_trip_entry)
               "freq").
Proof.
  destruct C7_column_order_matches_table as (_ & _ & _ & H).
  destruct (H round_trip_entry _ round_trip_row format_round_trip_entry)
    as [Hlen Hpos].
  split; [exact Hlen|]. apply Hpos. vm_compute. reflexivity.
Defined.


(** What [datetime.fromtimestamp(float(ts))] makes of some stamps: a
    number of seconds converts; text that is no number, NaN, and a
    number whose year lies outside 1..9999 (milliseconds given for
    seconds) are ValueErrors, None a TypeError; an infinity, also
    written as a literal too large for a float, is an OverflowError, and
    a number beyond what [localtime] stores an OSError. *)
Lemma to_datetime_cases :
  to_datetime (VStr "1700000000.5")
  = Ok (Datetime (FFinite false 17000000005 (-1)))
  /\ to_datetime (VFloat (FFinite false 17000000005 (-1)))
     = Ok (Datetime (FFinite false 17000000005 (-1)))
  /\ to_datetime (VStr "not-a-number") = Raise ValueError
  /\ to_datetime (VStr "nan") = Raise ValueError
  /\ to_datetime (VStr "1700000000500") = Raise ValueError
  /\ to_datetime VNone = Raise TypeError
  /\ to_datetime (VStr "inf") = Raise OverflowError
  /\ to_datetime (VStr "1e400") = Raise OverflowError
  /\ to_datetime (VStr "1e18") = Raise OSError.
Proof. repeat split; vm_compute; reflexivity. Qed.




(** ** The bulk writer *)

Lemma flush_empty (env : flush_env) (st : state) :
  data_buffer st = [] -> flush_buffer_to_db env st = (st, [], Ok true).
Proof.
  intros H. unfold flush_buffer_to_db. prog_unfold. rewrite H. reflexivity.
Qed.

(** [flush_buffer_to_db] on a non-empty buffer, step by step. *)
Lemma flush_nonempty (env : flush_env) (st : state) :
  data_buffer st <> [] ->
  flush_buffer_to_db env st =
  let rows := data_buffer st in
  match ensure_connection env st with
  | (st1, pre, Raise e) => flush_handler env st1 pre e
  | (st1, pre, Ok _) =>
      let failed := mark_closed (fe_breaks env) st1 in
      match fe_cursor env with
      | Raise e => flush_handler env failed pre e
      | Ok _ =>
          let ins := EvDbExecuteValues SQL_INSERT_QUERY rows BATCH_SIZE in
          match fe_execute_values env with
          | Raise e => flush_handler env failed (pre ++ [ins]) e
          | Ok _ =>
              match fe_commit env with
              | Raise e => flush_handler env failed (pre ++ [ins; EvDbCommit]) e
              | Ok _ =>
                  (set_data_buffer [] st1,
                   pre ++ [ins; EvDbCommit; EvLog (LogFlushOk (length rows))],
                   Ok true)
              end
          end
      end
  end.
Proof.
  intros Hne. unfold flush_buffer_to_db, flush_handler, db_call, mark_closed.
  unfold bind at 1, get at 1.
  destruct (data_buffer st) as [|r0 rows] eqn:Hbuf; [congruence|].
  unfold try_except, bind at 1.
  destruct (ensure_connection env st) as [[st1 pre] [[]|e]]; cbv zeta;
    destruct (db_conn st1) as [c|] eqn:Hc; prog_unfold;
    try (destruct (fe_cursor env) as [[]|e1];
         [destruct (fe_execute_values env) as [[]|e2];
          [destruct (fe_commit env) as [[]|e3]|]|]);
    repeat (simpl; rewrite ?Hc);
    try destruct (fe_rollback env) as [[]|e4];
    repeat (simpl; rewrite ?Hc);
    rewrite <- ?app_assoc; reflexivity.
Qed.

(** Marking the connection closed touches nothing else. *)
Lemma mark_closed_fields (broken : bool) (st : state) :
  data_buffer (mark_closed broken st) = data_buffer st
  /\ acks_to_send (mark_closed broken st) = acks_to_send st
  /\ streams_to_listen (mark_closed broken st) = streams_to_listen st
  /\ (forall c, db_conn st = Some c ->
        db_conn (mark_closed broken st)
        = Some {| closed := closed c || broken; autocommit := autocommit c |})
  /\ (db_conn st = None -> mark_closed broken st = st).
Proof.
  unfold mark_closed. destruct (db_conn st) as [c|] eqn:Hc; simpl.
  - repeat split; try discriminate. intros c' [= <-]. reflexivity.
  - repeat split; try discriminate.
Qed.

(** A connection that is closed already stays as it is. *)
Lemma mark_closed_lost (broken : bool) (st : state) :
  connection_lost (db_conn st) = true -> mark_closed broken st = st.
Proof.
  unfold mark_closed. destruct st as [buffer acks [[cl ac]|] streams]; simpl;
    [|reflexivity].
  intros ->. reflexivity.
Qed.

(** The state and the result the [except] clause ends with. *)
Lemma flush_handler_spec (env : flush_env) (st1 : state) (tr : list event) (e : exc) :
  exists st' r,
    flush_handler env st1 tr e
    = (st', tr ++ EvLog (LogFlushError e)
               :: match db_conn st1 with Some _ => [EvDbRollback] | None => [] end, r)
    /\ data_buffer st' = data_buffer st1
    /\ acks_to_send st' = acks_to_send st1
    /\ streams_to_listen st' = streams_to_listen st1
    /\ r = match db_conn st1, fe_rollback env with
           | Some _, Raise e' => Raise e'
           | _, _ => Ok false
           end.
Proof.
  unfold flush_handler.
  destruct (mark_closed_fields (fe_breaks env) st1) as (Hb & Ha & Hs & _).
  destruct (db_conn st1) as [c|]; [destruct (fe_rollback env) as [[]|e']|];
    eexists _, _; (split; [reflexivity|]); repeat split; assumption.
Qed.

Lemma ensure_connection_alive (env : flush_env) (st : state) :
  connection_lost (db_conn st) = false ->
  ensure_connection env st = (st, [], Ok tt).
Proof.
  intros H. unfold ensure_connection. prog_unfold. rewrite H. reflexivity.
Qed.

Lemma ensure_connection_spec (env : flush_env) (st : state) :
  exists st1 pre r,
    ensure_connection env st = (st1, pre, r)
    /\ data_buffer st1 = data_buffer st
    /\ acks_to_send st1 = acks_to_send st
    /\ streams_to_listen st1 = streams_to_listen st
    /\ Forall (fun ev => connect_event ev = true \/ ev = EvLog LogReconnecting) pre
    /\ (r = Ok tt -> exists c, db_conn st1 = Some c).
Proof.
  destruct (connection_lost (db_conn st)) eqn:Hlost.
  - unfold ensure_connection. prog_unfold. rewrite Hlost.
    destruct (get_db_connection_spec (fe_connect env) st) as (tr & r & Heq & Hall).
    rewrite Heq.
    assert (Hpre : Forall (fun ev => connect_event ev = true
                                     \/ ev = EvLog LogReconnecting)
                     (EvLog LogReconnecting :: tr)).
    { constructor; [right; reflexivity|].
      eapply List.Forall_impl; [|exact Hall]. intros ev Hev. left. exact Hev. }
    destruct r as [c|e]; simpl.
    + eexists _, _, _. split; [reflexivity|]. rewrite app_nil_r.
      repeat split; eauto.
    + eexists _, _, _. split; [reflexivity|].
      repeat split; eauto. discriminate.
  - rewrite (ensure_connection_alive env st Hlost).
    eexists _, _, _. split; [reflexivity|]. repeat split; auto.
    unfold connection_lost in Hlost. destruct (db_conn st); eauto. discriminate.
Qed.


(** Insert and commit go through: the buffer is written as it stands and
    then cleared. *)
Lemma flush_success (env : flush_env) (st : state) :
  data_buffer st <> [] -> reaches_insert env st ->
  insert_and_commit_succeed env ->
  exists st' tr,
    flush_buffer_to_db env st = (st', tr, Ok true)
    /\ data_buffer st' = []
    /\ acks_to_send st' = acks_to_send st
    /\ streams_to_listen st' = streams_to_listen st
    /\ flush_committed (data_buffer st) tr.
Proof.
  intros Hne (st1 & pre & Hens) (Hcur & Hexe & Hcom).
  rewrite (flush_nonempty env st Hne). cbv zeta.
  destruct (ensure_connection_spec env st)
    as (st1' & pre' & r' & Heq & Hb & Ha & Hs & Hall & _).
  rewrite Hens in Heq. injection Heq as <- <- <-.
  rewrite Hens, Hcur, Hexe, Hcom.
  eexists _, _. split; [reflexivity|]. repeat split; try assumption.
  exists pre. split; [reflexivity | assumption].
Qed.



(** When the rollback itself raises (psycopg2 does so on a connection
    that was lost), that exception leaves [flush_buffer_to_db] in place of
    the False; the buffer is intact all the same. *)
Lemma flush_rollback_raises (env : flush_env) (st : state) (e : exc) :
  data_buffer st <> [] -> reaches_insert env st ->
  insert_or_commit_fails env -> fe_rollback env = Raise e ->
  exists st' tr,
    flush_buffer_to_db env st = (st', tr, Raise e)
    /\ data_buffer st' = data_buffer st.
Proof.
  intros Hne (st1 & pre & Hens) Hfail Hrb.
  unfold insert_or_commit_fails in Hfail.
  destruct (ensure_connection_spec env st)
    as (st1' & pre' & r' & Heq & Hb & Ha & _ & _ & Hconn).
  rewrite Hens in Heq. injection Heq as <- <- <-.
  pose proof (Hconn eq_refl) as Hbound.
  assert (Hh : forall tr e0, exists st' tr',
             flush_handler env (mark_closed (fe_breaks env) st1) tr e0
             = (st', tr', Raise e)
             /\ data_buffer st' = data_buffer st).
  { intros tr e0. destruct Hbound as [c Hc].
    destruct (mark_closed_fields (fe_breaks env) st1) as (Hmb & _ & _ & Hmc & _).
    destruct (flush_handler_spec env (mark_closed (fe_breaks env) st1) tr e0)
      as (st' & r & Heq & Hb' & _ & _ & Hr).
    rewrite (Hmc c Hc), Hrb in Hr. subst r.
    eexists _, _. split; [exact Heq | congruence]. }
  rewrite (flush_nonempty env st Hne). cbv zeta. rewrite Hens.
  destruct (fe_cursor env) as [[]|e1]; [|apply Hh].
  destruct (fe_execute_values env) as [[]|e2]; [|apply Hh].
  destruct (fe_commit env) as [[]|e3]; [|apply Hh].
  exfalso. destruct Hfail as [H|[H|H]]; congruence.
Qed.

(** ** Discovery *)

Lemma int_of_string_cases (s : string) :
  (exists n, int_of_string s = Ok n) \/ int_of_string s = Raise ValueError.
Proof.
  unfold int_of_string. destruct (parse_sign _) as [neg body].
  destruct (digitpart body) as [[ds [|c r]]|]; eauto.
Qed.

Lemma registration_is_discovery (tr : list event) :
  Forall (fun ev => registration_event ev = true) tr ->
  Forall (fun ev => discovery_event ev = true) tr.
Proof.
  intros H. eapply List.Forall_impl; [|exact H].
  intros ev Hev.
  event_cases ev; congruence.
Qed.

(** The second block of the loop body: registering the PMU never stops
    the loop. *)
Lemma register_block_spec {S : Type} (env : discover_env) (stream_name : string) (s : S) :
  exists tr,
    try_except
      (pmu_id <- lift (int_of_string (split_last ":" stream_name)) ;;
       register_pmu (de_register env stream_name) pmu_id)
      is_index_or_value_error
      (fun _ => emit (EvLog (LogInvalidStreamName stream_name))) s
    = (s, tr, Ok tt)
    /\ Forall (fun ev => discovery_event ev = true) tr
    /\ forall n g, ~ In (EvXGroupCreate n g) tr.
Proof.
  destruct (int_of_string_cases (split_last ":" stream_name)) as [[n Hn]|Hn].
  - destruct (register_pmu_spec (de_register env stream_name) n s)
      as (tr & Heq & Hall & _).
    exists tr. prog_unfold. rewrite Hn, Heq. simpl. split; [reflexivity|].
    split; [apply registration_is_discovery; assumption|].
    intros m g Hin. rewrite List.Forall_forall in Hall.
    apply Hall in Hin. discriminate.
  - prog_unfold. rewrite Hn. simpl. eexists. split; [reflexivity|].
    split; [repeat constructor|].
    intros m g [Hin|[]]. discriminate.
Qed.

Lemma setup_stream_ok {S : Type} (env : discover_env) (stream_name : string)
    (d : odict string) (s : S) :
  create_group_ok env stream_name = true ->
  exists tr,
    setup_stream env stream_name d s = (s, tr, Ok (odict_set stream_name ">" d))
    /\ Forall (fun ev => discovery_event ev = true) tr
    /\ In (EvXGroupCreate stream_name GROUP_NAME) tr
    /\ forall n g, In (EvXGroupCreate n g) tr -> n = stream_name.
Proof.
  intros Hok. unfold create_group_ok in Hok. unfold setup_stream.
  destruct (register_block_spec env stream_name s) as (tr & Heq & Hall & Hno).
  unfold bind at 1.
  assert (Hfirst : exists ev,
            try_except
              (emit (EvXGroupCreate stream_name GROUP_NAME) ;;;
               lift (de_xgroup_create env stream_name) ;;;
               emit (EvLog (LogGroupCreated stream_name)))
              is_response_error
              (fun e =>
                 if contains "name already exists" (str_of_exc e)
                 then emit (EvLog (LogGroupExists stream_name))
                 else raise e) s
            = (s, [EvXGroupCreate stream_name GROUP_NAME; EvLog ev], Ok tt)
            /\ discovery_event (EvLog ev) = true).
  { prog_unfold. destruct (de_xgroup_create env stream_name) as [[]|e]; simpl.
    - eexists. split; reflexivity.
    - apply andb_true_iff in Hok. destruct Hok as [Hre Hc].
      rewrite Hre, Hc. simpl. eexists. split; reflexivity. }
  destruct Hfirst as (ev & -> & Hev).
  unfold bind at 1. rewrite Heq. prog_unfold. simpl.
  eexists. split; [reflexivity|]. rewrite app_nil_r. split; [|split].
  - constructor; [reflexivity|]. constructor; assumption.
  - left. reflexivity.
  - intros n g [Hin|[Hin|Hin]].
    + congruence.
    + discriminate.
    + exfalso. exact (Hno n g Hin).
Qed.

Lemma setup_stream_fails {S : Type} (env : discover_env) (stream_name : string)
    (d : odict string) (s : S) :
  create_group_ok env stream_name = false ->
  exists e,
    de_xgroup_create env stream_name = Raise e
    /\ setup_stream env stream_name d s
       = (s, [EvXGroupCreate stream_name GROUP_NAME], Raise e).
Proof.
  intros Hbad. unfold create_group_ok in Hbad. unfold setup_stream.
  destruct (de_xgroup_create env stream_name) as [[]|e] eqn:Hc; [discriminate|].
  exists e. split; [reflexivity|]. prog_unfold. simpl.
  destruct (is_response_error e); simpl in *; [rewrite Hbad|]; reflexivity.
Qed.

Lemma setup_streams_ok {S : Type} (env : discover_env) (names : list string) (s : S) :
  forallb (create_group_ok env) names = true ->
  forall d, exists tr,
    setup_streams env names d s
    = (s, tr, Ok (fold_left (fun d n => odict_set n ">" d) names d))
    /\ Forall (fun ev => discovery_event ev = true) tr
    /\ (forall n, In n names -> In (EvXGroupCreate n GROUP_NAME) tr)
    /\ (forall n g, In (EvXGroupCreate n g) tr -> In n names).
Proof.
  induction names as [|n names IH]; intros Hall d; simpl in *.
  - exists []. repeat split; auto; try constructor; intros; contradiction.
  - apply andb_true_iff in Hall. destruct Hall as [Hn Hrest].
    destruct (setup_stream_ok env n d s Hn) as (tr1 & Heq1 & Hall1 & Hin1 & Honly1).
    destruct (IH Hrest (odict_set n ">" d)) as (tr2 & Heq2 & Hall2 & Hin2 & Honly2).
    exists (tr1 ++ tr2). unfold bind. rewrite Heq1, Heq2.
    split; [reflexivity|]. split; [apply Forall_app; auto|]. split.
    + intros m [<-|Hm]; apply in_or_app; [left | right]; auto.
    + intros m g Hin. apply in_app_or in Hin. destruct Hin as [Hin|Hin].
      * left. symmetry. eauto.
      * right. eauto.
Qed.

Lemma setup_streams_fails {S : Type} (env : discover_env)
    (good : list string) (bad : string) (rest : list string) (s : S) :
  forallb (create_group_ok env) good = true ->
  create_group_ok env bad = false ->
  forall d, exists tr e,
    de_xgroup_create env bad = Raise e
    /\ setup_streams env (good ++ bad :: rest) d s = (s, tr, Raise e)
    /\ Forall (fun ev => discovery_event ev = true) tr
    /\ (forall n, In n (good ++ [bad]) -> In (EvXGroupCreate n GROUP_NAME) tr)
    /\ (forall n g, In (EvXGroupCreate n g) tr -> In n (good ++ [bad])).
Proof.
  intros Hgood Hbad. induction good as [|n good IH]; intros d; simpl in *.
  - destruct (setup_stream_fails env bad d s Hbad) as (e & He & Heq).
    exists [EvXGroupCreate bad GROUP_NAME], e. unfold bind. rewrite Heq.
    split; [exact He|]. split; [reflexivity|]. split; [repeat constructor|].
    split.
    + intros m [<-|[]]. left. reflexivity.
    + intros m g [Hin|[]]. left. congruence.
  - apply andb_true_iff in Hgood. destruct Hgood as [Hn Hrest].
    destruct (setup_stream_ok env n d s Hn) as (tr1 & Heq1 & Hall1 & Hin1 & Honly1).
    destruct (IH Hrest (odict_set n ">" d)) as (tr2 & e & He & Heq2 & Hall2 & Hin2 & Honly2).
    exists (tr1 ++ tr2), e. unfold bind. rewrite Heq1, Heq2.
    split; [exact He|]. split; [reflexivity|].
    split; [apply Forall_app; auto|]. split.
    + intros m [<-|Hm]; apply in_or_app; [left | right]; auto.
    + intros m g Hin. apply in_app_or in Hin. destruct Hin as [Hin|Hin].
      * left. symmetry. eauto.
      * right. eauto.
Qed.

Lemma setup_streams_spec {S : Type} (env : discover_env) (names : list string) (s : S) :
  forall d, exists tr r,
    setup_streams env names d s = (s, tr, r)
    /\ Forall (fun ev => discovery_event ev = true) tr.
Proof.
  induction names as [|n names IH]; intros d; simpl.
  - exists [], (Ok d). split; [reflexivity | constructor].
  - destruct (create_group_ok env n) eqn:Hn.
    + destruct (setup_stream_ok env n d s Hn) as (tr1 & Heq1 & Hall1 & _).
      destruct (IH (odict_set n ">" d)) as (tr2 & r & Heq2 & Hall2).
      exists (tr1 ++ tr2), r. unfold bind. rewrite Heq1, Heq2.
      split; [reflexivity | apply Forall_app; auto].
    + destruct (setup_stream_fails env n d s Hn) as (e & _ & Heq).
      exists [EvXGroupCreate n GROUP_NAME], (Raise e). unfold bind. rewrite Heq.
      split; [reflexivity | repeat constructor].
Qed.

(** Discovery always returns a dictionary and never touches the
    caller's state. *)
Lemma discover_spec {S : Type} (env : discover_env) (s : S) :
  exists tr d,
    discover_and_setup_groups env s = (s, tr, Ok d)
    /\ Forall (fun ev => discovery_event ev = true) tr.
Proof.
  unfold discover_and_setup_groups.
  destruct (de_keys env) as [[|n names]|e] eqn:Hkeys.
  - prog_unfold. simpl.
    eexists _, _. split; [reflexivity | repeat constructor].
  - destruct (setup_streams_spec env (n :: names) s []) as (tr & r & Heq & Hall).
    prog_unfold. rewrite Heq.
    destruct r as [d|e]; simpl;
      (eexists _, _; split; [reflexivity|]);
      constructor; try reflexivity; constructor; try reflexivity;
      rewrite ?app_nil_r; apply Forall_app; split; auto; repeat constructor.
  - prog_unfold. simpl.
    eexists _, _. split; [reflexivity | repeat constructor].
Qed.

Lemma discover_all_ok {S : Type} (env : discover_env) (names : list string) (s : S) :
  de_keys env = Ok names ->
  forallb (create_group_ok env) names = true ->
  exists tr,
    discover_and_setup_groups env s = (s, tr, Ok (listening_to names))
    /\ (forall n, In n names -> In (EvXGroupCreate n GROUP_NAME) tr).
Proof.
  intros Hkeys Hok. unfold discover_and_setup_groups, listening_to.
  destruct names as [|n names].
  - prog_unfold. rewrite Hkeys. simpl. eexists. split; [reflexivity|].
    intros m [].
  - destruct (setup_streams_ok env (n :: names) s Hok []) as (tr & Heq & _ & Hin & _).
    prog_unfold. rewrite Hkeys, Heq. simpl.
    eexists. split; [reflexivity|].
    intros m Hm. right. right. apply in_or_app. left. auto.
Qed.

Lemma discover_aborts {S : Type} (env : discover_env)
    (good : list string) (bad : string) (rest : list string) (s : S) :
  de_keys env = Ok (good ++ bad :: rest) ->
  forallb (create_group_ok env) good = true ->
  create_group_ok env bad = false ->
  exists tr e,
    de_xgroup_create env bad = Raise e
    /\ discover_and_setup_groups env s = (s, tr ++ [EvLog (LogDiscoverError e)], Ok [])
    /\ (forall n, In n (good ++ [bad]) -> In (EvXGroupCreate n GROUP_NAME) tr)
    /\ (forall n g, In (EvXGroupCreate n g) tr -> In n (good ++ [bad])).
Proof.
  intros Hkeys Hgood Hbad. unfold discover_and_setup_groups.
  destruct (setup_streams_fails env good bad rest s Hgood Hbad [])
    as (tr & e & He & Heq & _ & Hin & Honly).
  exists ([EvLog LogDiscovering; EvKeys STREAM_KEY_PATTERN] ++ tr), e.
  split; [exact He|]. split; [|split].
  - prog_unfold. rewrite Hkeys.
    destruct (good ++ bad :: rest) as [|n names] eqn:Hnames.
    + destruct good; discriminate.
    + rewrite Heq. simpl. rewrite <- ?app_assoc. reflexivity.
  - intros n Hn. right. right. auto.
  - intros n g [Hx|[Hx|Hx]]; [discriminate | discriminate | eauto].
Qed.

Lemma odict_get_set_eq {V : Type} (k : string) (v : V) (d : odict V) :
  odict_get k (odict_set k v d) = Some v.
Proof.
  induction d as [|[k' v'] d IH]; simpl.
  - rewrite String.eqb_refl. reflexivity.
  - destruct (String.eqb k k') eqn:Hk; simpl; rewrite Hk; auto.
Qed.

Lemma odict_get_set_ne {V : Type} (k k0 : string) (v : V) (d : odict V) :
  k <> k0 -> odict_get k (odict_set k0 v d) = odict_get k d.
Proof.
  intros Hne. induction d as [|[k' v'] d IH]; simpl.
  - apply String.eqb_neq in Hne. rewrite Hne. reflexivity.
  - destruct (String.eqb k0 k') eqn:Hk0; simpl.
    + apply String.eqb_eq in Hk0. subst k'.
      apply String.eqb_neq in Hne. rewrite Hne. reflexivity.
    + rewrite IH. reflexivity.
Qed.

Lemma listening_to_spec (names : list string) (n : string) :
  (In n names -> odict_get n (listening_to names) = Some ">")
  /\ (~ In n names -> odict_get n (listening_to names) = None).
Proof.
  unfold listening_to.
  assert (H : forall d,
            (In n names ->
             odict_get n (fold_left (fun d n => odict_set n ">" d) names d)
             = Some ">")
            /\ (~ In n names ->
                odict_get n (fold_left (fun d n => odict_set n ">" d) names d)
                = odict_get n d)).
  { induction names as [|m names IH]; intros d; simpl.
    - split; [intros [] | reflexivity].
    - destruct (IH (odict_set m ">" d)) as [IHin IHout].
      destruct (in_dec string_dec n names) as [Hin|Hnin].
      + split; [intros _; auto | intros Hno; exfalso; apply Hno; auto].
      + split.
        * intros [->|Hin]; [|contradiction].
          rewrite (IHout Hnin). apply odict_get_set_eq.
        * intros Hno. rewrite (IHout Hnin).
          apply odict_get_set_ne. intros ->. apply Hno. auto. }
  apply H.
Qed.

(** C5 (as amended).  A failure to create the consumer group on a
    discovered source, with an error other than "already exists", ends the
    whole discovery run: the sources before it have had their group set up
    and the ones after it are not visited, the error is logged, and the run
    returns no source at all, so that all of them are left to a later
    discovery.  When every creation succeeds or answers "already exists",
    the run returns exactly the discovered sources, each listened to from
    ['>'].  In neither case does discovery raise or change the pipeline
    state. *)
Theorem C5_group_failure_ends_discovery_run
    (S : Type) (env : discover_env) (s : S) :
  (forall good bad rest,
      de_keys env = Ok (good ++ bad :: rest) ->
      forallb (create_group_ok env) good = true ->
      create_group_ok env bad = false ->
      exists tr e,
        de_xgroup_create env bad = Raise e
        /\ discover_and_setup_groups env s
           = (s, tr ++ [EvLog (LogDiscoverError e)], Ok [])
        /\ (forall n, In n (good ++ [bad]) -> In (EvXGroupCreate n GROUP_NAME) tr)
        /\ (forall n g, In (EvXGroupCreate n g) tr -> In n (good ++ [bad])))
  /\ (forall names,
        de_keys env = Ok names ->
        forallb (create_group_ok env) names = true ->
        exists tr d,
          discover_and_setup_groups env s = (s, tr, Ok d)
          /\ forall n, (In n names -> odict_get n d = Some ">")
                       /\ (~ In n names -> odict_get n d = None)).
Proof.
  split.
  - intros good bad rest. apply discover_aborts.
  - intros names Hkeys Hok.
    destruct (discover_all_ok env names s Hkeys Hok) as (tr & Heq & _).
    exists tr, (listening_to names). split; [exact Heq|].
    apply listening_to_spec.
Qed.

Lemma C5_group_failure_ends_discovery_run_witness :
  (exists tr e,
      discover_and_setup_groups two_sources_second_fails tt
      = (tt, tr ++ [EvLog (LogDiscoverError e)], Ok [])
      /\ In (EvXGroupCreate "pmu_data_stream:1" GROUP_NAME) tr)
  /\ (exists tr d,
        discover_and_setup_groups two_sources_first_known tt = (tt, tr, Ok d)
        /\ odict_get "pmu_data_stream:1" d = Some ">"
        /\ odict_get "pmu_data_stream:2" d = Some ">").
Proof.
  split.
  - destruct (proj1 (C5_group_failure_ends_discovery_run unit
                       two_sources_second_fails tt)
                ["pmu_data_stream:1"] "pmu_data_stream:2" []
                eq_refl eq_refl eq_refl)
      as (tr & e & _ & Heq & Hin & _).
    exists tr, e. split; [exact Heq|]. apply Hin. left. reflexivity.
  - destruct (proj2 (C5_group_failure_ends_discovery_run unit
                       two_sources_first_known tt)
                ["pmu_data_stream:1"; "pmu_data_stream:2"] eq_refl eq_refl)
      as (tr & d & Heq & Hget).
    exists tr, d. split; [exact Heq|]. split.
    + apply Hget. left. reflexivity.
    + apply Hget. right. left. reflexivity.
Defined.

(** One source's group cannot be created (the key holds another type):
    the source set up before it is not returned either. *)
Lemma C5_counterexample :
  create_group_ok two_sources_second_fails "pmu_data_stream:1" = true
  /\ create_group_ok two_sources_second_fails "pmu_data_stream:2" = false
  /\ exists tr,
       discover_and_setup_groups two_sources_second_fails tt = (tt, tr, Ok [])
       /\ In (EvLog (LogGroupCreated "pmu_data_stream:1")) tr
       /\ odict_get "pmu_data_stream:1" ([] : odict string) = None.
Proof.
  split; [reflexivity|]. split; [reflexivity|].
  eexists. split; [vm_compute; reflexivity|]. split; [|reflexivity].
  simpl. tauto.
Qed.

(** ** The flush, whatever the database does *)

Lemma flush_outcomes (env : flush_env) (st : state) :
  exists st' tr r,
    flush_buffer_to_db env st = (st', tr, r)
    /\ acks_to_send st' = acks_to_send st
    /\ streams_to_listen st' = streams_to_listen st
    /\ Forall (fun ev => flush_event ev = true) tr
    /\ (r = Ok true -> data_buffer st' = [])
    /\ (r = Ok true -> data_buffer st <> [] ->
        flush_committed (data_buffer st) tr /\ insert_and_commit_succeed env)
    /\ (r <> Ok true ->
        data_buffer st' = data_buffer st
        /\ exists e, In (EvLog (LogFlushError e)) tr).
Proof.
  destruct (data_buffer st) as [|r0 rows] eqn:Hbuf.
  - rewrite (flush_empty env st Hbuf). eexists _, _, _.
    split; [reflexivity|]. repeat split; auto; try constructor; congruence.
  - assert (Hne : data_buffer st <> []) by congruence.
    rewrite (flush_nonempty env st Hne). cbv zeta.
    destruct (ensure_connection_spec env st)
      as (st1 & pre & r1 & Hens & Hb & Ha & Hs & Hpre & _).
    rewrite Hens.
    assert (Hpre' : Forall (fun ev => flush_event ev = true) pre).
    { eapply List.Forall_impl; [|exact Hpre]. intros ev [Hev| ->]; [|reflexivity].
      event_cases ev; congruence. }
    assert (Hh : forall sth tr e,
              data_buffer sth = data_buffer st1 ->
              acks_to_send sth = acks_to_send st1 ->
              streams_to_listen sth = streams_to_listen st1 ->
              Forall (fun ev => flush_event ev = true) tr ->
              exists st' tr' r,
                flush_handler env sth tr e = (st', tr', r)
                /\ acks_to_send st' = acks_to_send st
                /\ streams_to_listen st' = streams_to_listen st
                /\ Forall (fun ev => flush_event ev = true) tr'
                /\ (r = Ok true -> data_buffer st' = [])
                /\ (r = Ok true -> r0 :: rows <> [] ->
                    flush_committed (r0 :: rows) tr'
                    /\ insert_and_commit_succeed env)
                /\ (r <> Ok true ->
                    data_buffer st' = r0 :: rows
                    /\ exists e, In (EvLog (LogFlushError e)) tr')).
    { intros sth tr e Hhb Hha Hhs Htr.
      destruct (flush_handler_spec env sth tr e)
        as (st' & r & Heq & Hb' & Ha' & Hs' & Hr).
      eexists _, _, _. split; [exact Heq|].
      split; [congruence|]. split; [congruence|].
      split.
      { apply Forall_app. split; [assumption|].
        destruct (db_conn sth); repeat constructor. }
      assert (Hnot : r <> Ok true).
      { rewrite Hr. destruct (db_conn sth); [destruct (fe_rollback env)|];
          discriminate. }
      split; [intros; contradiction|]. split; [intros; contradiction|].
      intros _. split; [congruence|].
      exists e. apply in_or_app. right. left. reflexivity. }
    destruct (mark_closed_fields (fe_breaks env) st1) as (Hmb & Hma & Hms & _).
    rewrite Hbuf.
    destruct r1 as [[]|e0]; [|apply Hh; auto].
    destruct (fe_cursor env) as [[]|e1] eqn:Hcur; [|apply Hh; auto].
    destruct (fe_execute_values env) as [[]|e2] eqn:Hexe;
      [|apply Hh; auto; apply Forall_app; split; [assumption | repeat constructor]].
    destruct (fe_commit env) as [[]|e3] eqn:Hcom;
      [|apply Hh; auto; apply Forall_app; split; [assumption | repeat constructor]].
    eexists _, _, _. split; [reflexivity|].
    split; [assumption|]. split; [assumption|].
    split; [apply Forall_app; split; [assumption | repeat constructor]|].
    split; [reflexivity|]. split.
    + intros _ _. split; [|repeat split; assumption].
      exists pre. split; [reflexivity | assumption].
    + congruence.
Qed.

(** ** Queueing acknowledgments *)

Lemma odict_set_in {V : Type} (k k0 : string) (v v0 : V) (d : odict V) :
  In (k, v) (odict_set k0 v0 d) -> (k = k0 /\ v = v0) \/ In (k, v) d.
Proof.
  induction d as [|[k' v'] d IH]; simpl.
  - intros [[= <- <-]|[]]. left. auto.
  - destruct (String.eqb k0 k') eqn:Hk; simpl.
    + apply String.eqb_eq in Hk. subst k'.
      intros [[= <- <-]|Hin]; [left | right; right]; auto.
    + intros [Heq|Hin]; [right; left; exact Heq|].
      destruct (IH Hin) as [?|?]; [left | right; right]; auto.
Qed.

Lemma odict_get_in {V : Type} (k : string) (v : V) (d : odict V) :
  odict_get k d = Some v -> In (k, v) d.
Proof.
  induction d as [|[k' v'] d IH]; simpl; [discriminate|].
  destruct (String.eqb k k') eqn:Hk.
  - apply String.eqb_eq in Hk. subst k'. intros [= ->]. left. reflexivity.
  - intros H. right. auto.
Qed.

Lemma queue_ack_in (s s0 i0 : string) (ids : list string)
    (acks : odict (list string)) :
  In (s, ids) (queue_ack s0 i0 acks) ->
  forall i, In i ids ->
    (exists ids0, In (s, ids0) acks /\ In i ids0) \/ (s = s0 /\ i = i0).
Proof.
  unfold queue_ack. destruct (odict_get s0 acks) as [ids1|] eqn:Hget.
  - intros Hin i Hi. apply odict_set_in in Hin.
    destruct Hin as [[-> ->]|Hin].
    + apply in_app_or in Hi. destruct Hi as [Hi|[<-|[]]].
      * left. exists ids1. split; [apply odict_get_in; assumption | assumption].
      * right. auto.
    + left. eauto.
  - intros Hin i Hi. apply odict_set_in in Hin.
    destruct Hin as [[-> ->]|Hin].
    + destruct Hi as [<-|[]]. right. auto.
    + left. eauto.
Qed.

(** One entry: no external call; the id is queued unless the mapper
    raised. *)
Lemma process_message_spec (s : string) (e : entry) (st : state) :
  exists st' r,
    process_message s e st = (st', [], r)
    /\ db_conn st' = db_conn st
    /\ streams_to_listen st' = streams_to_listen st
    /\ acks_from [(s, [e])] (acks_to_send st) (acks_to_send st').
Proof.
  destruct e as [msg_id msg_data]. unfold process_message. prog_unfold.
  assert (Hsame : acks_from [(s, [(msg_id, msg_data)])]
                    (acks_to_send st) (acks_to_send st)).
  { intros s' ids Hin i Hi. left. eauto. }
  destruct (format_row_from_redis msg_data) as [[msg' r]|e]; simpl.
  - destruct r as [|t r]; simpl.
    + eexists _, _. split; [reflexivity|]. auto.
    + assert (Hq : forall acks,
                acks_from [(s, [(msg_id, msg_data)])] acks
                  (queue_ack s msg_id acks)).
      { intros acks s' ids Hin i Hi.
        destruct (queue_ack_in _ _ _ _ _ Hin i Hi) as [?|[-> ->]]; [left; auto|].
        right. exists [(msg_id, msg_data)], msg_data.
        split; left; reflexivity. }
      destruct (is_none t); simpl;
        (eexists _, _; split; [reflexivity|]); repeat split; apply Hq.
  - eexists _, _. split; [reflexivity|]. auto.
Qed.

Lemma acks_from_trans (resp1 resp2 : response) (a b c : odict (list string)) :
  acks_from resp1 a b -> acks_from resp2 b c ->
  forall resp,
    (forall s i, (exists msgs f, In (s, msgs) resp1 /\ In (i, f) msgs) ->
                 exists msgs f, In (s, msgs) resp /\ In (i, f) msgs) ->
    (forall s i, (exists msgs f, In (s, msgs) resp2 /\ In (i, f) msgs) ->
                 exists msgs f, In (s, msgs) resp /\ In (i, f) msgs) ->
    acks_from resp a c.
Proof.
  intros H1 H2 resp Hr1 Hr2 s ids Hin i Hi.
  destruct (H2 s ids Hin i Hi) as [(ids0 & Hin0 & Hi0)|Hnew].
  - destruct (H1 s ids0 Hin0 i Hi0) as [Hold|Hnew]; [left; exact Hold|].
    right. apply Hr1. exact Hnew.
  - right. apply Hr2. exact Hnew.
Qed.

Lemma process_messages_spec (s : string) (messages : list entry) :
  forall st, exists st' r,
    process_messages s messages st = (st', [], r)
    /\ db_conn st' = db_conn st
    /\ streams_to_listen st' = streams_to_listen st
    /\ acks_from [(s, messages)] (acks_to_send st) (acks_to_send st').
Proof.
  induction messages as [|e rest IH]; intros st; simpl.
  - exists st, (Ok tt). repeat split. intros s' ids Hin i Hi. left. eauto.
  - destruct (process_message_spec s e st) as (st1 & r1 & Heq1 & Hc1 & Hs1 & Ha1).
    unfold bind. rewrite Heq1.
    assert (Hwiden1 : forall s' i,
              (exists msgs f, In (s', msgs) [(s, [e])] /\ In (i, f) msgs) ->
              exists msgs f, In (s', msgs) [(s, e :: rest)] /\ In (i, f) msgs).
    { intros s' i (msgs & f & [[= <- <-]|[]] & [He|[]]).
      exists (e :: rest), f. split; left; [reflexivity | exact He]. }
    destruct r1 as [[]|e1].
    + destruct (IH st1) as (st2 & r2 & Heq2 & Hc2 & Hs2 & Ha2).
      rewrite Heq2. eexists _, _. split; [reflexivity|].
      split; [congruence|]. split; [congruence|].
      eapply acks_from_trans; [exact Ha1 | exact Ha2 | exact Hwiden1 |].
      intros s' i (msgs & f & [[= <- <-]|[]] & Hi).
      exists (e :: rest), f. split; [left; reflexivity | right; exact Hi].
    + eexists _, _. split; [reflexivity|]. repeat split; try assumption.
      intros s' ids Hin i Hi. destruct (Ha1 s' ids Hin i Hi) as [?|Hnew]; [left; auto|].
      right. apply Hwiden1. exact Hnew.
Qed.

Lemma process_response_spec (resp : response) :
  forall st, exists st' r,
    process_response resp st = (st', [], r)
    /\ db_conn st' = db_conn st
    /\ streams_to_listen st' = streams_to_listen st
    /\ acks_from resp (acks_to_send st) (acks_to_send st').
Proof.
  induction resp as [|[s messages] rest IH]; intros st; simpl.
  - exists st, (Ok tt). repeat split. intros s' ids Hin i Hi. left. eauto.
  - destruct (process_messages_spec s messages st)
      as (st1 & r1 & Heq1 & Hc1 & Hs1 & Ha1).
    unfold bind. rewrite Heq1.
    assert (Hwiden1 : forall s' i,
              (exists msgs f, In (s', msgs) [(s, messages)] /\ In (i, f) msgs) ->
              exists msgs f, In (s', msgs) ((s, messages) :: rest) /\ In (i, f) msgs).
    { intros s' i (msgs & f & [[= <- <-]|[]] & Hi).
      exists messages, f. split; [left; reflexivity | exact Hi]. }
    destruct r1 as [[]|e1].
    + destruct (IH st1) as (st2 & r2 & Heq2 & Hc2 & Hs2 & Ha2).
      rewrite Heq2. eexists _, _. split; [reflexivity|].
      split; [congruence|]. split; [congruence|].
      eapply acks_from_trans; [exact Ha1 | exact Ha2 | exact Hwiden1 |].
      intros s' i (msgs & f & Hin & Hi).
      exists msgs, f. split; [right; exact Hin | exact Hi].
    + eexists _, _. split; [reflexivity|]. repeat split; try assumption.
      intros s' ids Hin i Hi. destruct (Ha1 s' ids Hin i Hi) as [?|Hnew]; [left; auto|].
      right. apply Hwiden1. exact Hnew.
Qed.

(** What the entries processed add to the buffer. *)
Lemma process_message_buffer (s : string) (e : entry) (st st' : state) :
  process_message s e st = (st', [], Ok tt) ->
  data_buffer st' = data_buffer st ++ valid_row e.
Proof.
  destruct e as [msg_id msg_data]. unfold process_message, valid_row.
  prog_unfold. simpl.
  destruct (format_row_from_redis msg_data) as [[msg' r]|e]; simpl;
    [|discriminate].
  destruct r as [|t r]; simpl; [discriminate|].
  destruct (is_none t); simpl; intros [= <-]; simpl;
    rewrite ?app_nil_r; reflexivity.
Qed.

Lemma process_messages_buffer (s : string) (messages : list entry) :
  forall st st',
    process_messages s messages st = (st', [], Ok tt) ->
    data_buffer st' = data_buffer st ++ flat_map valid_row messages.
Proof.
  induction messages as [|e rest IH]; intros st st'; simpl.
  - intros [= <-]. rewrite app_nil_r. reflexivity.
  - destruct (process_message_spec s e st) as (st1 & r1 & Heq1 & _).
    unfold bind. rewrite Heq1. destruct r1 as [[]|e1]; [|discriminate].
    destruct (process_messages_spec s rest st1) as (st2 & r2 & Heq2 & _).
    rewrite Heq2. intros [= <- ->].
    rewrite (IH _ _ Heq2), (process_message_buffer _ _ _ _ Heq1).
    rewrite <- app_assoc. reflexivity.
Qed.

Lemma process_response_buffer (resp : response) :
  forall st st',
    process_response resp st = (st', [], Ok tt) ->
    data_buffer st' = data_buffer st ++ valid_rows resp.
Proof.
  induction resp as [|[s messages] rest IH]; intros st st'; simpl.
  - intros [= <-]. rewrite app_nil_r. reflexivity.
  - destruct (process_messages_spec s messages st) as (st1 & r1 & Heq1 & _).
    unfold bind. rewrite Heq1. destruct r1 as [[]|e1]; [|discriminate].
    destruct (process_response_spec rest st1) as (st2 & r2 & Heq2 & _).
    rewrite Heq2. intros [= <- ->].
    rewrite (IH _ _ Heq2), (process_messages_buffer _ _ _ _ Heq1).
    unfold valid_rows. simpl. rewrite <- app_assoc. reflexivity.
Qed.

(** The row of an entry of the answer is among the rows the answer adds. *)
Lemma valid_row_in_rows (resp : response) (s : string) (msgs : list entry)
    (e : entry) (r : row) :
  In (s, msgs) resp -> In e msgs -> In r (valid_row e) -> In r (valid_rows resp).
Proof.
  intros Hs He Hr. unfold valid_rows. apply in_flat_map.
  exists (s, msgs). split; [exact Hs|]. simpl. apply in_flat_map.
  exists e. split; assumption.
Qed.

Lemma send_acks_spec (env : cycle_env) (acks : odict (list string)) (st : state) :
  exists tr r,
    send_acks env acks st = (st, tr, r)
    /\ Forall (fun ev => exists s ids,
                 ev = EvXAck s GROUP_NAME ids /\ In (s, ids) acks) tr.
Proof.
  induction acks as [|[s ids] rest IH]; simpl.
  - exists [], (Ok tt). split; [reflexivity | constructor].
  - destruct IH as (tr & r & Heq & Hall). prog_unfold.
    assert (Hall' : Forall (fun ev => exists s0 ids0,
                       ev = EvXAck s0 GROUP_NAME ids0
                       /\ In (s0, ids0) ((s, ids) :: rest)) tr).
    { eapply List.Forall_impl; [|exact Hall].
      intros ev (s0 & ids0 & -> & Hin). exists s0, ids0. split; [reflexivity|].
      right. exact Hin. }
    destruct (ce_xack env s) as [[]|e]; simpl.
    + rewrite Heq. eexists _, _. split; [reflexivity|].
      constructor; [|exact Hall']. exists s, ids. split; [reflexivity|].
      left. reflexivity.
    + eexists _, _. split; [reflexivity|].
      constructor; [|constructor]. exists s, ids. split; [reflexivity|].
      left. reflexivity.
Qed.

(** ** One turn of the main loop *)

Lemma discovery_is_quiet (tr : list event) :
  Forall (fun ev => discovery_event ev = true) tr -> Forall quiet tr.
Proof.
  intros H. eapply List.Forall_impl; [|exact H]. intros ev Hev.
  event_cases ev;
    try discriminate; split; reflexivity.
Qed.

Lemma flush_events_no_xack (tr : list event) :
  Forall (fun ev => flush_event ev = true) tr ->
  Forall (fun ev => is_xack ev = false) tr.
Proof.
  intros H. eapply List.Forall_impl; [|exact H]. intros ev Hev.
  event_cases ev;
    try discriminate; reflexivity.
Qed.

Lemma flush_committed_quiet (rows : list row) (tr : list event) :
  flush_committed rows tr -> Forall quiet tr.
Proof.
  intros (pre & -> & Hpre). apply Forall_app. split.
  - eapply List.Forall_impl; [|exact Hpre]. intros ev [Hev| ->].
    + event_cases ev;
        try discriminate; split; reflexivity.
    + split; reflexivity.
  - repeat constructor.
Qed.

Lemma rediscover_spec (env : cycle_env) (st : state) :
  exists st0 tr0,
    rediscover env st = (st0, tr0, Ok tt)
    /\ data_buffer st0 = data_buffer st
    /\ acks_to_send st0 = acks_to_send st
    /\ db_conn st0 = db_conn st
    /\ Forall (fun ev => discovery_event ev = true) tr0
    /\ (ce_discovery_due env = false -> st0 = st /\ tr0 = []).
Proof.
  unfold rediscover. destruct (ce_discovery_due env).
  - destruct (discover_spec (ce_discover env) st) as (tr & d & Heq & Hall).
    prog_unfold. rewrite Heq. simpl. eexists _, _. split; [reflexivity|].
    rewrite app_nil_r. repeat split; auto; discriminate.
  - exists st, []. prog_unfold. repeat split; auto.
Qed.

(** Steps 6 and 7 on the entries [resp]: either nothing is acknowledged,
    or a full batch was committed first and what is acknowledged was read
    in [resp]. *)
Lemma on_entries_shape (env : cycle_env) (resp : response) (st : state) :
  exists st' tr r,
    on_entries env resp st = (st', tr, r)
    /\ (Forall (fun ev => is_xack ev = false) tr
        \/ exists rows flushed acks,
             tr = flushed ++ acks
             /\ flush_committed rows flushed
             /\ BATCH_SIZE <= length rows
             /\ insert_and_commit_succeed (ce_flush env)
             /\ Forall (acks_entries_of resp) acks
             /\ rows = data_buffer st ++ valid_rows resp).
Proof.
  unfold on_entries.
  destruct (process_response_spec resp (set_acks_to_send [] st))
    as (st1 & r1 & Heq1 & _ & _ & Ha1).
  unfold bind at 1, modify at 1. unfold bind at 1. rewrite Heq1.
  destruct r1 as [[]|e1]; [|eexists _, _, _; split; [reflexivity | left; constructor]].
  unfold bind at 1, get at 1.
  destruct (BATCH_SIZE <=? length (data_buffer st1))%nat eqn:Hfull;
    [|eexists _, _, _; split; [reflexivity | left; constructor]].
  apply Nat.leb_le in Hfull.
  destruct (flush_outcomes (ce_flush env) st1)
    as (st2 & trf & rf & Heqf & Ha2 & _ & Hev & _ & Hcommit & _).
  unfold bind at 1. rewrite Heqf.
  destruct rf as [[|]|ef].
  - destruct (send_acks_spec env (acks_to_send st2) st2) as (tra & ra & Heqa & Hacks).
    unfold bind at 1, get at 1. rewrite Heqa.
    eexists _, _, _. split; [reflexivity|]. right.
    assert (Hne : data_buffer st1 <> []).
    { intros Hnil. rewrite Hnil in Hfull. unfold BATCH_SIZE in Hfull.
      simpl in Hfull. lia. }
    destruct (Hcommit eq_refl Hne) as [Hc Hok].
    exists (data_buffer st1), trf, tra. simpl.
    split; [reflexivity|]. split; [exact Hc|]. split; [exact Hfull|].
    split; [exact Hok|]. split.
    + eapply List.Forall_impl; [|exact Hacks].
      intros ev (s & ids & -> & Hin). exists s, ids. split; [reflexivity|].
      intros i Hi. rewrite Ha2 in Hin.
      destruct (Ha1 s ids Hin i Hi) as [(ids0 & [] & _)|Hnew]. exact Hnew.
    + apply (process_response_buffer resp _ _ Heq1).
  - prog_unfold. eexists _, _, _. split; [reflexivity|]. left. simpl.
    apply Forall_app. split; [apply flush_events_no_xack; assumption|].
    repeat constructor.
  - eexists _, _, _. split; [reflexivity|]. left.
    apply flush_events_no_xack. assumption.
Qed.

Lemma on_timeout_spec (env : cycle_env) (st : state) :
  exists st' trf rf,
    flush_buffer_to_db (ce_flush env) st = (st', trf, rf)
    /\ on_timeout env st
       = (st', EvLog LogTimeoutFlush :: trf,
          match rf with Ok _ => Ok tt | Raise e => Raise e end)
    /\ Forall (fun ev => is_xack ev = false) (EvLog LogTimeoutFlush :: trf).
Proof.
  destruct (flush_outcomes (ce_flush env) st)
    as (st' & trf & rf & Heqf & _ & _ & Hev & _).
  exists st', trf, rf. split; [exact Heqf|]. split.
  - unfold on_timeout. prog_unfold. rewrite Heqf.
    destruct rf; simpl; rewrite ?app_nil_r; reflexivity.
  - constructor; [reflexivity | apply flush_events_no_xack; assumption].
Qed.

(** The handlers of the main loop add a log line and a sleep. *)
Lemma cycle_of_body (env : cycle_env) (st st' : state) (tr : list event)
    (r : result unit) :
  cycle_body env st = (st', tr, r) ->
  exists handled,
    cycle env st = (st', tr ++ handled, Ok tt)
    /\ Forall quiet handled
    /\ (r = Ok tt -> handled = [])
    /\ (forall e, r = Raise e ->
          handled = [EvLog (if is_redis_error e then LogRedisError e
                            else LogUnexpectedError e);
                     EvSleep (if is_redis_error e then 5 else 1)]).
Proof.
  intros Hbody. unfold cycle, try_except. rewrite Hbody.
  destruct r as [[]|e].
  - exists []. rewrite app_nil_r. repeat split; auto; try constructor.
    discriminate.
  - prog_unfold. destruct (is_redis_error e) eqn:Hre; simpl;
      (eexists; split; [reflexivity|]; split;
       [repeat constructor | split; [discriminate|]]);
      intros e' [= <-]; rewrite Hre; reflexivity.
Qed.

Lemma cycle_shape (env : cycle_env) (st : state) :
  exists st' tr,
    cycle env st = (st', tr, Ok tt)
    /\ acknowledges_after_commit env (data_buffer st) tr.
Proof.
  destruct (rediscover_spec env st) as (st0 & tr0 & Hre & Hbuf & _ & _ & Hdisc & _).
  apply discovery_is_quiet in Hdisc.
  assert (Hnx : forall l, Forall quiet l -> Forall (fun ev => is_xack ev = false) l).
  { intros l Hl. eapply List.Forall_impl; [|exact Hl]. intros ev [H _]. exact H. }
  assert (Hbody : exists st' tr r,
            cycle_body env st = (st', tr, r)
            /\ (Forall (fun ev => is_xack ev = false) tr
                \/ exists before rows flushed acks resp,
                     tr = before ++ flushed ++ acks
                     /\ Forall quiet before
                     /\ flush_committed rows flushed
                     /\ BATCH_SIZE <= length rows
                     /\ insert_and_commit_succeed (ce_flush env)
                     /\ ce_read env = Ok resp
                     /\ Forall (acks_entries_of resp) acks
                     /\ rows = data_buffer st ++ valid_rows resp)).
  { unfold cycle_body. unfold bind at 1. rewrite Hre.
    unfold bind at 1, get at 1.
    destruct (streams_to_listen st0) as [|s0 ss] eqn:Hstreams.
    - prog_unfold. eexists _, _, _. split; [reflexivity|]. left.
      apply Forall_app. split; [apply Hnx; assumption | repeat constructor].
    - unfold bind at 1, emit at 1. unfold bind at 1, lift at 1.
      destruct (ce_read env) as [[|e0 resp]|e] eqn:Hread.
      + destruct (on_timeout_spec env st0) as (st' & trf & rf & _ & Heq & Hno).
        rewrite Heq. eexists _, _, _. split; [reflexivity|]. left.
        apply Forall_app. split; [apply Hnx; assumption|].
        simpl. constructor; [reflexivity | exact Hno].
      + destruct (on_entries_shape env (e0 :: resp) st0)
          as (st' & tre & re & Heq & Hshape).
        rewrite Heq. eexists _, _, _. split; [reflexivity|].
        destruct Hshape
          as [Hno|(rows & flushed & acks & -> & Hc & Hfull & Hok & Hacks & Hrows)].
        * left. apply Forall_app. split; [apply Hnx; assumption|].
          simpl. constructor; [reflexivity | exact Hno].
        * right.
          exists (tr0 ++ [EvXReadGroup GROUP_NAME CONSUMER_NAME (s0 :: ss)
                            BATCH_SIZE BLOCK_TIMEOUT_MS]),
            rows, flushed, acks, (e0 :: resp).
          split; [rewrite <- !app_assoc; reflexivity|].
          split; [apply Forall_app; split; [assumption | repeat constructor]|].
          rewrite <- Hbuf. auto 10.
      + eexists _, _, _. split; [reflexivity|]. left.
        apply Forall_app. split; [apply Hnx; assumption | repeat constructor]. }
  destruct Hbody as (st' & tr & r & Heq & Hshape).
  destruct (cycle_of_body env st st' tr r Heq) as (handled & Hcycle & Hquiet & _).
  exists st', (tr ++ handled). split; [exact Hcycle|].
  destruct Hshape as [Hno|(before & rows & flushed & acks & resp & -> & Hshape)].
  - left. apply Forall_app. split; [exact Hno | apply Hnx; exact Hquiet].
  - right. exists before, rows, flushed, acks, handled, resp.
    split; [rewrite <- !app_assoc; reflexivity|].
    destruct Hshape as (? & ? & ? & ? & ? & ? & ?). auto 12.
Qed.

Lemma split_after_prefix {A : Type} (P : A -> Prop) (x : A) :
  ~ P x ->
  forall (l1 l2 pre post : list A),
    Forall P l1 -> l1 ++ l2 = pre ++ x :: post ->
    exists l, pre = l1 ++ l.
Proof.
  intros Hx. induction l1 as [|a l1 IH]; intros l2 pre post Hall Heq.
  - exists pre. reflexivity.
  - destruct pre as [|b pre]; simpl in Heq.
    + injection Heq as -> _. inversion Hall; subst. contradiction.
    + injection Heq as -> Heq. inversion Hall; subst.
      destruct (IH l2 pre post) as [l ->]; [assumption | assumption |].
      exists l. reflexivity.
Qed.

(** C1. In every turn of the main loop, an [xack] is issued only after
    [flush_buffer_to_db] has returned success in that turn.  Whatever comes
    before an acknowledgment in the turn's trace contains the bulk insert
    of a full batch - the buffer as it stood plus the rows of the entries
    read in this turn -, its commit and the success line; insert and commit
    did succeed; every id acknowledged was read in this turn on that stream
    and its row, when it has a valid one, is in the batch written; and the
    turn shows no rollback and no flush error.  A turn in which the flush
    failed, or in which none was performed, acknowledges nothing. *)
Theorem C1_ack_only_after_successful_flush (env : cycle_env) (st : state) :
  exists st' tr,
    cycle env st = (st', tr, Ok tt)
    /\ (forall pre stream group ids post,
          tr = pre ++ EvXAck stream group ids :: post ->
          exists resp rows p1 p2,
            ce_read env = Ok resp
            /\ rows = data_buffer st ++ valid_rows resp
            /\ BATCH_SIZE <= length rows
            /\ pre = p1 ++ [EvDbExecuteValues SQL_INSERT_QUERY rows BATCH_SIZE;
                            EvDbCommit;
                            EvLog (LogFlushOk (length rows))] ++ p2
            /\ insert_and_commit_succeed (ce_flush env)
            /\ Forall (fun ev => is_flush_failure ev = false) tr
            /\ group = GROUP_NAME
            /\ forall i, In i ids ->
                 exists msgs fields,
                   In (stream, msgs) resp /\ In (i, fields) msgs
                   /\ forall r, In r (valid_row (i, fields)) -> In r rows)
    /\ ((exists ev, In ev tr /\ is_flush_failure ev = true) ->
        Forall (fun ev => is_xack ev = false) tr)
    /\ ((forall n, ~ In (EvLog (LogFlushOk n)) tr) ->
        Forall (fun ev => is_xack ev = false) tr).
Proof.
  destruct (cycle_shape env st) as (st' & tr & Heq & Hshape).
  exists st', tr. split; [exact Heq|].
  destruct Hshape
    as [Hno|(before & rows & flushed & acks & after & resp & Htr & Hb & Hc
             & Hfull & Hok & Hread & Hacks & Hafter & Hrows)].
  - split; [|split; intros _; exact Hno].
    intros pre stream group ids post ->. exfalso.
    apply Forall_app in Hno. destruct Hno as [_ Hno].
    inversion Hno; subst. discriminate.
  - assert (Hquiet_acks : Forall quiet flushed)
      by (eapply flush_committed_quiet; exact Hc).
    assert (Hnofail : Forall (fun ev => is_flush_failure ev = false) tr).
    { rewrite Htr. repeat (apply Forall_app; split).
      - eapply List.Forall_impl; [|exact Hb]. intros ev [_ H]. exact H.
      - eapply List.Forall_impl; [|exact Hquiet_acks]. intros ev [_ H]. exact H.
      - eapply List.Forall_impl; [|exact Hacks].
        intros ev (s & ids & -> & _). reflexivity.
      - eapply List.Forall_impl; [|exact Hafter]. intros ev [_ H]. exact H. }
    split; [|split].
    + intros pre stream group ids post Hsplit.
      rewrite Htr, app_assoc in Hsplit.
      destruct (split_after_prefix (fun ev => is_xack ev = false)
                  (EvXAck stream group ids) ltac:(discriminate)
                  (before ++ flushed) (acks ++ after) pre post) as [l ->].
      { apply Forall_app. split.
        - eapply List.Forall_impl; [|exact Hb]. intros ev [H _]. exact H.
        - eapply List.Forall_impl; [|exact Hquiet_acks]. intros ev [H _]. exact H. }
      { exact Hsplit. }
      rewrite <- (app_assoc (before ++ flushed) l) in Hsplit.
      apply app_inv_head in Hsplit.
      assert (Hin : In (EvXAck stream group ids) (acks ++ after)).
      { rewrite Hsplit. apply in_or_app. right. left. reflexivity. }
      apply in_app_or in Hin. destruct Hin as [Hin|Hin].
      * rewrite List.Forall_forall in Hacks.
        destruct (Hacks _ Hin) as (s & ids' & [= -> -> ->] & Hids).
        exists resp, rows. destruct Hc as (pf & Hflushed & _).
        exists (before ++ pf), l.
        split; [exact Hread|]. split; [exact Hrows|]. split; [exact Hfull|].
        split; [rewrite Hflushed, <- !app_assoc; reflexivity|].
        split; [exact Hok|]. split; [exact Hnofail|]. split; [reflexivity|].
        intros i Hi. destruct (Hids i Hi) as (msgs & fields & Hs & He).
        exists msgs, fields. split; [exact Hs|]. split; [exact He|].
        intros r Hr. rewrite Hrows. apply in_or_app. right.
        exact (valid_row_in_rows resp s msgs (i, fields) r Hs He Hr).
      * rewrite List.Forall_forall in Hafter.
        destruct (Hafter _ Hin) as [H _]. discriminate.
    + intros (ev & Hin & Hfail). exfalso.
      rewrite List.Forall_forall in Hnofail. rewrite (Hnofail _ Hin) in Hfail.
      discriminate.
    + intros Hnone. exfalso. destruct Hc as (pf & -> & _).
      apply (Hnone (length rows)). rewrite Htr.
      apply in_or_app. right. apply in_or_app. left.
      apply in_or_app. right. simpl. tauto.
Qed.

Lemma C1_ack_only_after_successful_flush_witness :
  exists rows p1 p2 post,
    snd (fst (cycle
      (turn [(stream7, [("1700000000500-0", round_trip_entry)])] db_ok)
      (listening (repeat round_trip_row 499))))
    = (p1 ++ [EvDbExecuteValues SQL_INSERT_QUERY rows BATCH_SIZE;
              EvDbCommit;
              EvLog (LogFlushOk (length rows))] ++ p2)
      ++ EvXAck stream7 GROUP_NAME ["1700000000500-0"] :: post
    /\ BATCH_SIZE <= length rows
    /\ In round_trip_row rows.
Proof.
  destruct (C1_ack_only_after_successful_flush
              (turn [(stream7, [("1700000000500-0", round_trip_entry)])] db_ok)
              (listening (repeat round_trip_row 499)))
    as (st' & tr & Heq & Hsplit & _).
  assert (Htr : tr =
            [EvXReadGroup GROUP_NAME CONSUMER_NAME [(stream7, ">")]
               BATCH_SIZE BLOCK_TIMEOUT_MS;
             EvDbExecuteValues SQL_INSERT_QUERY (repeat round_trip_row 500)
               BATCH_SIZE;
             EvDbCommit;
             EvLog (LogFlushOk 500)]
            ++ EvXAck stream7 GROUP_NAME ["1700000000500-0"] :: []).
  { assert (Hc : snd (fst (cycle
        (turn [(stream7, [("1700000000500-0", round_trip_entry)])] db_ok)
        (listening (repeat round_trip_row 499))))
        = [EvXReadGroup GROUP_NAME CONSUMER_NAME [(stream7, ">")]
             BATCH_SIZE BLOCK_TIMEOUT_MS;
           EvDbExecuteValues SQL_INSERT_QUERY (repeat round_trip_row 500)
             BATCH_SIZE;
           EvDbCommit;
           EvLog (LogFlushOk 500)]
          ++ EvXAck stream7 GROUP_NAME ["1700000000500-0"] :: [])
      by (vm_compute; reflexivity).
    rewrite Heq in Hc. exact Hc. }
  destruct (Hsplit _ _ _ _ _ Htr)
    as (resp & rows & p1 & p2 & _ & Hrows & Hfull & Hpre & _).
  exists rows, p1, p2, []. rewrite Heq. simpl fst. simpl snd.
  split; [rewrite Htr, Hpre; reflexivity|]. split; [exact Hfull|].
  rewrite Hrows. apply in_or_app. left. left. reflexivity.
Defined.

(** The turns that read nothing: a timeout turn flushes but never
    acknowledges, whatever the flush did. *)
Lemma timeout_turn_never_acknowledges (env : cycle_env) (st : state) :
  ce_read env = Ok [] ->
  exists st' tr,
    cycle env st = (st', tr, Ok tt)
    /\ Forall (fun ev => is_xack ev = false) tr.
Proof.
  intros Hread. destruct (cycle_shape env st) as (st' & tr & Heq & Hshape).
  exists st', tr. split; [exact Heq|].
  destruct Hshape as [Hno|(before & rows & flushed & acks & after & resp & Htr
                           & _ & _ & _ & _ & Hresp & Hacks & _ & _)]; [exact Hno|].
  rewrite Hread in Hresp. injection Hresp as <-.
  destruct (rediscover_spec env st) as (st0 & tr0 & Hre & _ & _ & _ & Hdisc & _).
  apply discovery_is_quiet in Hdisc.
  assert (Hbody : exists st1 tr1 r1,
            cycle_body env st = (st1, tr1, r1)
            /\ Forall (fun ev => is_xack ev = false) tr1).
  { unfold cycle_body. unfold bind at 1. rewrite Hre.
    unfold bind at 1, get at 1.
    destruct (streams_to_listen st0) as [|s0 ss].
    - prog_unfold. eexists _, _, _. split; [reflexivity|].
      apply Forall_app. split; [|repeat constructor].
      eapply List.Forall_impl; [|exact Hdisc]. intros ev [H _]. exact H.
    - unfold bind at 1, emit at 1. unfold bind at 1, lift at 1. rewrite Hread.
      destruct (on_timeout_spec env st0) as (st1 & trf & rf & _ & Heqt & Hno).
      rewrite Heqt. eexists _, _, _. split; [reflexivity|].
      apply Forall_app. split.
      + eapply List.Forall_impl; [|exact Hdisc]. intros ev [H _]. exact H.
      + simpl. constructor; [reflexivity | exact Hno]. }
  destruct Hbody as (st1 & tr1 & r1 & Hb & Hno).
  destruct (cycle_of_body env st st1 tr1 r1 Hb) as (handled & Hc & Hq & _).
  rewrite Hc in Heq. injection Heq as <- <-.
  apply Forall_app. split; [exact Hno|].
  eapply List.Forall_impl; [|exact Hq]. intros ev [H _]. exact H.
Qed.

(** C4 (as amended).  When the read of a turn returns empty while the
    write buffer is non-empty, [flush_buffer_to_db] is called in that turn
    on the whole buffer, whatever its size.  When insert and commit go
    through, exactly the buffered rows are written and the buffer is empty
    right after; when the flush does not succeed, the buffer is left exactly
    as it was.  Nothing is acknowledged in such a turn. *)
Theorem C4_timeout_flushes_residual_buffer
    (env : cycle_env) (st st0 : state) (tr0 : list event) :
  rediscover env st = (st0, tr0, Ok tt) ->
  streams_to_listen st0 <> [] ->
  ce_read env = Ok [] ->
  data_buffer st <> [] ->
  exists st' trf rf handled,
    flush_buffer_to_db (ce_flush env) st0 = (st', trf, rf)
    /\ data_buffer st0 = data_buffer st
    /\ cycle env st
       = (st',
          tr0 ++ [EvXReadGroup GROUP_NAME CONSUMER_NAME (streams_to_listen st0)
                    BATCH_SIZE BLOCK_TIMEOUT_MS;
                  EvLog LogTimeoutFlush] ++ trf ++ handled,
          Ok tt)
    /\ Forall (fun ev => is_xack ev = false) (trf ++ handled)
    /\ (reaches_insert (ce_flush env) st0 ->
        insert_and_commit_succeed (ce_flush env) ->
        rf = Ok true /\ data_buffer st' = []
        /\ flush_committed (data_buffer st) trf)
    /\ (rf = Ok true -> data_buffer st' = [])
    /\ (rf <> Ok true ->
        data_buffer st' = data_buffer st
        /\ exists e, In (EvLog (LogFlushError e)) trf).
Proof.
  intros Hre Hstreams Hread Hne.
  destruct (rediscover_spec env st) as (st0' & tr0' & Hre' & Hbuf & _).
  rewrite Hre in Hre'. injection Hre' as <- <-.
  destruct (flush_outcomes (ce_flush env) st0)
    as (st' & trf & rf & Heqf & _ & _ & Hev & Hclear & _ & Hkeep).
  assert (Hbody : cycle_body env st
                  = (st',
                     tr0 ++ [EvXReadGroup GROUP_NAME CONSUMER_NAME
                               (streams_to_listen st0) BATCH_SIZE BLOCK_TIMEOUT_MS;
                             EvLog LogTimeoutFlush] ++ trf,
                     match rf with Ok _ => Ok tt | Raise e => Raise e end)).
  { unfold cycle_body. unfold bind at 1. rewrite Hre.
    unfold bind at 1, get at 1.
    destruct (streams_to_listen st0) as [|s0 ss]; [congruence|].
    unfold bind at 1, emit at 1. unfold bind at 1, lift at 1. rewrite Hread.
    destruct (on_timeout_spec env st0) as (st1 & trf1 & rf1 & Heqf1 & Heqt & _).
    rewrite Heqf in Heqf1. injection Heqf1 as <- <- <-.
    rewrite Heqt. reflexivity. }
  destruct (cycle_of_body env st _ _ _ Hbody) as (handled & Hc & Hq & _).
  exists st', trf, rf, handled.
  split; [exact Heqf|]. split; [exact Hbuf|]. split.
  { rewrite Hc. rewrite <- !app_assoc. reflexivity. }
  split.
  { apply Forall_app. split; [apply flush_events_no_xack; exact Hev|].
    eapply List.Forall_impl; [|exact Hq]. intros ev [H _]. exact H. }
  split.
  { intros Hreach Hok.
    destruct (flush_success (ce_flush env) st0) as (st2 & tr2 & Hf & Hb2 & _ & _ & Hc2);
      [congruence | assumption | assumption |].
    rewrite Heqf in Hf. injection Hf as <- <- ->.
    rewrite <- Hbuf. auto. }
  split; [exact Hclear|].
  intros Hfail. destruct (Hkeep Hfail) as [Hsame Herr].
  split; [congruence | exact Herr].
Qed.

Lemma C4_timeout_flushes_residual_buffer_witness :
  exists st' trf handled,
    cycle (turn [] db_ok) (listening [round_trip_row])
    = (st',
       [] ++ [EvXReadGroup GROUP_NAME CONSUMER_NAME [(stream7, ">")]
                BATCH_SIZE BLOCK_TIMEOUT_MS;
              EvLog LogTimeoutFlush] ++ trf ++ handled,
       Ok tt)
    /\ data_buffer st' = []
    /\ flush_committed [round_trip_row] trf
    /\ length [round_trip_row] < BATCH_SIZE.
Proof.
  destruct (C4_timeout_flushes_residual_buffer
              (turn [] db_ok) (listening [round_trip_row])
              (listening [round_trip_row]) [])
    as (st' & trf & rf & handled & _ & _ & Hc & _ & Hok & _);
    [reflexivity | discriminate | reflexivity | discriminate |].
  destruct Hok as (_ & Hempty & Hcommitted).
  - exists (listening [round_trip_row]), []. reflexivity.
  - repeat split.
  - exists st', trf, handled. split; [exact Hc|]. split; [exact Hempty|].
    split; [exact Hcommitted|]. unfold BATCH_SIZE. simpl. lia.
Defined.

(** A timeout turn with one row buffered and a database whose insert
    fails: the flush is triggered, and the buffer still holds the row right
    after. *)
Lemma C4_counterexample :
  ce_read (turn [] db_insert_fails) = Ok []
  /\ data_buffer (listening [round_trip_row]) <> []
  /\ cycle (turn [] db_insert_fails) (listening [round_trip_row])
     = (listening [round_trip_row],
        [EvXReadGroup GROUP_NAME CONSUMER_NAME [(stream7, ">")]
           BATCH_SIZE BLOCK_TIMEOUT_MS;
         EvLog LogTimeoutFlush;
         EvDbExecuteValues SQL_INSERT_QUERY [round_trip_row] BATCH_SIZE;
         EvLog (LogFlushError OperationalError);
         EvDbRollback],
        Ok tt)
  /\ data_buffer (listening [round_trip_row]) = [round_trip_row].
Proof.
  split; [reflexivity|]. split; [discriminate|].
  split; [vm_compute; reflexivity | reflexivity].
Qed.



(** ** Entries that are committed but never acknowledged *)

(** C2 (the code at the failing run).  One entry is read in a turn that
    leaves the buffer below the batch size; the next read times out and the
    residual flush commits the entry's row.  The run, shutdown included,
    issues no [xack] at all: the entry stays pending although its row is
    committed, where the claim has it acknowledged. *)
Theorem C2_committed_entry_is_never_acknowledged :
  run_persistor read_then_timeout initial_state
  = ({| data_buffer := [];
        acks_to_send := [(stream7, ["1700000000500-0"])];
        db_conn := Some fresh_connection;
        streams_to_listen := [(stream7, ">")] |},
     [EvLog LogStarting; EvSetupDatabase; EvDbConnect;
      EvLog LogDiscovering; EvKeys STREAM_KEY_PATTERN;
      EvXGroupCreate stream7 GROUP_NAME; EvLog (LogGroupExists stream7);
      EvDbConnect; EvLog (LogRegisterError 7 (NameError "datetime"));
      EvDbClose; EvLog (LogListening 1);
      EvXReadGroup GROUP_NAME CONSUMER_NAME [(stream7, ">")]
        BATCH_SIZE BLOCK_TIMEOUT_MS;
      EvXReadGroup GROUP_NAME CONSUMER_NAME [(stream7, ">")]
        BATCH_SIZE BLOCK_TIMEOUT_MS;
      EvLog LogTimeoutFlush;
      EvDbExecuteValues SQL_INSERT_QUERY [round_trip_row] BATCH_SIZE;
      EvDbCommit; EvLog (LogFlushOk 1);
      EvLog LogShuttingDown; EvDbClose; EvLog LogStopped],
     Ok tt).
Proof. vm_compute. reflexivity. Qed.

(** The mapper on an entry whose [ts] does not convert: the conversion
    error is handled, the row's time is None, the row is kept out of the
    buffer and the id is queued. *)
Lemma unparseable_ts_dropped_and_queued
    (stream id : string) (msg : gmap string value) (v : value) (st : state) :
  msg !! "ts" = Some v ->
  to_datetime v = Raise ValueError \/ to_datetime v = Raise TypeError ->
  process_message stream (id, msg) st
  = (set_acks_to_send (queue_ack stream id (acks_to_send st)) st, [], Ok tt).
Proof.
  intros Hts Hbad.
  destruct (format_row_columns msg VNone (time_of_entry_unparseable msg v Hts Hbad))
    as (msg' & r & Hrow & _ & Htime & _).
  unfold process_message. rewrite Hrow. prog_unfold. simpl.
  destruct r as [|t r]; [discriminate|]. injection Htime as ->. simpl.
  destruct st; reflexivity.
Qed.

(** C8 (the code at the failing input).  An entry without a [ts] field
    makes [format_row_from_redis] raise [KeyError], which its handler for
    [TypeError] and [ValueError] lets through.  In the turn that reads such
    an entry between two good ones, the first entry is buffered and queued,
    the entry without [ts] is not recorded in the ack map, the one after it
    is not looked at, and the turn ends in the loop's catch-all handler with
    neither flush nor acknowledgment. *)
Theorem C8_entry_without_ts_is_not_queued :
  entry_without_ts !! "ts" = None
  /\ format_row_from_redis entry_without_ts = Raise (KeyError "ts")
  /\ cycle
       (turn [(stream7, [("1-0", round_trip_entry);
                         ("2-0", entry_without_ts);
                         ("3-0", round_trip_entry)])] db_ok)
       (listening [])
     = ({| data_buffer := [round_trip_row];
           acks_to_send := [(stream7, ["1-0"])];
           db_conn := Some fresh_connection;
           streams_to_listen := [(stream7, ">")] |},
        [EvXReadGroup GROUP_NAME CONSUMER_NAME [(stream7, ">")]
           BATCH_SIZE BLOCK_TIMEOUT_MS;
         EvLog (LogUnexpectedError (KeyError "ts"));
         EvSleep 1],
        Ok tt).
Proof.
  split; [vm_compute; reflexivity|]. split; vm_compute; reflexivity.
Qed.

(** The same turn with a [ts] that is not a number instead: the row is
    dropped, all three ids are queued. *)
Lemma turn_with_unparseable_ts :
  cycle
    (turn [(stream7, [("1-0", round_trip_entry);
                      ("2-0", entry_with_bad_ts);
                      ("3-0", round_trip_entry)])] db_ok)
    (listening [])
  = ({| data_buffer := [round_trip_row; round_trip_row];
        acks_to_send := [(stream7, ["1-0"; "2-0"; "3-0"])];
        db_conn := Some fresh_connection;
        streams_to_listen := [(stream7, ">")] |},
     [EvXReadGroup GROUP_NAME CONSUMER_NAME [(stream7, ">")]
        BATCH_SIZE BLOCK_TIMEOUT_MS],
     Ok tt).
Proof. vm_compute. reflexivity. Qed.

(** ** The lag monitor *)

Import StatusManager.

Lemma rvalue_eqb_eq (a b : rvalue) : rvalue_eqb a b = true <-> a = b.
Proof.
  destruct a, b; simpl; split; intros H; try discriminate; try reflexivity.
  - apply Z.eqb_eq in H. congruence.
  - injection H as ->. apply Z.eqb_refl.
  - apply String.eqb_eq in H. congruence.
  - injection H as ->. apply String.eqb_refl.
Qed.

Lemma scan_groups_other (groups : list group_info) (rest : list group_info) :
  Forall other_group groups ->
  scan_groups (groups ++ rest) = scan_groups rest.
Proof.
  induction 1 as [|g groups (v & Hname & Hne) _ IH]; simpl; [reflexivity|].
  unfold getitem. rewrite Hname. simpl.
  destruct (rvalue_eqb v (RStr PERSISTOR_GROUP_NAME)) eqn:Heq.
  - apply rvalue_eqb_eq in Heq. contradiction.
  - exact IH.
Qed.

Lemma scan_groups_absent (groups : list group_info) :
  Forall other_group groups -> scan_groups groups = Ok Awaiting.
Proof.
  intros H. rewrite <- (app_nil_r groups). rewrite (scan_groups_other _ [] H).
  reflexivity.
Qed.

Lemma scan_groups_found (pre post : list group_info) (g : group_info)
    (lag pending consumers : rvalue) :
  Forall other_group pre ->
  g !! "name" = Some (RStr PERSISTOR_GROUP_NAME) ->
  g !! "lag" = Some lag -> g !! "pending" = Some pending ->
  g !! "consumers" = Some consumers ->
  scan_groups (pre ++ g :: post) = Ok (Monitored lag pending consumers).
Proof.
  intros Hpre Hname Hlag Hpend Hcons. rewrite (scan_groups_other _ _ Hpre).
  simpl. unfold getitem. rewrite Hname, Hlag, Hpend, Hcons. reflexivity.
Qed.

Lemma stream_report_spec {S : Type} (view : redis_view) (stream : string) (s : S) :
  stream_report view stream s
  = (s, [EvXInfoGroups stream], Ok (status_of view stream)).
Proof.
  unfold stream_report, status_of, status_of_error. prog_unfold.
  destruct (rv_xinfo_groups view stream) as [groups|e]; simpl.
  - destruct (scan_groups groups) as [st|e]; simpl; [reflexivity|].
    destruct e; reflexivity.
  - destruct e; reflexivity.
Qed.

Lemma stream_reports_spec {S : Type} (view : redis_view) (names : list string) (s : S) :
  forall status,
    stream_reports view names status s
    = (s, map EvXInfoGroups names,
       Ok (fold_left (fun m n => <[n := status_of view n]> m) names status)).
Proof.
  induction names as [|n names IH]; intros status; simpl; [reflexivity|].
  unfold bind. rewrite stream_report_spec, IH. reflexivity.
Qed.

Lemma reports_lookup (view : redis_view) (names : list string) (stream : string) :
  In stream names ->
  forall status : gmap string stream_status,
    fold_left (fun m n => <[n := status_of view n]> m) names status !! stream
    = Some (status_of view stream).
Proof.
  assert (Hkeep : forall names (status : gmap string stream_status),
            status !! stream = Some (status_of view stream) ->
            fold_left (fun m n => <[n := status_of view n]> m) names status !! stream
            = Some (status_of view stream)).
  { induction names0 as [|n names0 IH]; intros status Hs; simpl; [exact Hs|].
    apply IH. destruct (decide (n = stream)) as [->|Hne].
    - apply lookup_insert_eq.
    - rewrite lookup_insert_ne by assumption. exact Hs. }
  induction names as [|n names IH]; intros Hin status; simpl; [contradiction|].
  destruct Hin as [->|Hin].
  - apply Hkeep. apply lookup_insert_eq.
  - apply IH. exact Hin.
Qed.

(** C9.  [get_persistor_status] always returns a report and raises
    nothing; the report does not depend on the state of the process it runs
    in, which it leaves as it is, and all it sends to Redis are the
    read-only queries KEYS and XINFO GROUPS.  For every stream found, the
    entry of a stream whose persistor group exists carries the lag, the
    pending count and the consumer count of that group's metadata as
    returned by XINFO GROUPS, and the entry of a stream on which that group
    does not exist yet is the awaiting status. *)
Theorem C9_persistor_status_from_group_metadata (view : redis_view) :
  exists tr report,
    (forall (S : Type) (s : S),
        get_persistor_status (Some view) s = (s, tr, Ok report))
    /\ Forall read_only tr
    /\ forall names stream,
         rv_keys view = Ok names -> In stream names ->
         exists status,
           report = ReportStreams status
           /\ forall groups,
                rv_xinfo_groups view stream = Ok groups ->
                (forall pre g post lag pending consumers,
                    groups = pre ++ g :: post ->
                    Forall other_group pre ->
                    g !! "name" = Some (RStr PERSISTOR_GROUP_NAME) ->
                    g !! "lag" = Some lag ->
                    g !! "pending" = Some pending ->
                    g !! "consumers" = Some consumers ->
                    status !! stream = Some (Monitored lag pending consumers))
                /\ (Forall other_group groups ->
                    status !! stream = Some Awaiting).
Proof.
  destruct (rv_keys view) as [[|n names]|e] eqn:Hkeys.
  - exists [EvKeys STREAM_KEY_PATTERN], ReportNoStreams. split; [|split].
    + intros S s. unfold get_persistor_status. prog_unfold. rewrite Hkeys.
      reflexivity.
    + repeat constructor.
    + intros names stream [= <-] [].
  - exists (EvKeys STREAM_KEY_PATTERN :: map EvXInfoGroups (n :: names)),
      (ReportStreams
         (fold_left (fun m k => <[k := status_of view k]> m) (n :: names) ∅)).
    split; [|split].
    + intros S s. unfold get_persistor_status.
      unfold try_except, bind at 1, emit at 1. unfold bind at 1, lift at 1.
      rewrite Hkeys. unfold bind at 1. rewrite stream_reports_spec.
      unfold ret. simpl. rewrite app_nil_r. reflexivity.
    + constructor; [split; reflexivity|].
      generalize (n :: names). intros l. induction l; simpl; constructor; auto.
      split; reflexivity.
    + intros names' stream [= <-] Hin. eexists. split; [reflexivity|].
      intros groups Hgroups.
      rewrite (reports_lookup view (n :: names) stream Hin).
      unfold status_of. rewrite Hgroups. split.
      * intros pre g post lag pending consumers -> Hpre Hname Hlag Hpend Hcons.
        rewrite (scan_groups_found pre post g lag pending consumers);
          auto.
      * intros Hall. rewrite (scan_groups_absent groups Hall). reflexivity.
  - exists [EvKeys STREAM_KEY_PATTERN; EvLog (LogStatusError e)],
      (ReportError (str_of_exc e)).
    split; [|split].
    + intros S s. unfold get_persistor_status. prog_unfold. rewrite Hkeys.
      reflexivity.
    + repeat constructor.
    + intros names stream [=].
Qed.

Lemma C9_persistor_status_from_group_metadata_witness :
  exists tr status,
    get_persistor_status (Some two_streams_view) (listening [round_trip_row])
    = (listening [round_trip_row], tr, Ok (ReportStreams status))
    /\ status !! "pmu_data_stream:1"
       = Some (Monitored (RInt 7) (RInt 7) (RInt 1))
    /\ status !! "pmu_data_stream:2" = Some Awaiting.
Proof.
  destruct (C9_persistor_status_from_group_metadata two_streams_view)
    as (tr & report & Hrun & _ & Hstreams).
  assert (Hother : other_group other_group_info).
  { exists (RStr "audit_group"). split; [reflexivity | discriminate]. }
  destruct (Hstreams ["pmu_data_stream:1"; "pmu_data_stream:2"]
              "pmu_data_stream:1" eq_refl ltac:(left; reflexivity))
    as (status & -> & H1).
  destruct (Hstreams ["pmu_data_stream:1"; "pmu_data_stream:2"]
              "pmu_data_stream:2" eq_refl ltac:(right; left; reflexivity))
    as (status' & [= <-] & H2).
  exists tr, status. split; [apply Hrun|]. split.
  - apply (proj1 (H1 _ eq_refl) [other_group_info] persistor_group_info []
             (RInt 7) (RInt 7) (RInt 1));
      [reflexivity | repeat constructor; exact Hother | reflexivity ..].
  - apply (proj2 (H2 _ eq_refl)). repeat constructor. exact Hother.
Defined.

(* ===================================================================== *)
(** * Further properties of the modelled code                             *)
(* ===================================================================== *)

Import Coverage.

(** ** The retry budget of [get_db_connection] *)

Lemma connect_loop_retries {S : Type} (answers : nat -> result unit) (s : S) :
  forall k m n,
    (forall j, j < k -> answers (n + j) = Raise OperationalError) ->
    connect_loop answers (k + m) n s
    = match connect_loop answers m (n + k) s with
      | (s', tr, r) => (s', retry_events k ++ tr, r)
      end.
Proof.
  induction k as [|k IH]; intros m n Hfail.
  - simpl. rewrite Nat.add_0_r.
    destruct (connect_loop answers m n s) as [[s' tr] r]. reflexivity.
  - assert (H0 : answers n = Raise OperationalError).
    { rewrite <- (Nat.add_0_r n). apply Hfail. lia. }
    change (Datatypes.S k + m) with (Datatypes.S (k + m)).
    cbn [connect_loop]. prog_unfold. rewrite H0.
    rewrite (IH m (Datatypes.S n)).
    + replace (Datatypes.S n + k) with (n + Datatypes.S k) by lia.
      destruct (connect_loop answers m (n + Datatypes.S k) s) as [[s' tr] r].
      reflexivity.
    + intros j Hj. replace (Datatypes.S n + j) with (n + Datatypes.S j) by lia.
      apply Hfail. lia.
Qed.

Lemma seconds_slept_app (tr1 tr2 : list event) :
  seconds_slept (tr1 ++ tr2) = seconds_slept tr1 + seconds_slept tr2.
Proof.
  induction tr1 as [|ev tr1 IH]; simpl; [reflexivity|].
  destruct ev; rewrite IH; lia.
Qed.

Lemma seconds_slept_retries (k : nat) : seconds_slept (retry_events k) = 5 * k.
Proof. induction k as [|k IH]; simpl; [reflexivity | rewrite IH; lia]. Qed.

Lemma connect_attempts_app (tr1 tr2 : list event) :
  connect_attempts (tr1 ++ tr2) = connect_attempts tr1 + connect_attempts tr2.
Proof. unfold connect_attempts. rewrite List.filter_app, length_app. reflexivity. Qed.

Lemma connect_attempts_retries (k : nat) : connect_attempts (retry_events k) = k.
Proof.
  induction k as [|k IH]; [reflexivity|].
  change (retry_events (Datatypes.S k))
    with ([EvDbConnect; EvLog (LogConnectRetry OperationalError); EvSleep 5]
          ++ retry_events k).
  rewrite connect_attempts_app, IH. reflexivity.
Qed.

(** X1.  When the first [k] connection attempts (k < 10) fail with
    OperationalError and the next one succeeds, [get_db_connection] returns
    the new connection after exactly [k + 1] attempts and [k] pauses of
    5 s, and leaves the caller's state alone. *)
Theorem X1_connection_after_retries
    (S : Type) (answers : nat -> result unit) (s : S) (k : nat) :
  k < 10 ->
  (forall j, j < k -> answers j = Raise OperationalError) ->
  answers k = Ok tt ->
  get_db_connection answers s
  = (s, retry_events k ++ [EvDbConnect], Ok fresh_connection)
  /\ connect_attempts (retry_events k ++ [EvDbConnect]) = k + 1
  /\ seconds_slept (retry_events k ++ [EvDbConnect]) = 5 * k.
Proof.
  intros Hk Hfail Hok. split; [|split].
  - unfold get_db_connection. unfold bind at 1.
    replace 10 with (k + Datatypes.S (9 - k)) by lia.
    rewrite (connect_loop_retries answers s k (Datatypes.S (9 - k)) 0 Hfail).
    cbn [connect_loop Nat.add]. prog_unfold. rewrite Hok.
    rewrite !app_nil_r. reflexivity.
  - rewrite connect_attempts_app, connect_attempts_retries. reflexivity.
  - rewrite seconds_slept_app, seconds_slept_retries. simpl. lia.
Qed.

Lemma X1_connection_after_retries_witness :
  get_db_connection third_time_lucky tt
  = (tt, retry_events 2 ++ [EvDbConnect], Ok fresh_connection)
  /\ connect_attempts (retry_events 2 ++ [EvDbConnect]) = 3
  /\ seconds_slept (retry_events 2 ++ [EvDbConnect]) = 10.
Proof.
  apply (X1_connection_after_retries unit third_time_lucky tt 2).
  - lia.
  - intros j Hj. destruct j as [|[|j]]; [reflexivity | reflexivity | lia].
  - reflexivity.
Defined.

(** X2.  When ten connection attempts in a row fail with
    OperationalError, [get_db_connection] gives up: it has tried exactly
    ten times and paused ten times 5 s, logs the critical line and raises
    the generic "Falha na conexão" exception; there is no eleventh
    attempt, whatever it would have answered. *)
Theorem X2_connection_budget_exhausted
    (S : Type) (answers : nat -> result unit) (s : S) :
  (forall j, j < 10 -> answers j = Raise OperationalError) ->
  get_db_connection answers s
  = (s, retry_events 10 ++ [EvLog LogConnectGiveUp],
     Raise (GenericException "Falha na conexão com o banco de dados"))
  /\ connect_attempts (retry_events 10 ++ [EvLog LogConnectGiveUp]) = 10
  /\ seconds_slept (retry_events 10 ++ [EvLog LogConnectGiveUp]) = 50.
Proof.
  intros Hfail. split; [|split; reflexivity].
  unfold get_db_connection. unfold bind at 1.
  change 10 with (10 + 0) at 1.
  rewrite (connect_loop_retries answers s 10 0 0 Hfail).
  cbn [connect_loop]. prog_unfold. rewrite !app_nil_r. reflexivity.
Qed.

Lemma X2_connection_budget_exhausted_witness :
  get_db_connection
    (fun attempt => if (attempt <? 10)%nat then Raise OperationalError else Ok tt) tt
  = (tt, retry_events 10 ++ [EvLog LogConnectGiveUp],
     Raise (GenericException "Falha na conexão com o banco de dados")).
Proof.
  apply (X2_connection_budget_exhausted unit
           (fun attempt => if (attempt <? 10)%nat then Raise OperationalError else Ok tt) tt).
  intros j Hj. apply Nat.ltb_lt in Hj. rewrite Hj. reflexivity.
Defined.

(** X3.  An exception of [psycopg2.connect] other than OperationalError
    is not retried: it leaves [get_db_connection] at once, after the
    attempt that raised it, with no pause and no critical line. *)
Theorem X3_connection_error_not_retried
    (S : Type) (answers : nat -> result unit) (s : S) (k : nat) (e : exc) :
  k < 10 ->
  (forall j, j < k -> answers j = Raise OperationalError) ->
  answers k = Raise e -> e <> OperationalError ->
  get_db_connection answers s = (s, retry_events k ++ [EvDbConnect], Raise e).
Proof.
  intros Hk Hfail He Hne.
  unfold get_db_connection. unfold bind at 1.
  replace 10 with (k + Datatypes.S (9 - k)) by lia.
  rewrite (connect_loop_retries answers s k (Datatypes.S (9 - k)) 0 Hfail).
  cbn [connect_loop Nat.add]. prog_unfold. rewrite He.
  destruct e; try congruence; rewrite ?app_nil_r; reflexivity.
Qed.

Lemma X3_connection_error_not_retried_witness :
  get_db_connection
    (fun attempt => if (attempt <? 1)%nat then Raise OperationalError
                    else Raise DatabaseError) tt
  = (tt, retry_events 1 ++ [EvDbConnect], Raise DatabaseError).
Proof.
  apply (X3_connection_error_not_retried unit
           (fun attempt => if (attempt <? 1)%nat then Raise OperationalError
                           else Raise DatabaseError) tt 1 DatabaseError).
  - lia.
  - intros j Hj. destruct j; [reflexivity | lia].
  - reflexivity.
  - discriminate.
Defined.

(** ** The flush and its connection *)

Lemma connect_loop_ok_fresh {S : Type} (answers : nat -> result unit) (s : S) :
  forall retries n s' tr c,
    connect_loop answers retries n s = (s', tr, Ok (Some c)) ->
    c = fresh_connection.
Proof.
  induction retries as [|retries IH]; intros n s' tr c; simpl.
  - prog_unfold. intros [=].
  - prog_unfold. destruct (answers n) as [[]|e].
    + simpl. intros [= _ _ <-]. reflexivity.
    + destruct e; simpl; try (intros [=]; fail).
      destruct (connect_loop answers retries (Datatypes.S n) s) as [[s1 tr1] r1] eqn:Hloop.
      destruct r1 as [o|e1]; simpl; [|intros [=]].
      intros [= _ _ ->]. exact (IH _ _ _ _ Hloop).
Qed.

Lemma get_db_connection_ok_fresh {S : Type} (answers : nat -> result unit)
    (s s' : S) (tr : list event) (c : connection) :
  get_db_connection answers s = (s', tr, Ok c) -> c = fresh_connection.
Proof.
  unfold get_db_connection. unfold bind at 1.
  destruct (connect_loop answers 10 0 s) as [[s1 tr1] r1] eqn:Hloop.
  destruct r1 as [[c1|]|e1]; prog_unfold; simpl; try (intros [=]; fail).
  intros [= _ _ <-]. exact (connect_loop_ok_fresh answers s _ _ _ _ _ Hloop).
Qed.

Lemma ensure_connection_lost (env : flush_env) (st : state)
    (trc : list event) (r : result connection) :
  connection_lost (db_conn st) = true ->
  get_db_connection (fe_connect env) st = (st, trc, r) ->
  ensure_connection env st
  = match r with
    | Ok c => (set_db_conn (Some (set_autocommit false c)) st,
               EvLog LogReconnecting :: trc, Ok tt)
    | Raise e => (st, EvLog LogReconnecting :: trc, Raise e)
    end.
Proof.
  intros Hlost Hconn. unfold ensure_connection. prog_unfold.
  rewrite Hlost, Hconn. destruct r; simpl; rewrite ?app_nil_r; reflexivity.
Qed.

Lemma flush_events_no_redis (tr : list event) :
  Forall (fun ev => flush_event ev = true) tr ->
  Forall (fun ev => is_redis_call ev = false) tr.
Proof.
  intros H. eapply List.Forall_impl; [|exact H]. intros ev Hev.
  event_cases ev; try discriminate; reflexivity.
Qed.

(** X4.  Whatever the database does, [flush_buffer_to_db] leaves the
    write buffer either empty - exactly when it returns True - or exactly
    as it was, never partly written off; it never touches the ack map or
    the stream set and never calls Redis.  A True on a non-empty buffer
    means that the whole buffer went out in one bulk insert that was
    committed. *)
Theorem X4_flush_all_or_nothing (env : flush_env) (st : state) :
  exists st' tr r,
    flush_buffer_to_db env st = (st', tr, r)
    /\ acks_to_send st' = acks_to_send st
    /\ streams_to_listen st' = streams_to_listen st
    /\ Forall (fun ev => is_redis_call ev = false) tr
    /\ ((r = Ok true /\ data_buffer st' = [])
        \/ (r <> Ok true /\ data_buffer st' = data_buffer st))
    /\ (r = Ok true -> data_buffer st <> [] ->
        flush_committed (data_buffer st) tr).
Proof.
  destruct (flush_outcomes env st)
    as (st' & tr & r & Heq & Ha & Hs & Hev & Hclear & Hcommit & Hkeep).
  exists st', tr, r. split; [exact Heq|]. split; [exact Ha|].
  split; [exact Hs|]. split; [apply flush_events_no_redis; exact Hev|]. split.
  - destruct r as [[|]|e].
    + left. split; [reflexivity | apply Hclear; reflexivity].
    + right. split; [discriminate | apply Hkeep; discriminate].
    + right. split; [discriminate | apply Hkeep; discriminate].
  - intros Hr Hne. apply (Hcommit Hr Hne).
Qed.

Lemma X4_flush_all_or_nothing_witness :
  exists st' tr,
    flush_buffer_to_db db_ok (listening [round_trip_row; round_trip_row])
    = (st', tr, Ok true)
    /\ data_buffer st' = []
    /\ flush_committed [round_trip_row; round_trip_row] tr.
Proof.
  destruct (X4_flush_all_or_nothing db_ok (listening [round_trip_row; round_trip_row]))
    as (st' & tr & r & Heq & _ & _ & _ & Hcases & Hcommit).
  assert (Hr : r = Ok true).
  { assert (Hc : snd (flush_buffer_to_db db_ok
                        (listening [round_trip_row; round_trip_row])) = Ok true)
      by (vm_compute; reflexivity).
    rewrite Heq in Hc. exact Hc. }
  subst r. exists st', tr. split; [exact Heq|]. split.
  - destruct Hcases as [[_ H]|[H _]]; [exact H | congruence].
  - apply Hcommit; [reflexivity | discriminate].
Defined.

(** X5.  When the connection is lost ([db_conn] None or closed) and the
    reconnect fails, a flush of a non-empty buffer sends neither an insert
    nor a commit and leaves the whole state as it was.  With no
    connection object at all it returns False without a rollback; with a
    closed one it still calls [rollback] on it, and returns False only if
    that call returns. *)
Theorem X5_flush_without_connection
    (env : flush_env) (st : state) (trc : list event) (e : exc) :
  data_buffer st <> [] ->
  connection_lost (db_conn st) = true ->
  get_db_connection (fe_connect env) st = (st, trc, Raise e) ->
  exists tr r,
    flush_buffer_to_db env st = (st, tr, r)
    /\ Forall (fun ev => is_db_write ev = false) tr
    /\ (db_conn st = None ->
        tr = EvLog LogReconnecting :: trc ++ [EvLog (LogFlushError e)]
        /\ r = Ok false)
    /\ (forall c, db_conn st = Some c ->
        tr = EvLog LogReconnecting :: trc
             ++ [EvLog (LogFlushError e); EvDbRollback]
        /\ r = match fe_rollback env with
               | Ok _ => Ok false
               | Raise e' => Raise e'
               end).
Proof.
  intros Hne Hlost Hconn.
  destruct (get_db_connection_spec (fe_connect env) st) as (trc' & r' & Heq & Hall).
  rewrite Hconn in Heq. injection Heq as <- <-.
  assert (Hnow : Forall (fun ev => is_db_write ev = false) (EvLog LogReconnecting :: trc)).
  { constructor; [reflexivity|]. eapply List.Forall_impl; [|exact Hall].
    intros ev Hev. event_cases ev; try discriminate; reflexivity. }
  rewrite (flush_nonempty env st Hne). cbv zeta.
  rewrite (ensure_connection_lost env st trc (Raise e) Hlost Hconn).
  unfold flush_handler. rewrite (mark_closed_lost (fe_breaks env) st Hlost).
  destruct (db_conn st) as [c|] eqn:Hc.
  - destruct (fe_rollback env) as [[]|e'];
      (eexists _, _; split; [reflexivity|]; split;
       [apply (Forall_app _ (EvLog LogReconnecting :: trc)); split;
        [exact Hnow | repeat constructor]|]);
      (split; [discriminate|]); intros c' _; split; reflexivity.
  - eexists _, _. split; [reflexivity|]. split.
    + apply (Forall_app _ (EvLog LogReconnecting :: trc)). split;
        [exact Hnow | repeat constructor].
    + split; [intros _; split; reflexivity | discriminate].
Qed.

Lemma X5_flush_without_connection_witness :
  flush_buffer_to_db db_unreachable (unconnected [round_trip_row])
  = (unconnected [round_trip_row],
     EvLog LogReconnecting
       :: (retry_events 10 ++ [EvLog LogConnectGiveUp])
       ++ [EvLog (LogFlushError
                    (GenericException "Falha na conexão com o banco de dados"))],
     Ok false).
Proof.
  destruct (X5_flush_without_connection db_unreachable (unconnected [round_trip_row])
              (retry_events 10 ++ [EvLog LogConnectGiveUp])
              (GenericException "Falha na conexão com o banco de dados"))
    as (tr & r & Heq & _ & Hnone & _).
  - discriminate.
  - reflexivity.
  - vm_compute. reflexivity.
  - destruct (Hnone eq_refl) as [-> ->]. exact Heq.
Defined.

Lemma get_db_connection_connects {S : Type} (answers : nat -> result unit)
    (s : S) (k : nat) :
  k < 10 ->
  (forall j, j < k -> answers j = Raise OperationalError) ->
  answers k = Ok tt ->
  get_db_connection answers s
  = (s, retry_events k ++ [EvDbConnect], Ok fresh_connection).
Proof.
  intros Hk Hfail Hok.
  unfold get_db_connection. unfold bind at 1.
  replace 10 with (k + Datatypes.S (9 - k)) by lia.
  rewrite (connect_loop_retries answers s k (Datatypes.S (9 - k)) 0 Hfail).
  cbn [connect_loop Nat.add]. prog_unfold. rewrite Hok.
  rewrite !app_nil_r. reflexivity.
Qed.

Lemma connect_attempts_reconnect (k : nat) (tl : list event) :
  connect_attempts tl = 0 ->
  connect_attempts (EvLog LogReconnecting :: retry_events k ++ [EvDbConnect] ++ tl)
  = k + 1.
Proof.
  intros Htl.
  change (EvLog LogReconnecting :: retry_events k ++ [EvDbConnect] ++ tl)
    with ([EvLog LogReconnecting] ++ retry_events k ++ [EvDbConnect] ++ tl).
  rewrite !connect_attempts_app, connect_attempts_retries, Htl.
  change (connect_attempts [EvLog LogReconnecting]) with 0.
  change (connect_attempts [EvDbConnect]) with 1. lia.
Qed.

(** X6.  [flush_buffer_to_db] opens a connection only when it has to: on
    an empty buffer it does nothing at all, even with the connection lost;
    with a live connection it never connects and [db_conn] stays that
    connection; with a lost connection and a reconnect that succeeds,
    [db_conn] is from then on the new connection, with autocommit off,
    whether the insert that follows succeeds or not.  In both cases the
    connection is closed afterwards only when a call of this flush failed
    on a broken link. *)
Theorem X6_flush_reconnects_only_when_lost (env : flush_env) (st : state) :
  (data_buffer st = [] -> flush_buffer_to_db env st = (st, [], Ok true))
  /\ (forall c,
        db_conn st = Some c -> closed c = false ->
        exists st' tr r,
          flush_buffer_to_db env st = (st', tr, r)
          /\ connect_attempts tr = 0
          /\ (db_conn st' = Some c
              \/ (r <> Ok true /\ fe_breaks env = true
                  /\ db_conn st'
                     = Some {| closed := true; autocommit := autocommit c |})))
  /\ (forall k,
        data_buffer st <> [] ->
        connection_lost (db_conn st) = true ->
        k < 10 ->
        (forall j, j < k -> fe_connect env j = Raise OperationalError) ->
        fe_connect env k = Ok tt ->
        exists st' tr r,
          flush_buffer_to_db env st = (st', tr, r)
          /\ connect_attempts tr = k + 1
          /\ (db_conn st' = Some {| closed := false; autocommit := false |}
              \/ (r <> Ok true /\ fe_breaks env = true
                  /\ db_conn st'
                     = Some {| closed := true; autocommit := false |}))).
Proof.
  split; [apply flush_empty|]. split.
  - intros [cl ac] Hc Hcl. simpl in Hcl. subst cl.
    assert (Halive : connection_lost (db_conn st) = false)
      by (rewrite Hc; reflexivity).
    destruct (data_buffer st) as [|r0 rows] eqn:Hbuf.
    + rewrite (flush_empty env st Hbuf). eexists _, _, _.
      split; [reflexivity|]. split; [reflexivity|]. left. exact Hc.
    + assert (Hne : data_buffer st <> []) by congruence.
      rewrite (flush_nonempty env st Hne). cbv zeta.
      rewrite (ensure_connection_alive env st Halive).
      unfold flush_handler, mark_closed. rewrite Hc. simpl.
      destruct (fe_breaks env);
        (destruct (fe_cursor env) as [[]|e1];
         [destruct (fe_execute_values env) as [[]|e2];
          [destruct (fe_commit env) as [[]|e3]|]|]);
        try destruct (fe_rollback env) as [[]|e4];
        (eexists _, _, _; split; [reflexivity|]; split; [reflexivity|]);
        simpl;
        first [ left; first [exact Hc | reflexivity]
              | right; split; [discriminate|]; split; reflexivity ].
  - intros k Hne Hlost Hk Hfail Hok.
    pose proof (get_db_connection_connects (fe_connect env) st k Hk Hfail Hok)
      as Hconn.
    rewrite (flush_nonempty env st Hne). cbv zeta.
    rewrite (ensure_connection_lost env st _ (Ok fresh_connection) Hlost Hconn).
    unfold flush_handler, mark_closed. simpl.
    destruct (fe_breaks env);
      (destruct (fe_cursor env) as [[]|e1];
       [destruct (fe_execute_values env) as [[]|e2];
        [destruct (fe_commit env) as [[]|e3]|]|]);
      try destruct (fe_rollback env) as [[]|e4];
      (eexists _, _, _; split; [reflexivity|]; split;
       [rewrite <- ?app_assoc; apply connect_attempts_reconnect; reflexivity|]);
      simpl;
      first [ left; reflexivity
            | right; split; [discriminate|]; split; reflexivity ].
Qed.

Lemma X6_flush_reconnects_only_when_lost_witness :
  (exists st' tr r,
      flush_buffer_to_db db_insert_fails (listening [round_trip_row]) = (st', tr, r)
      /\ connect_attempts tr = 0
      /\ (db_conn st' = Some fresh_connection
          \/ (r <> Ok true /\ fe_breaks db_insert_fails = true
              /\ db_conn st'
                 = Some {| closed := true;
                           autocommit := autocommit fresh_connection |})))
  /\ (exists st' tr r,
        flush_buffer_to_db db_reconnects_then_breaks (unconnected [round_trip_row])
        = (st', tr, r)
        /\ connect_attempts tr = 2 + 1
        /\ (db_conn st' = Some {| closed := false; autocommit := false |}
            \/ (r <> Ok true /\ fe_breaks db_reconnects_then_breaks = true
                /\ db_conn st'
                   = Some {| closed := true; autocommit := false |}))).
Proof.
  split.
  - apply (proj1 (proj2 (X6_flush_reconnects_only_when_lost db_insert_fails
                           (listening [round_trip_row]))) fresh_connection);
      reflexivity.
  - apply (proj2 (proj2 (X6_flush_reconnects_only_when_lost
                           db_reconnects_then_breaks
                           (unconnected [round_trip_row]))) 2).
    + discriminate.
    + reflexivity.
    + lia.
    + intros j Hj. destruct j as [|[|j]]; [reflexivity | reflexivity | lia].
    + reflexivity.
Defined.

(** ** Reading: the buffer and the ack map *)

Lemma queued_app (old : option (list string)) (a b : list string) :
  queued (queued old a) b = queued old (a ++ b).
Proof.
  destruct a as [|x a]; [reflexivity|].
  destruct b as [|y b]; simpl.
  - rewrite app_nil_r. reflexivity.
  - rewrite <- app_assoc. reflexivity.
Qed.

Lemma queue_ack_get (s s0 i : string) (acks : odict (list string)) :
  odict_get s (queue_ack s0 i acks)
  = if String.eqb s s0 then queued (odict_get s acks) [i] else odict_get s acks.
Proof.
  unfold queue_ack. destruct (String.eqb s s0) eqn:Hs.
  - apply String.eqb_eq in Hs. subst s0.
    destruct (odict_get s acks) as [ids|]; rewrite odict_get_set_eq; reflexivity.
  - apply String.eqb_neq in Hs.
    destruct (odict_get s0 acks); rewrite (odict_get_set_ne _ _ _ _ Hs); reflexivity.
Qed.

(** One entry on which the mapper returns: its row, if it has a time, is
    buffered and its id queued. *)
Lemma process_message_clean (s : string) (e : entry) (st : state) :
  maps_entry e = true ->
  exists st',
    process_message s e st = (st', [], Ok tt)
    /\ data_buffer st' = data_buffer st ++ valid_row e
    /\ acks_to_send st' = queue_ack s (fst e) (acks_to_send st)
    /\ db_conn st' = db_conn st
    /\ streams_to_listen st' = streams_to_listen st.
Proof.
  destruct e as [msg_id msg_data]. unfold maps_entry, process_message, valid_row.
  simpl fst. simpl snd. intros Hclean.
  destruct (format_row_from_redis msg_data) as [[msg' r]|e] eqn:Hf.
  - apply format_row_inv in Hf. destruct Hf as (t & _ & _ & Hr).
    unfold TABLE_COLUMNS in Hr. rewrite map_cons in Hr.
    destruct r as [|t0 r]; [discriminate|].
    prog_unfold. simpl. destruct (is_none t0); simpl;
      (eexists; split; [reflexivity|]); simpl; rewrite ?app_nil_r; auto.
  - unfold format_row_from_redis in Hf.
    destruct (time_of_entry msg_data); [discriminate Hf | discriminate Hclean].
Qed.

Lemma process_messages_clean (s : string) (messages : list entry) :
  forall st,
    forallb maps_entry messages = true ->
    exists st',
      process_messages s messages st = (st', [], Ok tt)
      /\ data_buffer st' = data_buffer st ++ flat_map valid_row messages
      /\ (forall s', odict_get s' (acks_to_send st')
                     = queued (odict_get s' (acks_to_send st))
                         (if String.eqb s' s then map fst messages else []))
      /\ db_conn st' = db_conn st
      /\ streams_to_listen st' = streams_to_listen st.
Proof.
  induction messages as [|e rest IH]; intros st Hclean.
  - exists st. simpl. rewrite app_nil_r. repeat split.
    intros s'. destruct (String.eqb s' s); reflexivity.
  - simpl in Hclean. apply andb_prop in Hclean. destruct Hclean as [He Hrest].
    destruct (process_message_clean s e st He) as (st1 & Heq1 & Hb1 & Ha1 & Hc1 & Hs1).
    destruct (IH st1 Hrest) as (st2 & Heq2 & Hb2 & Ha2 & Hc2 & Hs2).
    exists st2. simpl. unfold bind. rewrite Heq1, Heq2.
    split; [reflexivity|]. split; [rewrite Hb2, Hb1, <- app_assoc; reflexivity|].
    split; [|split; congruence].
    intros s'. rewrite Ha2, Ha1, queue_ack_get.
    destruct (String.eqb s' s); [|reflexivity].
    rewrite queued_app. reflexivity.
Qed.

Lemma process_response_clean (resp : response) :
  forall st,
    maps_cleanly resp = true ->
    exists st',
      process_response resp st = (st', [], Ok tt)
      /\ data_buffer st' = data_buffer st ++ valid_rows resp
      /\ (forall s, odict_get s (acks_to_send st')
                    = queued (odict_get s (acks_to_send st)) (ids_read s resp))
      /\ db_conn st' = db_conn st
      /\ streams_to_listen st' = streams_to_listen st.
Proof.
  induction resp as [|[s0 messages] rest IH]; intros st Hclean.
  - exists st. simpl. unfold valid_rows. simpl. rewrite app_nil_r. repeat split.
  - unfold maps_cleanly in Hclean. simpl in Hclean.
    apply andb_prop in Hclean. destruct Hclean as [Hm Hrest].
    destruct (process_messages_clean s0 messages st Hm)
      as (st1 & Heq1 & Hb1 & Ha1 & Hc1 & Hs1).
    destruct (IH st1 Hrest) as (st2 & Heq2 & Hb2 & Ha2 & Hc2 & Hs2).
    exists st2. simpl. unfold bind. rewrite Heq1, Heq2.
    split; [reflexivity|]. split.
    { rewrite Hb2, Hb1. unfold valid_rows. simpl. rewrite <- app_assoc. reflexivity. }
    split; [|split; congruence].
    intros s. rewrite Ha2, Ha1, queued_app. reflexivity.
Qed.

(** Whatever the entries are, reading only appends to the buffer. *)
Lemma process_response_grows (resp : response) :
  forall st, exists st' r added,
    process_response resp st = (st', [], r)
    /\ data_buffer st' = data_buffer st ++ added.
Proof.
  assert (Hone : forall s e st, exists st' r added,
             process_message s e st = (st', [], r)
             /\ data_buffer st' = data_buffer st ++ added).
  { intros s [msg_id msg_data] st. unfold process_message. prog_unfold.
    destruct (format_row_from_redis msg_data) as [[msg' r]|e]; simpl;
      [|exists st, (Raise e), []; rewrite app_nil_r; auto].
    destruct r as [|t r]; simpl;
      [exists st, (Raise IndexError), []; rewrite app_nil_r; auto|].
    destruct (is_none t); simpl.
    - eexists _, _, []. split; [reflexivity|]. simpl. rewrite app_nil_r. reflexivity.
    - eexists _, _, [t :: r]. split; reflexivity. }
  assert (Hmany : forall s messages st, exists st' r added,
             process_messages s messages st = (st', [], r)
             /\ data_buffer st' = data_buffer st ++ added).
  { intros s messages. induction messages as [|e rest IH]; intros st; simpl.
    - exists st, (Ok tt), []. rewrite app_nil_r. auto.
    - destruct (Hone s e st) as (st1 & r1 & a1 & Heq1 & Hb1).
      unfold bind. rewrite Heq1. destruct r1 as [[]|e1].
      + destruct (IH st1) as (st2 & r2 & a2 & Heq2 & Hb2). rewrite Heq2.
        exists st2, r2, (a1 ++ a2). split; [reflexivity|].
        rewrite Hb2, Hb1, <- app_assoc. reflexivity.
      + exists st1, (Raise e1), a1. auto. }
  induction resp as [|[s messages] rest IH]; intros st; simpl.
  - exists st, (Ok tt), []. rewrite app_nil_r. auto.
  - destruct (Hmany s messages st) as (st1 & r1 & a1 & Heq1 & Hb1).
    unfold bind. rewrite Heq1. destruct r1 as [[]|e1].
    + destruct (IH st1) as (st2 & r2 & a2 & Heq2 & Hb2). rewrite Heq2.
      exists st2, r2, (a1 ++ a2). split; [reflexivity|].
      rewrite Hb2, Hb1, <- app_assoc. reflexivity.
    + exists st1, (Raise e1), a1. auto.
Qed.

(** Steps 6 and 7 of the loop, step by step. *)
Lemma on_entries_unfold (env : cycle_env) (resp : response) (st : state) :
  on_entries env resp st =
  match process_response resp (set_acks_to_send [] st) with
  | (st1, tr1, Raise e) => (st1, tr1, Raise e)
  | (st1, tr1, Ok _) =>
      if (BATCH_SIZE <=? length (data_buffer st1))%nat then
        match flush_buffer_to_db (ce_flush env) st1 with
        | (st2, trf, Raise e) => (st2, tr1 ++ trf, Raise e)
        | (st2, trf, Ok true) =>
            match send_acks env (acks_to_send st2) st2 with
            | (st3, tra, r) => (st3, tr1 ++ trf ++ tra, r)
            end
        | (st2, trf, Ok false) => (st2, tr1 ++ trf ++ [EvLog LogAckWithheld], Ok tt)
        end
      else (st1, tr1, Ok tt)
  end.
Proof.
  unfold on_entries. unfold bind at 1, modify at 1. unfold bind at 1.
  destruct (process_response resp (set_acks_to_send [] st)) as [[st1 tr1] r1].
  destruct r1 as [[]|e1]; [|reflexivity].
  unfold bind at 1, get at 1.
  destruct (BATCH_SIZE <=? length (data_buffer st1))%nat;
    [|simpl; rewrite ?app_nil_r; reflexivity].
  unfold bind at 1.
  destruct (flush_buffer_to_db (ce_flush env) st1) as [[st2 trf] rf].
  destruct rf as [[|]|ef]; [| |simpl; rewrite ?app_nil_r; reflexivity].
  - unfold bind at 1, get at 1.
    destruct (send_acks env (acks_to_send st2) st2) as [[st3 tra] ra].
    simpl. reflexivity.
  - unfold emit. simpl. reflexivity.
Qed.

(** X7.  A read on whose entries the mapper returns - each has a [ts],
    and converting it gives a datetime, a ValueError or a TypeError - and
    that leaves the buffer short of a batch calls nothing outside the
    process.  Afterwards the buffer is the old one followed
    by the rows of the entries read that have a time, in delivery order,
    and the ack map holds for every stream exactly the ids read from it in
    this answer, in delivery order: what an earlier read had queued is
    gone, and entries whose row was dropped for its time are queued like
    the others. *)
Theorem X7_read_below_batch (env : cycle_env) (resp : response) (st : state) :
  maps_cleanly resp = true ->
  length (data_buffer st ++ valid_rows resp) < BATCH_SIZE ->
  exists st',
    on_entries env resp st = (st', [], Ok tt)
    /\ data_buffer st' = data_buffer st ++ valid_rows resp
    /\ (forall s, odict_get s (acks_to_send st') = queued None (ids_read s resp))
    /\ db_conn st' = db_conn st
    /\ streams_to_listen st' = streams_to_listen st.
Proof.
  intros Hclean Hshort.
  destruct (process_response_clean resp (set_acks_to_send [] st) Hclean)
    as (st1 & Heq1 & Hb1 & Ha1 & Hc1 & Hs1).
  simpl in Hb1, Ha1, Hc1, Hs1.
  rewrite on_entries_unfold, Heq1.
  assert (Hleb : (BATCH_SIZE <=? length (data_buffer st1))%nat = false).
  { apply Nat.leb_gt. rewrite Hb1. exact Hshort. }
  rewrite Hleb. exists st1. repeat split; assumption.
Qed.

Lemma X7_read_below_batch_witness :
  exists st',
    on_entries (turn two_stream_answer db_ok) two_stream_answer
      (set_acks_to_send [("pmu_data_stream:7", ["0-1"])] (listening [round_trip_row]))
    = (st', [], Ok tt)
    /\ data_buffer st' = [round_trip_row; round_trip_row; round_trip_row]
    /\ odict_get "pmu_data_stream:7" (acks_to_send st') = Some ["1-0"; "2-0"]
    /\ odict_get "pmu_data_stream:8" (acks_to_send st') = Some ["1-1"].
Proof.
  destruct (X7_read_below_batch (turn two_stream_answer db_ok) two_stream_answer
              (set_acks_to_send [("pmu_data_stream:7", ["0-1"])]
                 (listening [round_trip_row])))
    as (st' & Heq & Hb & Ha & _).
  - vm_compute. reflexivity.
  - apply Nat.ltb_lt. vm_compute. reflexivity.
  - exists st'. split; [exact Heq|]. split; [|split].
    + rewrite Hb. vm_compute. reflexivity.
    + rewrite Ha. reflexivity.
    + rewrite Ha. reflexivity.
Defined.

(** ** Whole turns of the loop *)

(** The [try] block of the loop after the discovery step. *)
Lemma cycle_body_unfold (env : cycle_env) (st st0 : state) (tr0 : list event) :
  rediscover env st = (st0, tr0, Ok tt) ->
  cycle_body env st =
  match streams_to_listen st0 with
  | [] => (st0, tr0 ++ [EvLog LogIdle; EvSleep 10], Ok tt)
  | _ :: _ =>
      let rd := EvXReadGroup GROUP_NAME CONSUMER_NAME (streams_to_listen st0)
                  BATCH_SIZE BLOCK_TIMEOUT_MS in
      match ce_read env with
      | Raise e => (st0, tr0 ++ [rd], Raise e)
      | Ok [] =>
          match on_timeout env st0 with
          | (st', tr, r) => (st', tr0 ++ rd :: tr, r)
          end
      | Ok (d :: resp) =>
          match on_entries env (d :: resp) st0 with
          | (st', tr, r) => (st', tr0 ++ rd :: tr, r)
          end
      end
  end.
Proof.
  intros Hre. unfold cycle_body. unfold bind at 1. rewrite Hre.
  unfold bind at 1, get at 1.
  destruct (streams_to_listen st0) as [|l ls].
  - prog_unfold. simpl. rewrite ?app_nil_r. reflexivity.
  - cbv zeta. unfold bind at 1, emit at 1. unfold bind at 1, lift at 1.
    destruct (ce_read env) as [[|d resp]|e].
    + destruct (on_timeout env st0) as [[st' tr] r]. simpl.
      rewrite ?app_nil_r. reflexivity.
    + destruct (on_entries env (d :: resp) st0) as [[st' tr] r]. simpl.
      rewrite ?app_nil_r. reflexivity.
    + simpl. rewrite ?app_nil_r. reflexivity.
Qed.

Lemma committed_in_ctx (rows : list row) (before flushed after tr : list event) :
  flush_committed rows flushed ->
  tr = before ++ flushed ++ after ->
  committed_in rows tr.
Proof.
  intros Hc ->. exists before, flushed, after. auto.
Qed.

(** X8.  No turn of the loop drops a buffered row: whatever Redis and the
    database do, and whatever exception the turn handles, the buffer
    after the turn is the buffer before it followed by rows added in the
    turn, or it is empty and exactly those rows went out in one bulk
    insert that was committed during the turn. *)
Theorem X8_turn_never_drops_a_row (env : cycle_env) (st : state) :
  exists st' tr added,
    cycle env st = (st', tr, Ok tt)
    /\ (data_buffer st' = data_buffer st ++ added
        \/ (data_buffer st' = []
            /\ committed_in (data_buffer st ++ added) tr)).
Proof.
  destruct (rediscover_spec env st) as (st0 & tr0 & Hre & Hbuf & _ & _ & _ & _).
  assert (Hbody : exists st' tr r added,
            cycle_body env st = (st', tr, r)
            /\ (data_buffer st' = data_buffer st ++ added
                \/ (data_buffer st' = []
                    /\ exists before flushed after,
                         tr = before ++ flushed ++ after
                         /\ flush_committed (data_buffer st ++ added) flushed))).
  { rewrite (cycle_body_unfold env st st0 tr0 Hre). rewrite <- Hbuf.
    destruct (streams_to_listen st0) as [|l ls].
    { eexists _, _, _, []. split; [reflexivity|]. left.
      rewrite app_nil_r. reflexivity. }
    cbv zeta. destruct (ce_read env) as [[|d resp]|e].
    - destruct (on_timeout_spec env st0) as (st' & trf & rf & Heqf & Heq & _).
      rewrite Heq.
      destruct (flush_outcomes (ce_flush env) st0)
        as (st'' & trf' & rf' & Heqf' & _ & _ & _ & Hclear & Hcommit & Hkeep).
      rewrite Heqf in Heqf'. injection Heqf' as <- <- <-.
      eexists _, _, _, []. split; [reflexivity|]. rewrite app_nil_r.
      destruct rf as [[|]|ef].
      + destruct (data_buffer st0) as [|r0 rows] eqn:Hb0.
        * left. apply Hclear. reflexivity.
        * right. split; [apply Hclear; reflexivity|].
          destruct (Hcommit eq_refl ltac:(discriminate)) as [Hc _].
          eexists (tr0 ++ [_; _]), trf, []. split; [|exact Hc].
          rewrite app_nil_r, <- app_assoc. reflexivity.
      + left. apply Hkeep. discriminate.
      + left. apply Hkeep. discriminate.
    - rewrite on_entries_unfold.
      destruct (process_response_grows (d :: resp) (set_acks_to_send [] st0))
        as (st1 & r1 & added & Heq1 & Hb1).
      simpl data_buffer in Hb1. rewrite Heq1.
      destruct r1 as [[]|e1];
        [|eexists _, _, _, added; split; [reflexivity | left; exact Hb1]].
      destruct (BATCH_SIZE <=? length (data_buffer st1))%nat;
        [|eexists _, _, _, added; split; [reflexivity | left; exact Hb1]].
      destruct (flush_outcomes (ce_flush env) st1)
        as (st2 & trf & rf & Heqf & _ & _ & _ & Hclear & Hcommit & Hkeep).
      rewrite Heqf. destruct rf as [[|]|ef].
      + destruct (send_acks_spec env (acks_to_send st2) st2) as (tra & ra & Heqa & _).
        rewrite Heqa. eexists _, _, _, added. split; [reflexivity|].
        destruct (data_buffer st1) as [|r0 rows] eqn:Hb1'.
        * left. rewrite <- Hb1. apply Hclear. reflexivity.
        * right. split; [apply Hclear; reflexivity|].
          destruct (Hcommit eq_refl ltac:(discriminate)) as [Hc _].
          rewrite <- Hb1.
          eexists (tr0 ++ [_]), trf, tra. split; [|exact Hc].
          rewrite <- app_assoc. reflexivity.
      + eexists _, _, _, added. split; [reflexivity|]. left.
        rewrite <- Hb1. apply Hkeep. discriminate.
      + eexists _, _, _, added. split; [reflexivity|]. left.
        rewrite <- Hb1. apply Hkeep. discriminate.
    - eexists _, _, _, []. split; [reflexivity|]. left.
      rewrite app_nil_r. reflexivity. }
  destruct Hbody as (st' & tr & r & added & Hbody & Hcases).
  destruct (cycle_of_body env st st' tr r Hbody) as (handled & Hcycle & _).
  exists st', (tr ++ handled), added. split; [exact Hcycle|].
  destruct Hcases as [Hgrow|[Hnil (before & flushed & after & -> & Hc)]];
    [left; exact Hgrow|].
  right. split; [exact Hnil|].
  apply (committed_in_ctx _ before flushed (after ++ handled)); [exact Hc|].
  rewrite <- !app_assoc. reflexivity.
Qed.

Lemma send_acks_all_ok (env : cycle_env) (acks : odict (list string)) (st : state) :
  (forall s, In s (map fst acks) -> ce_xack env s = Ok tt) ->
  send_acks env acks st = (st, map ack_event acks, Ok tt).
Proof.
  induction acks as [|[s ids] rest IH]; intros Hok; simpl; [reflexivity|].
  prog_unfold. rewrite (Hok s) by (left; reflexivity). simpl.
  rewrite IH by (intros s' Hs'; apply Hok; right; exact Hs').
  reflexivity.
Qed.

(** X9.  The acknowledgments go out one [xack] per stream, in the order
    of the ack map, each with all the ids queued for that stream.  When
    one of them fails, the exception leaves the loop at once: the streams
    before it are acknowledged, those after it are not. *)
Theorem X9_acks_stop_at_first_failure
    (env : cycle_env) (st : state)
    (sent : odict (list string)) (s : string) (ids : list string)
    (rest : odict (list string)) (e : exc) :
  (forall s', In s' (map fst sent) -> ce_xack env s' = Ok tt) ->
  ce_xack env s = Raise e ->
  send_acks env (sent ++ (s, ids) :: rest) st
  = (st, map ack_event sent ++ [EvXAck s GROUP_NAME ids], Raise e).
Proof.
  induction sent as [|[s0 ids0] sent IH]; intros Hok Hfail; simpl.
  - prog_unfold. rewrite Hfail. reflexivity.
  - prog_unfold. rewrite (Hok s0) by (left; reflexivity). simpl.
    unfold bind, emit, lift in IH.
    rewrite IH; [reflexivity | | exact Hfail].
    intros s' Hs'. apply Hok. right. exact Hs'.
Qed.

Lemma X9_acks_stop_at_first_failure_witness :
  send_acks
    {| ce_discovery_due := false; ce_discover := one_source; ce_read := Ok [];
       ce_flush := db_ok;
       ce_xack := fun s => if String.eqb s "pmu_data_stream:8"
                           then Raise ConnectionError else Ok tt |}
    [("pmu_data_stream:7", ["1-0"; "2-0"]); ("pmu_data_stream:8", ["1-1"]);
     ("pmu_data_stream:9", ["5-0"])]
    (listening [])
  = (listening [],
     [EvXAck "pmu_data_stream:7" GROUP_NAME ["1-0"; "2-0"];
      EvXAck "pmu_data_stream:8" GROUP_NAME ["1-1"]],
     Raise ConnectionError).
Proof.
  apply (X9_acks_stop_at_first_failure _ (listening [])
           [("pmu_data_stream:7", ["1-0"; "2-0"])] "pmu_data_stream:8" ["1-1"]
           [("pmu_data_stream:9", ["5-0"])] ConnectionError).
  - intros s' [<-|[]]. reflexivity.
  - reflexivity.
Defined.

(** X10.  A read on whose entries the mapper returns - each has a [ts],
    and converting it gives a datetime, a ValueError or a TypeError - and
    that fills the batch, with a live connection, a database that takes
    the insert and the commit, and a Redis that takes the
    acknowledgments: the buffer and the rows just read go out in one
    committed bulk insert, the buffer is empty afterwards, and then every
    stream of the answer gets one [xack] carrying exactly the ids read
    from it in this answer, in delivery order. *)
Theorem X10_full_batch_is_acknowledged
    (env : cycle_env) (resp : response) (st : state) :
  maps_cleanly resp = true ->
  BATCH_SIZE <= length (data_buffer st ++ valid_rows resp) ->
  connection_lost (db_conn st) = false ->
  insert_and_commit_succeed (ce_flush env) ->
  (forall s, ce_xack env s = Ok tt) ->
  exists st' acks,
    on_entries env resp st
    = (st',
       [EvDbExecuteValues SQL_INSERT_QUERY (data_buffer st ++ valid_rows resp)
          BATCH_SIZE;
        EvDbCommit;
        EvLog (LogFlushOk (length (data_buffer st ++ valid_rows resp)))]
       ++ map ack_event acks,
       Ok tt)
    /\ data_buffer st' = []
    /\ db_conn st' = db_conn st
    /\ (forall s, odict_get s acks = queued None (ids_read s resp))
    /\ (forall s, ids_read s resp <> [] ->
                  In (EvXAck s GROUP_NAME (ids_read s resp)) (map ack_event acks)).
Proof.
  intros Hclean Hfull Halive (Hcur & Hexe & Hcom) Hack.
  destruct (process_response_clean resp (set_acks_to_send [] st) Hclean)
    as (st1 & Heq1 & Hb1 & Ha1 & Hc1 & Hs1).
  simpl in Hb1, Ha1, Hc1, Hs1.
  rewrite on_entries_unfold, Heq1.
  assert (Hleb : (BATCH_SIZE <=? length (data_buffer st1))%nat = true).
  { apply Nat.leb_le. rewrite Hb1. exact Hfull. }
  rewrite Hleb.
  assert (Hne : data_buffer st1 <> []).
  { intros Hnil. rewrite Hb1 in Hnil. rewrite Hnil in Hfull.
    unfold BATCH_SIZE in Hfull. simpl in Hfull. lia. }
  assert (Halive1 : connection_lost (db_conn st1) = false) by (rewrite Hc1; exact Halive).
  rewrite (flush_nonempty (ce_flush env) st1 Hne). cbv zeta.
  rewrite (ensure_connection_alive (ce_flush env) st1 Halive1).
  rewrite Hcur, Hexe, Hcom.
  rewrite send_acks_all_ok by (intros s _; apply Hack).
  exists (set_data_buffer [] st1), (acks_to_send st1). rewrite Hb1.
  split; [reflexivity|]. split; [reflexivity|]. split; [exact Hc1|].
  split; [exact Ha1|].
  intros s Hs. specialize (Ha1 s).
  destruct (ids_read s resp) as [|i ids] eqn:Hids; [contradiction|].
  simpl in Ha1. apply odict_get_in in Ha1.
  apply in_map_iff. exists (s, i :: ids). split; [reflexivity | exact Ha1].
Qed.

Lemma X10_full_batch_is_acknowledged_witness :
  exists st' acks,
    on_entries (turn two_stream_answer db_ok) two_stream_answer
      (listening (repeat round_trip_row 498))
    = (st',
       [EvDbExecuteValues SQL_INSERT_QUERY (repeat round_trip_row 500) BATCH_SIZE;
        EvDbCommit;
        EvLog (LogFlushOk 500)]
       ++ map ack_event acks,
       Ok tt)
    /\ data_buffer st' = []
    /\ In (EvXAck "pmu_data_stream:7" GROUP_NAME ["1-0"; "2-0"]) (map ack_event acks)
    /\ In (EvXAck "pmu_data_stream:8" GROUP_NAME ["1-1"]) (map ack_event acks).
Proof.
  destruct (X10_full_batch_is_acknowledged (turn two_stream_answer db_ok)
              two_stream_answer (listening (repeat round_trip_row 498)))
    as (st' & acks & Heq & Hb & _ & _ & Hin).
  - vm_compute. reflexivity.
  - apply Nat.leb_le. vm_compute. reflexivity.
  - reflexivity.
  - repeat split.
  - reflexivity.
  - assert (Hrows : data_buffer (listening (repeat round_trip_row 498))
                    ++ valid_rows two_stream_answer
                    = repeat round_trip_row 500) by (vm_compute; reflexivity).
    rewrite Hrows in Heq. rewrite repeat_length in Heq.
    exists st', acks. split; [exact Heq|]. split; [exact Hb|]. split.
    + apply (Hin "pmu_data_stream:7"). discriminate.
    + apply (Hin "pmu_data_stream:8"). discriminate.
Defined.

(** X11.  A turn whose read fails changes nothing in the process: no
    flush, no acknowledgment, the buffer and the ack map stay as they
    were; the error is logged and the loop pauses 5 s when it is a Redis
    error and 1 s otherwise. *)
Theorem X11_failed_read_changes_nothing
    (env : cycle_env) (st : state) (e : exc) :
  ce_discovery_due env = false ->
  streams_to_listen st <> [] ->
  ce_read env = Raise e ->
  cycle env st
  = (st,
     [EvXReadGroup GROUP_NAME CONSUMER_NAME (streams_to_listen st)
        BATCH_SIZE BLOCK_TIMEOUT_MS;
      EvLog (if is_redis_error e then LogRedisError e else LogUnexpectedError e);
      EvSleep (if is_redis_error e then 5 else 1)],
     Ok tt).
Proof.
  intros Hdue Hne Hread.
  destruct (rediscover_spec env st) as (st0 & tr0 & Hre & _ & _ & _ & _ & Hsame).
  destruct (Hsame Hdue) as [-> ->].
  pose proof (cycle_body_unfold env st st [] Hre) as Hbody.
  destruct (streams_to_listen st) as [|l ls] eqn:Hl; [contradiction|].
  cbv zeta in Hbody. rewrite Hread in Hbody.
  destruct (cycle_of_body env st _ _ _ Hbody) as (handled & Hcycle & _ & _ & Hh).
  rewrite Hcycle, (Hh e eq_refl). reflexivity.
Qed.

Lemma X11_failed_read_changes_nothing_witness :
  cycle {| ce_discovery_due := false; ce_discover := one_source;
           ce_read := Raise ConnectionError; ce_flush := db_ok;
           ce_xack := fun _ => Ok tt |}
        (listening [round_trip_row])
  = (listening [round_trip_row],
     [EvXReadGroup GROUP_NAME CONSUMER_NAME [(stream7, ">")]
        BATCH_SIZE BLOCK_TIMEOUT_MS;
      EvLog (LogRedisError ConnectionError);
      EvSleep 5],
     Ok tt).
Proof.
  apply (X11_failed_read_changes_nothing
           {| ce_discovery_due := false; ce_discover := one_source;
              ce_read := Raise ConnectionError; ce_flush := db_ok;
              ce_xack := fun _ => Ok tt |}
           (listening [round_trip_row]) ConnectionError).
  - reflexivity.
  - discriminate.
  - reflexivity.
Defined.

(** X12.  When a discovery that is due cannot list the keys, the
    persistor forgets every stream it was listening to: the turn reads
    nothing and flushes nothing, however much is buffered, and sleeps
    10 s; and as long as no stream is known and no discovery is due,
    every turn is just that sleep. *)
Theorem X12_failed_discovery_silences_reading
    (env : cycle_env) (st : state) :
  (forall e,
      ce_discovery_due env = true ->
      de_keys (ce_discover env) = Raise e ->
      cycle env st
      = (set_streams_to_listen [] st,
         [EvLog LogDiscovering; EvKeys Persistor.STREAM_KEY_PATTERN;
          EvLog (LogDiscoverError e); EvLog LogIdle; EvSleep 10],
         Ok tt))
  /\ (ce_discovery_due env = false ->
      streams_to_listen st = [] ->
      cycle env st = (st, [EvLog LogIdle; EvSleep 10], Ok tt)).
Proof.
  split.
  - intros e Hdue Hkeys.
    assert (Hre : rediscover env st
                  = (set_streams_to_listen [] st,
                     [EvLog LogDiscovering; EvKeys Persistor.STREAM_KEY_PATTERN;
                      EvLog (LogDiscoverError e)], Ok tt)).
    { unfold rediscover, discover_and_setup_groups. rewrite Hdue.
      prog_unfold. rewrite Hkeys. reflexivity. }
    pose proof (cycle_body_unfold env st _ _ Hre) as Hbody.
    simpl streams_to_listen in Hbody.
    destruct (cycle_of_body env st _ _ _ Hbody) as (handled & Hcycle & _ & Hh & _).
    rewrite Hcycle, (Hh eq_refl). reflexivity.
  - intros Hdue Hnone.
    destruct (rediscover_spec env st) as (st0 & tr0 & Hre & _ & _ & _ & _ & Hsame).
    destruct (Hsame Hdue) as [-> ->].
    pose proof (cycle_body_unfold env st st [] Hre) as Hbody.
    rewrite Hnone in Hbody.
    destruct (cycle_of_body env st _ _ _ Hbody) as (handled & Hcycle & _ & Hh & _).
    rewrite Hcycle, (Hh eq_refl). reflexivity.
Qed.

Lemma X12_failed_discovery_silences_reading_witness :
  cycle {| ce_discovery_due := true;
           ce_discover := {| de_keys := Raise ConnectionError;
                             de_xgroup_create := fun _ => Ok tt;
                             de_register := de_register one_source |};
           ce_read := Ok two_stream_answer; ce_flush := db_ok;
           ce_xack := fun _ => Ok tt |}
        (listening [round_trip_row])
  = (set_streams_to_listen [] (listening [round_trip_row]),
     [EvLog LogDiscovering; EvKeys Persistor.STREAM_KEY_PATTERN;
      EvLog (LogDiscoverError ConnectionError); EvLog LogIdle; EvSleep 10],
     Ok tt).
Proof.
  apply (proj1 (X12_failed_discovery_silences_reading
                  {| ce_discovery_due := true;
                     ce_discover := {| de_keys := Raise ConnectionError;
                                       de_xgroup_create := fun _ => Ok tt;
                                       de_register := de_register one_source |};
                     ce_read := Ok two_stream_answer; ce_flush := db_ok;
                     ce_xack := fun _ => Ok tt |}
                  (listening [round_trip_row])) ConnectionError).
  - reflexivity.
  - reflexivity.
Defined.

(** ** A whole run *)

Lemma get_db_connection_gives_up {S : Type} (answers : nat -> result unit) (s : S) :
  (forall j, j < 10 -> answers j = Raise OperationalError) ->
  get_db_connection answers s
  = (s, retry_events 10 ++ [EvLog LogConnectGiveUp],
     Raise (GenericException "Falha na conexão com o banco de dados")).
Proof.
  intros Hfail. unfold get_db_connection. unfold bind at 1.
  change 10 with (10 + 0) at 1.
  rewrite (connect_loop_retries answers s 10 0 0 Hfail).
  cbn [connect_loop]. prog_unfold. rewrite !app_nil_r. reflexivity.
Qed.

(** A flush never unbinds [db_conn], and acknowledges nothing. *)
Lemma flush_db_conn (env : flush_env) (st : state) :
  exists st' tr r,
    flush_buffer_to_db env st = (st', tr, r)
    /\ Forall (fun ev => is_xack ev = false) tr
    /\ ((exists c, db_conn st = Some c) -> exists c, db_conn st' = Some c).
Proof.
  destruct (flush_outcomes env st) as (st' & tr & r & Heq & _ & _ & Hev & _).
  exists st', tr, r. split; [exact Heq|].
  split; [apply flush_events_no_xack; exact Hev|].
  intros Hbound. revert Heq.
  destruct (data_buffer st) as [|r0 rows] eqn:Hbuf.
  { rewrite (flush_empty env st Hbuf). intros [= <- _ _]. exact Hbound. }
  assert (Hne : data_buffer st <> []) by congruence.
  rewrite (flush_nonempty env st Hne). cbv zeta.
  assert (Hens : exists st1 pre r1,
             ensure_connection env st = (st1, pre, r1)
             /\ exists c1, db_conn st1 = Some c1).
  { destruct (connection_lost (db_conn st)) eqn:Hlost.
    - destruct (get_db_connection_spec (fe_connect env) st) as (trc & rc & Hconn & _).
      rewrite (ensure_connection_lost env st trc rc Hlost Hconn).
      destruct rc; eexists _, _, _; (split; [reflexivity|]);
        [simpl; eauto | exact Hbound].
    - rewrite (ensure_connection_alive env st Hlost).
      eexists _, _, _. split; [reflexivity | exact Hbound]. }
  destruct Hens as (st1 & pre & r1 & -> & Hb1).
  assert (Hh : forall sth tr0 e,
             (exists c, db_conn sth = Some c) ->
             flush_handler env sth tr0 e = (st', tr, r) ->
             exists c, db_conn st' = Some c).
  { intros sth tr0 e [c Hc]. unfold flush_handler. rewrite Hc.
    destruct (mark_closed_fields (fe_breaks env) sth) as (_ & _ & _ & Hmc & _).
    destruct (fe_rollback env); intros [= <- _ _];
      [eauto | rewrite (Hmc c Hc); eauto]. }
  assert (Hm : exists c, db_conn (mark_closed (fe_breaks env) st1) = Some c).
  { destruct Hb1 as [c1 Hc1].
    destruct (mark_closed_fields (fe_breaks env) st1) as (_ & _ & _ & Hmc & _).
    rewrite (Hmc c1 Hc1). eauto. }
  destruct r1 as [[]|e0]; [|apply Hh; exact Hb1].
  destruct (fe_cursor env) as [[]|e1]; [|apply Hh; exact Hm].
  destruct (fe_execute_values env) as [[]|e2]; [|apply Hh; exact Hm].
  destruct (fe_commit env) as [[]|e3]; [|apply Hh; exact Hm].
  intros [= <- _ _]. exact Hb1.
Qed.

Lemma cycle_db_conn (env : cycle_env) (st : state) :
  exists st' tr,
    cycle env st = (st', tr, Ok tt)
    /\ ((exists c, db_conn st = Some c) -> exists c, db_conn st' = Some c).
Proof.
  destruct (rediscover_spec env st) as (st0 & tr0 & Hre & _ & _ & Hc0 & _ & _).
  assert (Hbody : exists st' tr r,
            cycle_body env st = (st', tr, r)
            /\ ((exists c, db_conn st = Some c) -> exists c, db_conn st' = Some c)).
  { rewrite (cycle_body_unfold env st st0 tr0 Hre). rewrite <- Hc0.
    destruct (streams_to_listen st0) as [|l ls];
      [eexists _, _, _; split; [reflexivity | auto]|].
    cbv zeta. destruct (ce_read env) as [[|d resp]|e];
      [| |eexists _, _, _; split; [reflexivity | auto]].
    - destruct (on_timeout_spec env st0) as (st' & trf & rf & Heqf & Heq & _).
      rewrite Heq.
      destruct (flush_db_conn (ce_flush env) st0) as (st'' & trf' & rf' & Heqf' & _ & Hc).
      rewrite Heqf in Heqf'. injection Heqf' as <- <- <-.
      eexists _, _, _. split; [reflexivity | exact Hc].
    - rewrite on_entries_unfold.
      destruct (process_response_spec (d :: resp) (set_acks_to_send [] st0))
        as (st1 & r1 & Heq1 & Hc1 & _ & _).
      simpl db_conn in Hc1. rewrite Heq1. rewrite <- Hc1.
      destruct r1 as [[]|e1];
        [|eexists _, _, _; split; [reflexivity | auto]].
      destruct (BATCH_SIZE <=? length (data_buffer st1))%nat;
        [|eexists _, _, _; split; [reflexivity | auto]].
      destruct (flush_db_conn (ce_flush env) st1) as (st2 & trf & rf & Heqf & _ & Hc).
      rewrite Heqf. destruct rf as [[|]|ef];
        [|eexists _, _, _; split; [reflexivity | exact Hc] ..].
      destruct (send_acks_spec env (acks_to_send st2) st2) as (tra & ra & Heqa & _).
      rewrite Heqa. eexists _, _, _. split; [reflexivity | exact Hc]. }
  destruct Hbody as (st' & tr & r & Hbody & Hc).
  destruct (cycle_of_body env st st' tr r Hbody) as (handled & Hcycle & _).
  exists st', (tr ++ handled). split; [exact Hcycle | exact Hc].
Qed.

(** The loop never ends by an exception and never unbinds [db_conn]. *)
Lemma cycles_bound (envs : list cycle_env) :
  forall st,
    (exists c, db_conn st = Some c) ->
    exists st' tr,
      cycles envs st = (st', tr, Ok tt)
      /\ exists c, db_conn st' = Some c.
Proof.
  induction envs as [|env envs IH]; intros st Hb; simpl.
  - exists st, []. split; [reflexivity | exact Hb].
  - destruct (cycle_db_conn env st) as (st1 & tr1 & Heq1 & Hc1).
    destruct (IH st1 (Hc1 Hb)) as (st2 & tr2 & Heq2 & Hb2).
    exists st2, (tr1 ++ tr2). unfold bind. rewrite Heq1, Heq2.
    split; [reflexivity | exact Hb2].
Qed.

(** X13.  When the database cannot be reached at start-up - ten attempts
    of [run_persistor]'s own connection fail - the run ends there with
    the exception of [get_db_connection]: nothing is asked of Redis, no
    discovery runs, the loop is never entered and the shutdown sequence
    is not reached. *)
Theorem X13_startup_without_database (env : run_env) (st : state) :
  (forall j, j < 10 -> rn_connect env j = Raise OperationalError) ->
  exists tr,
    run_persistor env st
    = (st, tr, Raise (GenericException "Falha na conexão com o banco de dados"))
    /\ tr = [EvLog LogStarting; EvSetupDatabase]
            ++ retry_events 10 ++ [EvLog LogConnectGiveUp]
    /\ Forall (fun ev => is_redis_call ev = false) tr
    /\ ~ In (EvLog LogShuttingDown) tr.
Proof.
  intros Hfail. eexists. split; [|split; [reflexivity|]].
  - unfold run_persistor, setup_database.
    unfold bind at 1, emit at 1. unfold bind at 1, emit at 1. unfold bind at 1.
    rewrite (get_db_connection_gives_up (rn_connect env) st Hfail).
    reflexivity.
  - split.
    + cbn. repeat constructor.
    + cbn. intros H. repeat (destruct H as [H|H]; [discriminate H|]). exact H.
Qed.

Lemma X13_startup_without_database_witness :
  exists tr,
    run_persistor
      {| rn_connect := fun _ => Raise OperationalError; rn_discover := one_source;
         rn_cycles := [turn two_stream_answer db_ok]; rn_final_flush := db_ok |}
      initial_state
    = (initial_state, tr,
       Raise (GenericException "Falha na conexão com o banco de dados"))
    /\ Forall (fun ev => is_redis_call ev = false) tr.
Proof.
  destruct (X13_startup_without_database
              {| rn_connect := fun _ => Raise OperationalError;
                 rn_discover := one_source;
                 rn_cycles := [turn two_stream_answer db_ok];
                 rn_final_flush := db_ok |}
              initial_state)
    as (tr & Heq & _ & Hquiet & _).
  - intros j _. reflexivity.
  - exists tr. split; [exact Heq | exact Hquiet].
Defined.

(** X14.  A run that connects at start-up - at the first attempt or
    after up to nine failed ones - always reaches the shutdown sequence,
    whatever Redis and the database do during the turns of the loop: the
    shutdown line, one last flush of what is still buffered, and then,
    unless that flush itself raised, the close of the connection and the
    final line.  Nothing is acknowledged after the shutdown line. *)
Theorem X14_run_ends_with_shutdown_sequence
    (env : run_env) (st : state) (k : nat) :
  k < 10 ->
  (forall j, j < k -> rn_connect env j = Raise OperationalError) ->
  rn_connect env k = Ok tt ->
  exists st_end before st' flushed rf,
    flush_buffer_to_db (rn_final_flush env) st_end = (st', flushed, rf)
    /\ run_persistor env st
       = (st',
          before ++ EvLog LogShuttingDown :: flushed
            ++ match rf with
               | Ok _ => [EvDbClose; EvLog LogStopped]
               | Raise _ => []
               end,
          match rf with Ok _ => Ok tt | Raise e => Raise e end)
    /\ Forall (fun ev => is_xack ev = false) flushed.
Proof.
  intros Hk Hfail Hconn.
  pose proof (get_db_connection_connects (rn_connect env) st k Hk Hfail Hconn) as Hc.
  set (st1 := set_db_conn (Some (set_autocommit false fresh_connection)) st).
  destruct (discover_spec (rn_discover env) st1) as (trd & d & Hd & _).
  set (st2 := set_streams_to_listen d st1).
  destruct (cycles_bound (rn_cycles env) st2) as (st3 & trc & Hcy & Hb3).
  { eexists. reflexivity. }
  destruct (flush_db_conn (rn_final_flush env) st3) as (st4 & trf & rf & Hf & Hnx & Hc4).
  destruct (Hc4 Hb3) as (c4 & Hb4).
  exists st3,
    ([EvLog LogStarting; EvSetupDatabase] ++ (retry_events k ++ [EvDbConnect])
       ++ trd ++ trc),
    st4, trf, rf.
  split; [exact Hf|]. split; [|exact Hnx].
  unfold run_persistor, setup_database.
  unfold bind at 1, emit at 1. unfold bind at 1, emit at 1. unfold bind at 1.
  rewrite Hc. unfold bind at 1, modify at 1. unfold bind at 1.
  fold st1. rewrite Hd. unfold bind at 1, modify at 1. unfold bind at 1.
  fold st2. rewrite Hcy. unfold bind at 1, emit at 1. unfold bind at 1.
  rewrite Hf. destruct rf as [ok|e].
  - unfold bind at 1. unfold bind at 1, get at 1. rewrite Hb4.
    unfold emit. simpl. rewrite <- !app_assoc. reflexivity.
  - simpl. rewrite <- !app_assoc. simpl. rewrite ?app_nil_r. reflexivity.
Qed.

Lemma X14_run_ends_with_shutdown_sequence_witness :
  exists st_end before st' flushed rf,
    flush_buffer_to_db (rn_final_flush slow_start) st_end = (st', flushed, rf)
    /\ run_persistor slow_start initial_state
       = (st',
          before ++ EvLog LogShuttingDown :: flushed
            ++ match rf with
               | Ok _ => [EvDbClose; EvLog LogStopped]
               | Raise _ => []
               end,
          match rf with Ok _ => Ok tt | Raise e => Raise e end)
    /\ Forall (fun ev => is_xack ev = false) flushed.
Proof.
  apply (X14_run_ends_with_shutdown_sequence slow_start initial_state 2).
  - lia.
  - intros j Hj. destruct j as [|[|j]]; [reflexivity | reflexivity | lia].
  - reflexivity.
Defined.

(** ** Discovery and the mapper, at their edges *)

(** X15.  A stream whose name does not end in an integer after the last
    colon is consumed like any other: its group is created (or found),
    the warning about the name is logged, the database is not touched for
    it, and the stream is added to the set that is listened to. *)
Theorem X15_unnumbered_stream_is_still_read
    (S : Type) (env : discover_env) (stream_name : string)
    (streams_dict : odict string) (s : S) :
  create_group_ok env stream_name = true ->
  int_of_string (split_last ":" stream_name) = Raise ValueError ->
  exists created,
    setup_stream env stream_name streams_dict s
    = (s,
       [EvXGroupCreate stream_name GROUP_NAME; EvLog created;
        EvLog (LogInvalidStreamName stream_name)],
       Ok (odict_set stream_name ">" streams_dict))
    /\ (created = LogGroupCreated stream_name
        \/ created = LogGroupExists stream_name)
    /\ odict_get stream_name (odict_set stream_name ">" streams_dict) = Some ">".
Proof.
  intros Hok Hbad. unfold create_group_ok in Hok. unfold setup_stream.
  prog_unfold. rewrite Hbad.
  destruct (de_xgroup_create env stream_name) as [[]|e]; simpl.
  - eexists. split; [reflexivity|]. split; [left; reflexivity|].
    apply odict_get_set_eq.
  - destruct e; simpl in Hok |- *; try discriminate Hok. rewrite Hok. simpl.
    eexists. split; [reflexivity|]. split; [right; reflexivity|].
    apply odict_get_set_eq.
Qed.

Lemma X15_unnumbered_stream_is_still_read_witness :
  exists created,
    setup_stream one_source "pmu_data_stream:north" [(stream7, ">")] tt
    = (tt,
       [EvXGroupCreate "pmu_data_stream:north" GROUP_NAME; EvLog created;
        EvLog (LogInvalidStreamName "pmu_data_stream:north")],
       Ok [(stream7, ">"); ("pmu_data_stream:north", ">")]).
Proof.
  destruct (X15_unnumbered_stream_is_still_read unit one_source
              "pmu_data_stream:north" [(stream7, ">")] tt)
    as (created & Heq & _).
  - reflexivity.
  - reflexivity.
  - exists created. exact Heq.
Defined.

(** X16.  The row the mapper builds depends on nothing but the field
    [ts] and the fields named like the columns after [time]: two entries
    that agree on these give the same row, or fail alike.  In particular
    a field [time] of the entry is never used, and no other field can
    reach the table. *)
Theorem X16_mapper_reads_only_its_fields (msg1 msg2 : gmap string value) :
  Forall (fun k => msg1 !! k = msg2 !! k) mapper_fields ->
  mapped_row msg1 = mapped_row msg2.
Proof.
  intros Hsame. rewrite List.Forall_forall in Hsame.
  assert (Hts : time_of_entry msg1 = time_of_entry msg2).
  { unfold time_of_entry. rewrite (Hsame "ts") by (left; reflexivity). reflexivity. }
  unfold mapped_row, format_row_from_redis. rewrite Hts.
  destruct (time_of_entry msg2) as [t|e]; [|reflexivity].
  unfold rbind. cbn beta iota. cbn [snd]. f_equal.
  apply map_ext_in. intros col Hin. unfold dict_get.
  destruct (decide (col = "time")) as [->|Hne].
  - rewrite !lookup_insert_eq. reflexivity.
  - rewrite !lookup_insert_ne by congruence.
    rewrite (Hsame col); [reflexivity|].
    right. destruct Hin as [Heq|Hin]; [congruence | exact Hin].
Qed.

Lemma X16_mapper_reads_only_its_fields_witness :
  mapped_row round_trip_entry
  = mapped_row (<["source" := VStr "9"]> (<["time" := VStr "junk"]> round_trip_entry)).
Proof.
  apply (X16_mapper_reads_only_its_fields round_trip_entry
           (<["source" := VStr "9"]> (<["time" := VStr "junk"]> round_trip_entry))).
  unfold mapper_fields.
  repeat (constructor; [vm_compute; reflexivity|]). constructor.
Defined.

(** ** The monitor: error entries, presence, health and the HTTP surface *)

Import Monitor.

Lemma get_persistor_status_returns {S : Type} (view : redis_view) (s : S) :
  exists tr report,
    get_persistor_status (Some view) s = (s, tr, Ok report)
    /\ Forall read_only tr
    /\ (forall e, rv_keys view = Raise e -> report = ReportError (str_of_exc e))
    /\ (forall names stream,
           rv_keys view = Ok names -> In stream names ->
           exists status,
             report = ReportStreams status
             /\ status !! stream = Some (status_of view stream)).
Proof.
  destruct (rv_keys view) as [[|n names]|e] eqn:Hkeys.
  - exists [EvKeys STREAM_KEY_PATTERN], ReportNoStreams. split; [|split; [|split]].
    + unfold get_persistor_status. prog_unfold. rewrite Hkeys. reflexivity.
    + repeat constructor.
    + intros e [=].
    + intros names stream [= <-] [].
  - exists (EvKeys STREAM_KEY_PATTERN :: map EvXInfoGroups (n :: names)),
      (ReportStreams
         (fold_left (fun m k => <[k := status_of view k]> m) (n :: names) ∅)).
    split; [|split; [|split]].
    + unfold get_persistor_status.
      unfold try_except, bind at 1, emit at 1. unfold bind at 1, lift at 1.
      rewrite Hkeys. unfold bind at 1. rewrite stream_reports_spec.
      unfold ret. simpl. rewrite app_nil_r. reflexivity.
    + constructor; [split; reflexivity|].
      generalize (n :: names). intros l. induction l; simpl; constructor; auto.
      split; reflexivity.
    + intros e [=].
    + intros names' stream [= <-] Hin. eexists. split; [reflexivity|].
      apply (reports_lookup view (n :: names) stream Hin).
  - exists [EvKeys STREAM_KEY_PATTERN; EvLog (LogStatusError e)],
      (ReportError (str_of_exc e)).
    split; [|split; [|split]].
    + unfold get_persistor_status. prog_unfold. rewrite Hkeys. reflexivity.
    + repeat constructor.
    + intros e' [= <-]. reflexivity.
    + intros names stream [=].
Qed.

(** X17.  In the persistor status report the failure of one stream stays
    in that stream's entry and never fails the report: a stream whose
    XINFO GROUPS answers a Redis response error is reported as being
    without group, any other failure of that query as an error entry, and
    so is a persistor group whose metadata lacks the [lag] field, even
    though the group exists. *)
Theorem X17_stream_failure_stays_in_its_entry
    (S : Type) (view : redis_view) (names : list string) (stream : string) (s : S) :
  rv_keys view = Ok names ->
  In stream names ->
  exists tr status,
    get_persistor_status (Some view) s = (s, tr, Ok (ReportStreams status))
    /\ (forall msg,
           rv_xinfo_groups view stream = Raise (ResponseError msg) ->
           status !! stream = Some NoGroup)
    /\ (forall e,
           rv_xinfo_groups view stream = Raise e ->
           is_response_error e = false ->
           exists details, status !! stream = Some (StreamError details))
    /\ (forall pre g post,
           rv_xinfo_groups view stream = Ok (pre ++ g :: post) ->
           Forall other_group pre ->
           g !! "name" = Some (RStr PERSISTOR_GROUP_NAME) ->
           g !! "lag" = None ->
           exists details, status !! stream = Some (StreamError details)).
Proof.
  intros Hkeys Hin.
  destruct (get_persistor_status_returns view s) as (tr & report & Heq & _ & _ & Hstreams).
  destruct (Hstreams names stream Hkeys Hin) as (status & -> & Hlook).
  exists tr, status. split; [exact Heq|]. rewrite Hlook. unfold status_of.
  split; [|split].
  - intros msg ->. reflexivity.
  - intros e -> Hne. destruct e; try discriminate Hne; eexists; reflexivity.
  - intros pre g post -> Hpre Hname Hlag.
    rewrite (scan_groups_other _ _ Hpre). simpl. unfold getitem.
    rewrite Hname, Hlag. simpl. eexists. reflexivity.
Qed.

Lemma X17_stream_failure_stays_in_its_entry_witness :
  exists tr status,
    get_persistor_status
      (Some {| rv_keys := Ok ["pmu_data_stream:1"; "pmu_data_stream:2"];
               rv_xinfo_groups := fun stream =>
                 if String.eqb stream "pmu_data_stream:1"
                 then Raise (ResponseError "ERR no such key")
                 else Ok [other_group_info;
                          delete "lag" persistor_group_info] |}) tt
    = (tt, tr, Ok (ReportStreams status))
    /\ status !! "pmu_data_stream:1" = Some NoGroup
    /\ exists details, status !! "pmu_data_stream:2" = Some (StreamError details).
Proof.
  set (view := {| rv_keys := Ok ["pmu_data_stream:1"; "pmu_data_stream:2"];
                  rv_xinfo_groups := fun stream =>
                    if String.eqb stream "pmu_data_stream:1"
                    then Raise (ResponseError "ERR no such key")
                    else Ok [other_group_info;
                             delete "lag" persistor_group_info] |}).
  destruct (X17_stream_failure_stays_in_its_entry unit view
              ["pmu_data_stream:1"; "pmu_data_stream:2"] "pmu_data_stream:1" tt)
    as (tr & status & Heq & Hnogroup & _).
  - reflexivity.
  - left. reflexivity.
  - destruct (X17_stream_failure_stays_in_its_entry unit view
                ["pmu_data_stream:1"; "pmu_data_stream:2"] "pmu_data_stream:2" tt)
      as (tr' & status' & Heq' & _ & _ & Hnolag).
    + reflexivity.
    + right. left. reflexivity.
    + rewrite Heq in Heq'. injection Heq' as <- <-.
      exists tr, status. split; [exact Heq|]. split.
      * apply (Hnogroup "ERR no such key"). reflexivity.
      * apply (Hnolag [other_group_info] (delete "lag" persistor_group_info) []).
        -- reflexivity.
        -- repeat constructor. exists (RStr "audit_group").
           split; [reflexivity | discriminate].
        -- vm_compute. reflexivity.
        -- vm_compute. reflexivity.
Defined.

Lemma presence_entries_app (view : presence_view) (before rest : list string) :
  forall status0,
    presence_entries view (before ++ rest) status0
    = let '(tr1, status1) := presence_entries view before status0 in
      let '(tr2, status2) := presence_entries view rest status1 in
      (tr1 ++ tr2, status2).
Proof.
  induction before as [|b before IH]; intros status0; simpl.
  - destruct (presence_entries view rest status0). reflexivity.
  - destruct (presence_entry view b) as [tr1 [key entry]]. rewrite IH.
    destruct (presence_entries view before (<[key := entry]> status0)) as [tr2 status2].
    destruct (presence_entries view rest status2) as [tr3 status3].
    rewrite app_assoc. reflexivity.
Qed.

(** Streams that write other keys leave a key's entry alone. *)
Lemma presence_entries_keeps (view : presence_view) (k : string) (after : list string) :
  Forall (fun other => presence_key view other <> k) after ->
  forall status0,
    snd (presence_entries view after status0) !! k = status0 !! k.
Proof.
  induction 1 as [|a after Ha _ IH]; intros status0; simpl; [reflexivity|].
  unfold presence_key in Ha.
  destruct (presence_entry view a) as [tr1 [key entry]]. simpl in Ha.
  specialize (IH (<[key := entry]> status0)).
  destruct (presence_entries view after (<[key := entry]> status0)) as [tr2 status2].
  simpl in *. rewrite IH. apply lookup_insert_ne. exact Ha.
Qed.

(** The entry of the last stream that writes a key is the one reported. *)
Lemma presence_lookup (view : presence_view) (before after : list string)
    (stream : string) (status0 : gmap string presence) :
  Forall (fun other => presence_key view other <> presence_key view stream) after ->
  snd (presence_entries view (before ++ stream :: after) status0)
    !! presence_key view stream
  = Some (snd (snd (presence_entry view stream))).
Proof.
  intros Hafter. rewrite presence_entries_app.
  destruct (presence_entries view before status0) as [tr1 status1].
  pose proof (presence_entries_keeps view _ after Hafter) as Hkeep.
  simpl. unfold presence_key in *.
  destruct (presence_entry view stream) as [tr2 [key entry]]. simpl in *.
  specialize (Hkeep (<[key := entry]> status1)).
  destruct (presence_entries view after (<[key := entry]> status1)) as [tr3 status3].
  simpl in *. rewrite Hkeep. apply lookup_insert_eq.
Qed.

Lemma ingestors_report_streams (view : presence_view) (before after : list string)
    (stream : string) :
  pv_keys view = Ok (before ++ stream :: after) ->
  get_all_ingestors_status (Some view)
  = (MKeys STREAM_KEY_PATTERN
       :: fst (presence_entries view (before ++ stream :: after) ∅),
     IngestorsStreams (snd (presence_entries view (before ++ stream :: after) ∅))).
Proof.
  intros Hkeys. unfold get_all_ingestors_status. rewrite Hkeys.
  destruct (before ++ stream :: after) as [|n names] eqn:Hl.
  - destruct before; discriminate Hl.
  - destruct (presence_entries view (n :: names) ∅). reflexivity.
Qed.



(** X19.  A stream whose last entry cannot be fetched, or whose last id
    does not start with an integer, gets an error entry in the presence
    report, filed under the full stream name - not under the PMU id like
    the other entries - and the report goes on with the next stream; a
    stream with no entry at all is reported as empty under its PMU id. *)
Theorem X19_presence_failure_is_filed_under_the_stream
    (view : presence_view) (before after : list string) (stream : string) :
  pv_keys view = Ok (before ++ stream :: after) ->
  Forall (fun other => presence_key view other <> presence_key view stream) after ->
  exists tr status,
    get_all_ingestors_status (Some view) = (tr, IngestorsStreams status)
    /\ (forall e,
           pv_xrevrange view stream = Raise e ->
           exists details, status !! stream = Some (PresenceError details))
    /\ (forall id fields more e,
           pv_xrevrange view stream = Ok ((id, fields) :: more) ->
           int_of_string (split_first "-" id) = Raise e ->
           exists details, status !! stream = Some (PresenceError details))
    /\ (pv_xrevrange view stream = Ok [] ->
        status !! split_last ":" stream = Some EmptyStream).
Proof.
  intros Hkeys Hafter.
  pose proof (presence_lookup view before after stream ∅ Hafter) as Hlook.
  eexists _, _. split; [apply (ingestors_report_streams view before after stream Hkeys)|].
  unfold presence_key in Hlook. split; [|split].
  - intros e He. unfold presence_entry in Hlook. rewrite He in Hlook.
    simpl in Hlook. eexists. exact Hlook.
  - intros id fields more e Hlast Hid. unfold presence_entry in Hlook.
    rewrite Hlast, Hid in Hlook. simpl in Hlook. eexists. exact Hlook.
  - intros Hempty. unfold presence_entry in Hlook. rewrite Hempty in Hlook.
    simpl in Hlook. exact Hlook.
Qed.

Lemma X19_presence_failure_is_filed_under_the_stream_witness :
  exists tr status,
    get_all_ingestors_status (Some presence_sample_failing)
    = (tr, IngestorsStreams status)
    /\ (exists details, status !! "pmu_data_stream:7" = Some (PresenceError details))
    /\ status !! "7" = None
    /\ status !! "8" = Some EmptyStream.
Proof.
  destruct (X19_presence_failure_is_filed_under_the_stream presence_sample_failing []
              ["pmu_data_stream:8"; "pmu_data_stream:9"] "pmu_data_stream:7")
    as (tr & status & Heq & Hfail & _);
    [reflexivity | repeat constructor; discriminate |].
  exists tr, status. split; [exact Heq|]. split; [|split].
  - apply (Hfail ConnectionError). reflexivity.
  - assert (Hc : match snd (get_all_ingestors_status (Some presence_sample_failing)) with
                 | IngestorsStreams m => m !! "7"
                 | _ => None
                 end = None) by (vm_compute; reflexivity).
    rewrite Heq in Hc. exact Hc.
  - assert (Hc : match snd (get_all_ingestors_status (Some presence_sample_failing)) with
                 | IngestorsStreams m => m !! "8"
                 | _ => None
                 end = Some EmptyStream) by (vm_compute; reflexivity).
    rewrite Heq in Hc. exact Hc.
Defined.

Lemma presence_entries_read_only (view : presence_view) (names : list string) :
  forall status0,
    Forall (fun ev => mon_read_only ev = true)
      (fst (presence_entries view names status0)).
Proof.
  assert (Hone : forall stream,
             Forall (fun ev => mon_read_only ev = true)
               (fst (presence_entry view stream))).
  { intros stream. unfold presence_entry.
    destruct (pv_xrevrange view stream) as [[|[msg_id fields] more]|e];
      [repeat constructor | | repeat constructor].
    destruct (int_of_string (split_first "-" msg_id)) as [ms|e];
      [|repeat constructor].
    destruct (pv_time_error view ms); repeat constructor. }
  induction names as [|n names IH]; intros status0; simpl; [constructor|].
  specialize (Hone n).
  destruct (presence_entry view n) as [tr1 [key entry]].
  specialize (IH (<[key := entry]> status0)).
  destruct (presence_entries view names (<[key := entry]> status0)) as [tr2 status2].
  simpl in *. apply Forall_app. split; assumption.
Qed.

Lemma ingestors_status_read_only (r : option presence_view) :
  Forall (fun ev => mon_read_only ev = true) (fst (get_all_ingestors_status r)).
Proof.
  destruct r as [view|]; simpl; [|constructor].
  destruct (pv_keys view) as [[|n names]|e]; [repeat constructor | | repeat constructor].
  pose proof (presence_entries_read_only view (n :: names) ∅) as H.
  destruct (presence_entries view (n :: names) ∅) as [tr status].
  simpl in *. constructor; [reflexivity | exact H].
Qed.

(** X20.  Once the constructor's ping has succeeded, [get_system_health]
    never raises and always answers that Redis is UP, without asking
    Redis about it: the answer only remembers the first ping.  If Redis
    is gone by now, the report still says UP and carries the failures
    inside, as the error reports of the persistor and of the ingestors.
    All it sends are read-only queries. *)
Theorem X20_health_remembers_the_first_ping (answers : redis_answers) :
  exists tr persistor ingestors,
    Monitor.get_system_health {| sm_r := Some answers |}
    = (tr, Ok (HealthUp persistor ingestors))
    /\ Forall (fun ev => mon_read_only ev = true) tr
    /\ (forall e, rv_keys (ra_groups answers) = Raise e ->
                  exists details, persistor = ReportError details)
    /\ (forall e, pv_keys (ra_presence answers) = Raise e ->
                  exists details, ingestors = IngestorsError details).
Proof.
  destruct (get_persistor_status_returns (ra_groups answers) tt)
    as (tr1 & report & Heq & Hro & Herr & _).
  pose proof (ingestors_status_read_only (Some (ra_presence answers))) as Hro2.
  cbv beta iota delta [Monitor.get_system_health sm_r]. rewrite Heq.
  destruct (get_all_ingestors_status (Some (ra_presence answers)))
    as [tr2 ingestors] eqn:Hing.
  exists (map MPersistor tr1 ++ tr2), report, ingestors.
  split; [reflexivity|]. split; [|split].
  - apply Forall_app. split; [|exact Hro2].
    apply List.Forall_forall. intros ev Hin. apply in_map_iff in Hin.
    destruct Hin as (ev0 & <- & Hin0).
    rewrite List.Forall_forall in Hro. destruct (Hro ev0 Hin0) as [Hw Hd].
    simpl. rewrite Hw, Hd. reflexivity.
  - intros e He. rewrite (Herr e He). eexists. reflexivity.
  - intros e He. unfold get_all_ingestors_status in Hing. rewrite He in Hing.
    injection Hing as _ <-. eexists. reflexivity.
Qed.

(** X21.  The status endpoints never answer 503: the constructor of the
    manager handles every exception itself, so the module-level manager
    is never None.  When Redis cannot be reached as the API starts, the
    three endpoints answer 200 - Redis DOWN, an empty ingestor report and
    an empty persistor report - and ask Redis nothing. *)
Theorem X21_status_endpoints_never_answer_503
    (ping : result unit) (answers : redis_answers) :
  exists tr m,
    Api.create_status_manager ping answers = (tr, Some m)
    /\ (forall detail, snd (Api.get_system_health (Some m)) <> Api.Http503 detail)
    /\ (forall detail, snd (Api.get_ingestor_status (Some m)) <> Api.Http503 detail)
    /\ (forall detail, snd (Api.get_persistor_status (Some m)) <> Api.Http503 detail)
    /\ (forall e, ping = Raise e ->
          Api.get_system_health (Some m) = ([], Api.Http200 HealthDown)
          /\ Api.get_ingestor_status (Some m) = ([], Api.Http200 IngestorsEmpty)
          /\ Api.get_persistor_status (Some m) = ([], Api.Http200 ReportEmpty)).
Proof.
  destruct ping as [[]|e0].
  - exists [Api.AMonitor MPing; Api.AMonitor MLogConnected], {| sm_r := Some answers |}.
    split; [reflexivity|]. split; [|split; [|split]].
    + intros detail. unfold Api.get_system_health.
      destruct (Monitor.get_system_health {| sm_r := Some answers |}) as [tr [h|e]];
        discriminate.
    + intros detail. unfold Api.get_ingestor_status.
      destruct (get_all_ingestors_status _) as [tr report]. discriminate.
    + intros detail. unfold Api.get_persistor_status.
      destruct (get_persistor_status _ tt) as [[u tr] [report|e]]; discriminate.
    + intros e [=].
  - exists [Api.AMonitor MPing; Api.AMonitor (MLogConnectFailed e0)], {| sm_r := None |}.
    split; [reflexivity|]. split; [|split; [|split]]; try discriminate.
    intros e _. repeat split.
Qed.
